(** * Block storage: buffers (src/util/pointer.h) and the PostgreSQL
      backend (src/database-postgresql.cpp)

    A shallow embedding of the two translation units.  The C++ code is
    stateful, so every method is a computation in a state-and-failure
    monad: the buffer classes run over a model of the C++ free store, the
    database backend over a model of the libpq client library and the
    engine behind it. *)

From Stdlib Require Import ZArith Lia DecimalString DecimalZ.
From Stdlib.Strings Require Import Byte Ascii String.
From stdpp Require Import gmap strings list.

Local Open Scope Z_scope.

(** ** A state monad with failure

    [Fail] keeps the state: a C++ exception leaves the engine and the
    free store as they were when it was thrown. *)

Inductive outcome (E S A : Type) : Type :=
  | Ok (a : A) (s : S)
  | Fail (e : E) (s : S).
Arguments Ok {E S A} a s.
Arguments Fail {E S A} e s.

Definition M (E S A : Type) : Type := S -> outcome E S A.

#[global] Instance M_ret {E S} : MRet (M E S) := fun _ a s => Ok a s.
#[global] Instance M_bind {E S} : MBind (M E S) := fun _ _ f m s =>
  match m s with
  | Ok a s' => f a s'
  | Fail e s' => Fail e s'
  end.

Definition get_state {E S} : M E S S := fun s => Ok s s.
Definition put_state {E S} (s : S) : M E S unit := fun _ => Ok tt s.
Definition raise {E S A} (e : E) : M E S A := fun s => Fail e s.

(** What an execution returned, if it did. *)
Definition returned {E S A} (o : outcome E S A) : option A :=
  match o with
  | Ok a _ => Some a
  | Fail _ _ => None
  end.

(** The state an execution ends in, whether it returned or failed. *)
Definition final_state {E S A} (o : outcome E S A) : S :=
  match o with
  | Ok _ s => s
  | Fail _ s => s
  end.

(** ** Machine integers *)

Definition wrap32 (z : Z) : Z := z mod 2 ^ 32.   (* unsigned int *)
Definition wrap64 (z : Z) : Z := z mod 2 ^ 64.   (* size_t *)
Definition UINT_MAX : Z := 2 ^ 32 - 1.
Definition SIZE_MAX : Z := 2 ^ 64 - 1.

(** * The buffers (src/util/pointer.h) *)

(** ** The C++ free store

    A location names one allocation; locations are never reused, so a
    location in the [freed] log identifies the allocation that was
    released.  Arrays are byte-granular ([None] is an indeterminate byte,
    as [new T[n]] leaves them for a trivially constructible [T]), because
    [memcpy] and [memset] count bytes. *)

Definition loc := positive.
Definition ptr := option loc.
Definition NULL : ptr := None.
Definition addr := positive.          (* where an object lives *)
Abbreviation mbyte := (option byte).

(** An element type that can live in a buffer: trivially copyable, with
    [sizeof] bytes of object representation. *)
Class Pod (T : Type) := {
  sizeof : Z;
  encode : T -> list byte;
  decode : list byte -> T;
  zero : T;
  sizeof_pos : 0 < sizeof;
  encode_length : forall x, Z.of_nat (length (encode x)) = sizeof;
  decode_encode : forall x, decode (encode x) = x;
  encode_zero : encode zero = replicate (Z.to_nat sizeof) "000"%byte
}.
Arguments sizeof T {_}.

#[global, refine] Instance Pod_u8 : Pod byte := {|
  sizeof := 1;
  encode := fun b => [b];
  decode := fun bs => match bs with b :: _ => b | [] => "000"%byte end;
  zero := "000"%byte
|}.
Proof. all: (reflexivity || done). Defined.

(** A struct of two members without padding. *)
#[global, refine] Instance Pod_pair {A B} `{Pod A, Pod B} : Pod (A * B) := {|
  sizeof := sizeof A + sizeof B;
  encode := fun p => encode p.1 ++ encode p.2;
  decode := fun bs =>
    (decode (take (Z.to_nat (sizeof A)) bs),
     decode (drop (Z.to_nat (sizeof A)) bs));
  zero := (zero, zero)
|}.
Proof.
  - pose proof (sizeof_pos (T:=A)). pose proof (sizeof_pos (T:=B)). lia.
  - intros [a b]. rewrite length_app, Nat2Z.inj_add, !encode_length. done.
  - intros [a b]. cbn [fst snd].
    assert (Z.to_nat (sizeof A) = length (encode a)) as ->
      by (rewrite <- (encode_length a); lia).
    by rewrite take_app_length, drop_app_length, !decode_encode.
  - cbn [fst snd]. rewrite !encode_zero, <- replicate_add. f_equal.
    pose proof (sizeof_pos (T:=A)). pose proof (sizeof_pos (T:=B)). lia.
Defined.

Module Buf.
(** The members of [Buffer<T>]. *)
Record obj := Obj { data : ptr; m_size : Z }.
End Buf.

Module SBuf.
(** The members of [SharedBuffer<T>]. *)
Record obj := Obj { data : ptr; m_size : Z; refcount : ptr }.
End SBuf.

Record store := Store {
  arrays : gmap loc (list mbyte);      (* live [new T[n]] blocks *)
  cells : gmap loc (option Z);         (* live [new unsigned int] cells *)
  freed : list loc;                    (* every [delete] and [delete[]] *)
  buffers : gmap addr Buf.obj;         (* live [Buffer] objects *)
  shared : gmap addr SBuf.obj          (* live [SharedBuffer] objects *)
}.

Definition set_arrays (f : gmap loc (list mbyte) -> gmap loc (list mbyte))
    (st : store) : store :=
  Store (f (arrays st)) (cells st) (freed st) (buffers st) (shared st).
Definition set_cells (f : gmap loc (option Z) -> gmap loc (option Z))
    (st : store) : store :=
  Store (arrays st) (f (cells st)) (freed st) (buffers st) (shared st).
Definition set_freed (f : list loc -> list loc) (st : store) : store :=
  Store (arrays st) (cells st) (f (freed st)) (buffers st) (shared st).
Definition set_buffers (f : gmap addr Buf.obj -> gmap addr Buf.obj)
    (st : store) : store :=
  Store (arrays st) (cells st) (freed st) (f (buffers st)) (shared st).
Definition set_shared (f : gmap addr SBuf.obj -> gmap addr SBuf.obj)
    (st : store) : store :=
  Store (arrays st) (cells st) (freed st) (buffers st) (f (shared st)).

Definition empty_store : store := Store ∅ ∅ [] ∅ ∅.

Inductive fault :=
  | AssertionFailed        (* an [assert] did not hold: the process stops *)
  | BadAlloc               (* [new] could not provide the storage *)
  | UndefinedBehaviour.    (* a wild access, or a second [delete] *)

Definition Mem := M fault store.

(** Locations that are or were in use: a new allocation avoids them. *)
Definition used (st : store) : gset loc :=
  dom (arrays st) ∪ dom (cells st) ∪ list_to_set (freed st).

(** How often an allocation was released. *)
Definition times_freed (st : store) (l : loc) : nat :=
  length (filter (eq l) (freed st)).

(** Modelled from the spec: the [assert] macro of debug.h, which is not
    under src/.  Section 4.3 says the check traps. *)
Definition assert (c : bool) : Mem unit :=
  if c then mret tt else raise AssertionFailed.

(** [new T[n]]: [sizeof(T) * n] indeterminate bytes, when that many can
    be addressed at all. *)
Definition new_array (T : Type) `{Pod T} (n : Z) : Mem loc := fun st =>
  if SIZE_MAX <? sizeof T * n then Fail BadAlloc st else
  let l := fresh (used st) in
  Ok l (set_arrays <[l := replicate (Z.to_nat (sizeof T * n)) None]> st).

(** [delete[] p]: nothing for a null pointer. *)
Definition delete_array (p : ptr) : Mem unit := fun st =>
  match p with
  | None => Ok tt st
  | Some l =>
      match arrays st !! l with
      | Some _ => Ok tt (set_freed (cons l) (set_arrays (delete l) st))
      | None => Fail UndefinedBehaviour st
      end
  end.

(** [new unsigned int]: one cell, not yet assigned. *)
Definition new_cell : Mem loc := fun st =>
  let l := fresh (used st) in
  Ok l (set_cells <[l := None]> st).

(** [delete p] for a cell. *)
Definition delete_cell (p : ptr) : Mem unit := fun st =>
  match p with
  | None => Ok tt st
  | Some l =>
      match cells st !! l with
      | Some _ => Ok tt (set_freed (cons l) (set_cells (delete l) st))
      | None => Fail UndefinedBehaviour st
      end
  end.

(** [*p] as an rvalue. *)
Definition read_cell (p : ptr) : Mem Z := fun st =>
  match p ≫= (fun l => cells st !! l) with
  | Some (Some v) => Ok v st
  | _ => Fail UndefinedBehaviour st
  end.

(** [*p = v]. *)
Definition write_cell (p : ptr) (v : Z) : Mem unit := fun st =>
  match p with
  | Some l =>
      match cells st !! l with
      | Some _ => Ok tt (set_cells <[l := Some v]> st)
      | None => Fail UndefinedBehaviour st
      end
  | None => Fail UndefinedBehaviour st
  end.

(** [memcpy(dst, src, n)]: [n] bytes.  With [n = 0] nothing is accessed. *)
Definition memcpy (dst src : ptr) (n : Z) : Mem unit := fun st =>
  if n =? 0 then Ok tt st else
  match dst, src with
  | Some d, Some s =>
      match arrays st !! d, arrays st !! s with
      | Some bd, Some bs =>
          if (n <=? Z.of_nat (length bd)) && (n <=? Z.of_nat (length bs)) then
            Ok tt (set_arrays
                     <[d := take (Z.to_nat n) bs ++ drop (Z.to_nat n) bd]> st)
          else Fail UndefinedBehaviour st
      | _, _ => Fail UndefinedBehaviour st
      end
  | _, _ => Fail UndefinedBehaviour st
  end.

(** [memset(dst, c, n)]. *)
Definition memset (dst : ptr) (c : byte) (n : Z) : Mem unit := fun st =>
  if n =? 0 then Ok tt st else
  match dst with
  | Some d =>
      match arrays st !! d with
      | Some bd =>
          if n <=? Z.of_nat (length bd) then
            Ok tt (set_arrays
                     <[d := replicate (Z.to_nat n) (Some c)
                              ++ drop (Z.to_nat n) bd]> st)
          else Fail UndefinedBehaviour st
      | None => Fail UndefinedBehaviour st
      end
  | None => Fail UndefinedBehaviour st
  end.

(** An lvalue [p[i]] of element type [T]. *)
Record lvalue := Lvalue { base : ptr; index : Z }.

Section Elements.
Context {T : Type} `{Pod T}.

(** The [i]-th element stored in a block: [None] when it lies outside the
    block or contains an indeterminate byte. *)
Definition elem_at (bs : list mbyte) (i : Z) : option T :=
  if (0 <=? i) && ((i + 1) * sizeof T <=? Z.of_nat (length bs)) then
    decode <$> mapM id (take (Z.to_nat (sizeof T))
                             (drop (Z.to_nat (i * sizeof T)) bs))
  else None.

(** What a block holds, read as [n] elements. *)
Definition elems (bs : list mbyte) (n : Z) : list (option T) :=
  (fun i => elem_at bs (Z.of_nat i)) <$> seq 0 (Z.to_nat n).

(** The elements behind a pointer. *)
Definition contents (st : store) (p : ptr) (n : Z) : option (list (option T)) :=
  match p with
  | None => if n =? 0 then Some [] else None
  | Some l => (fun bs => elems bs n) <$> arrays st !! l
  end.

(** Reading through an lvalue: [Some x], or [None] for an indeterminate
    value.  Outside the block the behaviour is undefined. *)
Definition load (lv : lvalue) : Mem (option T) := fun st =>
  match base lv ≫= (fun l => arrays st !! l) with
  | Some bs =>
      if (0 <=? index lv)
         && ((index lv + 1) * sizeof T <=? Z.of_nat (length bs))
      then Ok (elem_at bs (index lv)) st
      else Fail UndefinedBehaviour st
  | None => Fail UndefinedBehaviour st
  end.

(** Assigning through an lvalue. *)
Definition store_elem (lv : lvalue) (v : T) : Mem unit := fun st =>
  match base lv with
  | Some l =>
      match arrays st !! l with
      | Some bs =>
          if (0 <=? index lv)
             && ((index lv + 1) * sizeof T <=? Z.of_nat (length bs))
          then Ok tt (set_arrays
                 <[l := take (Z.to_nat (index lv * sizeof T)) bs
                        ++ (Some <$> encode v)
                        ++ drop (Z.to_nat ((index lv + 1) * sizeof T)) bs]>
                 st)
          else Fail UndefinedBehaviour st
      | None => Fail UndefinedBehaviour st
      end
  | None => Fail UndefinedBehaviour st
  end.
End Elements.

(** ** [template <typename T> class Buffer] *)

Module Buffer.
Section Methods.
Context {T : Type} `{Pod T}.

Definition this_obj (this : addr) : Mem Buf.obj := fun st =>
  match buffers st !! this with
  | Some o => Ok o st
  | None => Fail UndefinedBehaviour st
  end.

Definition set_obj (this : addr) (o : Buf.obj) : Mem unit := fun st =>
  Ok tt (set_buffers <[this := o]> st).

(** The end of the object's lifetime. *)
Definition end_obj (this : addr) : Mem unit := fun st =>
  Ok tt (set_buffers (delete this) st).

(** [Buffer()] *)
Definition ctor_default (this : addr) : Mem unit :=
  set_obj this (Buf.Obj NULL 0).

(** [Buffer(size_t size)] *)
Definition ctor_sized (this : addr) (size : Z) : Mem unit :=
  if size =? 0 then set_obj this (Buf.Obj NULL size)
  else
    d ← new_array T size;
    set_obj this (Buf.Obj (Some d) size).

(** [Buffer(const T *t, size_t size)] *)
Definition ctor_raw (this : addr) (t : ptr) (size : Z) : Mem unit :=
  if size =? 0 then set_obj this (Buf.Obj NULL size)
  else
    d ← new_array T size;
    memcpy (Some d) t (wrap64 (sizeof T * size));;
    set_obj this (Buf.Obj (Some d) size).

(** [Buffer(const Buffer &buffer)], delegating to [Buffer(const T*, size_t)] *)
Definition ctor_copy (this buffer : addr) : Mem unit :=
  b ← this_obj buffer;
  ctor_raw this (Buf.data b) (Buf.m_size b).

(** [void drop()] *)
Definition drop (this : addr) : Mem unit :=
  o ← this_obj this;
  delete_array (Buf.data o);;
  set_obj this (Buf.Obj NULL (Buf.m_size o)).

(** [~Buffer()]: [drop()], after which the object is gone. *)
Definition dtor (this : addr) : Mem unit :=
  drop this;;
  end_obj this.

(** [void resize(size_t size)] *)
Definition resize (this : addr) (size : Z) : Mem unit :=
  o ← this_obj this;
  if size =? Buf.m_size o then mret tt
  else
    (if negb (Buf.m_size o =? 0) then drop this else mret tt);;
    (if negb (size =? 0) then
       d ← new_array T size;
       o' ← this_obj this;
       set_obj this (Buf.Obj (Some d) (Buf.m_size o'))
     else mret tt);;
    o' ← this_obj this;
    set_obj this (Buf.Obj (Buf.data o') size).

(** [Buffer& operator=(const Buffer &buffer)] *)
Definition assign (this buffer : addr) : Mem unit :=
  if decide (this ≠ buffer) then
    b ← this_obj buffer;
    resize this (Buf.m_size b);;
    o ← this_obj this;
    memcpy (Buf.data o) (Buf.data b) (Buf.m_size b)
  else mret tt.

(** [T & operator[](size_t i) const]: no check. *)
Definition subscript (this : addr) (i : Z) : Mem lvalue :=
  o ← this_obj this;
  mret (Lvalue (Buf.data o) i).

(** [T * operator*() const] *)
Definition deref (this : addr) : Mem ptr :=
  o ← this_obj this;
  mret (Buf.data o).

(** [size_t getSize() const] *)
Definition getSize (this : addr) : Mem Z :=
  o ← this_obj this;
  mret (Buf.m_size o).
End Methods.
End Buffer.

(** ** [template <typename T> class SharedBuffer] *)

Module SharedBuffer.
Section Methods.
Context {T : Type} `{Pod T}.

Definition this_obj (this : addr) : Mem SBuf.obj := fun st =>
  match shared st !! this with
  | Some o => Ok o st
  | None => Fail UndefinedBehaviour st
  end.

Definition set_obj (this : addr) (o : SBuf.obj) : Mem unit := fun st =>
  Ok tt (set_shared <[this := o]> st).

(** The end of the object's lifetime. *)
Definition end_obj (this : addr) : Mem unit := fun st =>
  Ok tt (set_shared (delete this) st).

(** [SharedBuffer()] *)
Definition ctor_default (this : addr) : Mem unit :=
  rc ← new_cell;
  write_cell (Some rc) 1;;
  set_obj this (SBuf.Obj NULL 0 (Some rc)).

(** [SharedBuffer(unsigned int size)] *)
Definition ctor_sized (this : addr) (size : Z) : Mem unit :=
  d ← (if negb (size =? 0) then
         d ← new_array T size;
         mret (Some d)
       else mret NULL);
  rc ← new_cell;
  memset d "000" (wrap64 (sizeof T * size));;
  write_cell (Some rc) 1;;
  set_obj this (SBuf.Obj d size (Some rc)).

(** [SharedBuffer(const SharedBuffer &buffer)] *)
Definition ctor_copy (this buffer : addr) : Mem unit :=
  b ← this_obj buffer;
  set_obj this (SBuf.Obj (SBuf.data b) (SBuf.m_size b) (SBuf.refcount b));;
  c ← read_cell (SBuf.refcount b);
  write_cell (SBuf.refcount b) (wrap32 (c + 1)).

(** [void drop()] *)
Definition drop (this : addr) : Mem unit :=
  o ← this_obj this;
  c ← read_cell (SBuf.refcount o);
  assert (0 <? c);;
  write_cell (SBuf.refcount o) (wrap32 (c - 1));;
  c' ← read_cell (SBuf.refcount o);
  if c' =? 0 then
    delete_array (SBuf.data o);;
    delete_cell (SBuf.refcount o)
  else mret tt.

(** [SharedBuffer & operator=(const SharedBuffer & buffer)] *)
Definition assign (this buffer : addr) : Mem unit :=
  if decide (this = buffer) then mret tt
  else
    drop this;;
    b ← this_obj buffer;
    set_obj this (SBuf.Obj (SBuf.data b) (SBuf.m_size b) (SBuf.refcount b));;
    c ← read_cell (SBuf.refcount b);
    write_cell (SBuf.refcount b) (wrap32 (c + 1)).

(** [SharedBuffer(const T *t, unsigned int size)]; the copy is
    [memcpy(data, t, m_size)]. *)
Definition ctor_raw (this : addr) (t : ptr) (size : Z) : Mem unit :=
  d ← (if negb (size =? 0) then
         d ← new_array T size;
         memcpy (Some d) t size;;
         mret (Some d)
       else mret NULL);
  rc ← new_cell;
  write_cell (Some rc) 1;;
  set_obj this (SBuf.Obj d size (Some rc)).

(** [SharedBuffer(const Buffer<T> &buffer)]; [m_size] is an
    [unsigned int], [getSize()] a [size_t], and the copy is
    [memcpy(data, *buffer, buffer.getSize())]. *)
Definition ctor_Buffer (this buffer : addr) : Mem unit :=
  n ← Buffer.getSize buffer;
  let size := wrap32 n in
  d ← (if negb (size =? 0) then
         d ← new_array T size;
         src ← Buffer.deref buffer;
         n' ← Buffer.getSize buffer;
         memcpy (Some d) src n';;
         mret (Some d)
       else mret NULL);
  rc ← new_cell;
  write_cell (Some rc) 1;;
  set_obj this (SBuf.Obj d size (Some rc)).

(** [~SharedBuffer()] *)
Definition dtor (this : addr) : Mem unit :=
  drop this;;
  end_obj this.

(** [T & operator[](unsigned int i) const] *)
Definition subscript (this : addr) (i : Z) : Mem lvalue :=
  o ← this_obj this;
  assert (i <? SBuf.m_size o);;
  mret (Lvalue (SBuf.data o) i).

(** [T * operator*() const] *)
Definition deref (this : addr) : Mem ptr :=
  o ← this_obj this;
  mret (SBuf.data o).

(** [unsigned int getSize() const] *)
Definition getSize (this : addr) : Mem Z :=
  o ← this_obj this;
  mret (SBuf.m_size o).

(** [operator Buffer<T>() const], the result constructed at [dst]. *)
Definition to_Buffer (this dst : addr) : Mem unit :=
  o ← this_obj this;
  Buffer.ctor_raw (T:=T) dst (SBuf.data o) (SBuf.m_size o).
End Methods.
End SharedBuffer.

(** * The PostgreSQL backend (src/database-postgresql.cpp) *)

(** ** Text and integer conversions *)

(** [int] and [s16] after a narrowing conversion. *)
Definition to_int32 (z : Z) : Z := (z + 2 ^ 31) mod 2 ^ 32 - 2 ^ 31.
Definition to_s16 (z : Z) : Z := (z + 2 ^ 15) mod 2 ^ 16 - 2 ^ 15.
Definition INT_MAX : Z := 2 ^ 31 - 1.
Definition INT_MIN : Z := - 2 ^ 31.

(** A [std::string] is a [string]: any characters, the zero character too.
    What a C function sees through [c_str()] ends at the first zero. *)
Fixpoint c_str (s : string) : string :=
  match s with
  | EmptyString => EmptyString
  | String c s' => if Ascii.eqb c Ascii.zero then EmptyString
                   else String c (c_str s')
  end.

(** The first [n] characters: [std::string(p, n)], and what libpq sends
    for a binary parameter of length [n]. *)
Fixpoint string_take (n : nat) (s : string) : string :=
  match n, s with
  | S n', String c s' => String c (string_take n' s')
  | _, _ => EmptyString
  end.

(** Modelled from the spec: [itos] of util/string.h, which is not under
    src/.  Section 4.2: coordinates are passed as their canonical decimal
    text representation. *)
Definition itos (i : Z) : string := NilZero.string_of_int (Z.to_int i).

(** [atoi] on a decimal text; any other text counts as 0 here. *)
Definition atoi (s : string) : Z :=
  match NilZero.int_of_string s with
  | Some d => to_int32 (Z.of_int d)
  | None => 0
  end.

(** [v3s16]: three [s16] members [X], [Y], [Z]. *)
Record v3s16 := V3 { vX : Z; vY : Z; vZ : Z }.

#[global] Instance v3s16_eq_dec : EqDecision v3s16.
Proof. solve_decision. Defined.

Definition s16_range (v : Z) : Prop := - 2 ^ 15 <= v <= 2 ^ 15 - 1.
Definition valid_pos (p : v3s16) : Prop :=
  s16_range (vX p) /\ s16_range (vY p) /\ s16_range (vZ p).

(** ** The engine: one database with the relation ["blocks"] *)

(** A row of
    [CREATE TABLE "blocks" ("x" INTEGER NOT NULL, "y" INTEGER NOT NULL,
     "z" INTEGER NOT NULL, "data" BYTEA, PRIMARY KEY ("x", "y", "z"))]. *)
Record row := Row { col_x : Z; col_y : Z; col_z : Z; col_data : string }.

Definition row_pos (r : row) : v3s16 := V3 (col_x r) (col_y r) (col_z r).

(** ["x" = $1 AND "y" = $2 AND "z" = $3] *)
Definition key_is (x y z : Z) (r : row) : bool :=
  (col_x r =? x) && (col_y r =? y) && (col_z r =? z).

(** The statements the backend sends, named after the SQL text in the
    source. *)
Inductive sql :=
  | SQL_create_blocks  (* SELECT set_config(...); CREATE TABLE IF NOT EXISTS "blocks" (...) *)
  | SQL_begin          (* BEGIN *)
  | SQL_commit         (* COMMIT *)
  | SQL_load           (* SELECT "data" FROM "blocks" WHERE "x" = $1 AND "y" = $2 AND "z" = $3 *)
  | SQL_save           (* WITH upsert AS (UPDATE "blocks" SET "data"=$4 WHERE
                          "x" = $1 AND "y" = $2 AND "z" = $3 RETURNING * )
                          INSERT INTO "blocks" ("x", "y", "z", "data")
                          SELECT $1, $2, $3, $4
                          WHERE NOT EXISTS (SELECT * FROM upsert) *)
  | SQL_delete         (* DELETE FROM "blocks" WHERE "x" = $1 AND "y" = $2 AND "z" = $3 *)
  | SQL_list.          (* SELECT "x", "y", "z" FROM "blocks" *)

Inductive ExecStatusType :=
  | PGRES_COMMAND_OK | PGRES_TUPLES_OK | PGRES_FATAL_ERROR.

#[global] Instance ExecStatusType_eq_dec : EqDecision ExecStatusType.
Proof. solve_decision. Defined.

Inductive ConnStatusType := CONNECTION_OK | CONNECTION_BAD.

#[global] Instance ConnStatusType_eq_dec : EqDecision ConnStatusType.
Proof. solve_decision. Defined.

(** A value in a result, before it is rendered in the requested format. *)
Inductive datum :=
  | DInt (v : Z)
  | DBytea (b : string).

Record PGresult := Result {
  res_status : ExecStatusType;
  res_format : Z;                    (* 0 text, 1 binary *)
  res_tuples : list (list datum);
  res_error : string
}.

Definition command_ok : PGresult :=
  Result PGRES_COMMAND_OK 0 [] EmptyString.
Definition tuples_ok (fmt : Z) (ts : list (list datum)) : PGresult :=
  Result PGRES_TUPLES_OK fmt ts EmptyString.
Definition fatal (msg : string) : PGresult := Result PGRES_FATAL_ERROR 0 [] msg.

(** The engine's integer input: a decimal text within the range of
    [INTEGER]. *)
Definition int4in (s : string) : option Z :=
  match NilZero.int_of_string s with
  | Some d =>
      let v := Z.of_int d in
      if (INT_MIN <=? v) && (v <=? INT_MAX) then Some v else None
  | None => None
  end.

(** The engine's integer output. *)
Definition int4out (v : Z) : string := NilZero.string_of_int (Z.to_int v).

(** The three key parameters $1, $2, $3. *)
Definition key_params (params : list string) : option (Z * Z * Z) :=
  match params with
  | p1 :: p2 :: p3 :: _ =>
      x ← int4in p1; y ← int4in p2; z ← int4in p3; Some (x, y, z)
  | _ => None
  end.

(** [UPDATE "blocks" SET "data" = d WHERE key RETURNING *]: the relation
    afterwards, and the rows returned. *)
Definition sql_update (x y z : Z) (d : string) (rows : list row)
    : list row * list row :=
  ((fun r => if key_is x y z r then Row (col_x r) (col_y r) (col_z r) d else r)
     <$> rows,
   (fun r => Row (col_x r) (col_y r) (col_z r) d)
     <$> filter (fun r => key_is x y z r = true) rows).

(** [INSERT INTO "blocks"]: refused when the primary key is taken. *)
Definition sql_insert (r : row) (rows : list row) : option (list row) :=
  if decide (row_pos r ∈ row_pos <$> rows) then None else Some (rows ++ [r]).

(** One statement against the relation ([None]: it does not exist yet). *)
Definition run_sql (q : sql) (params : list string) (result_format : Z)
    (rel : option (list row)) : PGresult * option (list row) :=
  match q with
  | SQL_create_blocks =>
      (command_ok, Some (default [] rel))
  | SQL_begin | SQL_commit =>
      (command_ok, rel)
  | SQL_load =>
      match rel, key_params params with
      | Some rows, Some (x, y, z) =>
          (tuples_ok result_format
             ((fun r => [DBytea (col_data r)])
                <$> filter (fun r => key_is x y z r = true) rows),
           rel)
      | None, _ => (fatal "relation blocks does not exist", rel)
      | _, None => (fatal "invalid input syntax for type integer", rel)
      end
  | SQL_save =>
      match rel, key_params params, params !! 3%nat with
      | Some rows, Some (x, y, z), Some d =>
          let '(updated, upsert) := sql_update x y z d rows in
          match upsert with
          | [] =>
              match sql_insert (Row x y z d) updated with
              | Some rows' => (command_ok, Some rows')
              | None =>
                  (fatal "duplicate key value violates unique constraint",
                   rel)
              end
          | _ :: _ => (command_ok, Some updated)
          end
      | None, _, _ => (fatal "relation blocks does not exist", rel)
      | _, _, _ => (fatal "invalid input syntax for type integer", rel)
      end
  | SQL_delete =>
      match rel, key_params params with
      | Some rows, Some (x, y, z) =>
          (command_ok, Some (filter (fun r => key_is x y z r <> true) rows))
      | None, _ => (fatal "relation blocks does not exist", rel)
      | _, None => (fatal "invalid input syntax for type integer", rel)
      end
  | SQL_list =>
      match rel with
      | Some rows =>
          (tuples_ok result_format
             ((fun r => [DInt (col_x r); DInt (col_y r); DInt (col_z r)])
                <$> rows),
           rel)
      | None => (fatal "relation blocks does not exist", rel)
      end
  end.

(** How a value reaches the client: [int4out] and [byteaout] (hex) in
    text format, [int4send] and [byteasend] in binary format. *)
Definition hex_digit (n : N) : ascii :=
  if (n <? 10)%N then ascii_of_N (48 + n) else ascii_of_N (87 + n).

Fixpoint hex_of_string (s : string) : string :=
  match s with
  | EmptyString => EmptyString
  | String c s' =>
      String (hex_digit (N_of_ascii c / 16))
        (String (hex_digit (N_of_ascii c mod 16)) (hex_of_string s'))
  end.

Definition int4send (v : Z) : string :=
  let u := Z.to_N (v mod 2 ^ 32) in
  String (ascii_of_N (u / 16777216 mod 256))
    (String (ascii_of_N (u / 65536 mod 256))
       (String (ascii_of_N (u / 256 mod 256))
          (String (ascii_of_N (u mod 256)) EmptyString))).

Definition render (fmt : Z) (d : datum) : string :=
  match d with
  | DInt v => if fmt =? 0 then int4out v else int4send v
  | DBytea b => if fmt =? 0 then "\x" +:+ hex_of_string b else b
  end.

(** ** libpq *)

Record PGconn := Conn {
  conn_status : ConnStatusType;
  conn_prepared : gmap string sql
}.

(** What the client library and the engine hold between calls. *)
Record world := World {
  accepts : string -> bool;            (* the conninfo strings that reach the engine *)
  blocks : option (list row);          (* the relation, once it exists *)
  conns : gmap positive PGconn         (* [PGconn] objects not yet finished *)
}.

Definition set_blocks (b : option (list row)) (w : world) : world :=
  World (accepts w) b (conns w).
Definition set_conns (f : gmap positive PGconn -> gmap positive PGconn)
    (w : world) : world :=
  World (accepts w) (blocks w) (f (conns w)).

Inductive exception :=
  | SettingNotFoundException (what : string)
  | FileNotGoodException (what : string).

Definition DB := M exception world.

(** [PQconnectdb] always hands out a [PGconn]; its status tells whether
    the engine was reached. *)
Definition PQconnectdb (conninfo : string) : DB positive := fun w =>
  let h := fresh (dom (conns w)) in
  let status := if accepts w conninfo then CONNECTION_OK else CONNECTION_BAD in
  Ok h (set_conns <[h := Conn status ∅]> w).

Definition PQstatus (conn : positive) : DB ConnStatusType := fun w =>
  Ok (match conns w !! conn with
      | Some c => conn_status c
      | None => CONNECTION_BAD
      end) w.

Definition PQerrorMessage (conn : positive) : DB string := fun w =>
  Ok (match conns w !! conn with
      | Some (Conn CONNECTION_OK _) => EmptyString
      | _ => "could not connect to server"
      end) w.

(** [PQfinish] releases the [PGconn]. *)
Definition PQfinish (conn : positive) : DB unit := fun w =>
  Ok tt (set_conns (delete conn) w).

(** The connection a command can be sent on. *)
Definition usable (conn : positive) (w : world) : option PGconn :=
  match conns w !! conn with
  | Some (Conn CONNECTION_OK p) => Some (Conn CONNECTION_OK p)
  | _ => None
  end.

(** [PQexec]: a null result when the command cannot be sent. *)
Definition PQexec (conn : positive) (q : sql) : DB (option PGresult) := fun w =>
  match usable conn w with
  | Some _ =>
      let '(r, b) := run_sql q [] 0 (blocks w) in
      Ok (Some r) (set_blocks b w)
  | None => Ok None w
  end.

(** [PQprepare(conn, name, query, 0, NULL)] *)
Definition PQprepare (conn : positive) (name : string) (q : sql)
    : DB (option PGresult) := fun w =>
  match usable conn w with
  | Some c =>
      match conn_prepared c !! name with
      | Some _ => Ok (Some (fatal "prepared statement already exists")) w
      | None =>
          Ok (Some command_ok)
             (set_conns <[conn := Conn CONNECTION_OK
                                       (<[name := q]> (conn_prepared c))]> w)
      end
  | None => Ok None w
  end.

(** What is sent for parameter [i]: a text parameter as a C string, a
    binary one as the given number of bytes. *)
Definition send_param (paramLengths paramFormats : option (list Z))
    (i : nat) (value : string) : string :=
  if default 0 (paramFormats ≫= (fun fs => fs !! i)) =? 0 then c_str value
  else string_take (Z.to_nat (default 0 (paramLengths ≫= (fun ls => ls !! i))))
                   value.

(** [PQexecPrepared(conn, stmtName, nParams, paramValues, paramLengths,
    paramFormats, resultFormat)] *)
Definition PQexecPrepared (conn : positive) (stmtName : string) (nParams : nat)
    (paramValues : list string) (paramLengths paramFormats : option (list Z))
    (resultFormat : Z) : DB (option PGresult) := fun w =>
  match usable conn w with
  | Some c =>
      match conn_prepared c !! stmtName with
      | Some q =>
          let params := imap (send_param paramLengths paramFormats)
                             (take nParams paramValues) in
          let '(r, b) := run_sql q params resultFormat (blocks w) in
          Ok (Some r) (set_blocks b w)
      | None => Ok (Some (fatal "prepared statement does not exist")) w
      end
  | None => Ok None w
  end.

Definition PQresultStatus (res : PGresult) : ExecStatusType := res_status res.
Definition PQresultErrorMessage (res : PGresult) : string := res_error res.
Definition PQntuples (res : PGresult) : Z := Z.of_nat (length (res_tuples res)).

Definition PQgetvalue (res : PGresult) (i j : Z) : string :=
  match res_tuples res !! Z.to_nat i ≫= (fun t => t !! Z.to_nat j) with
  | Some d => render (res_format res) d
  | None => EmptyString
  end.

Definition PQgetlength (res : PGresult) (i j : Z) : Z :=
  Z.of_nat (String.length (PQgetvalue res i j)).

(** [PQclear]: results are values here, there is nothing to release. *)
Definition PQclear (res : option PGresult) : DB unit := mret tt.

(** Modelled from the spec: [Settings::get] of settings.h, which is not
    under src/.  Section 6: the absence of the value is an error of its
    own at open. *)
Definition Settings_get (conf : gmap string string) (name : string) : DB string :=
  match conf !! name with
  | Some v => mret v
  | None => raise (SettingNotFoundException name)
  end.

(** [try { body } catch (SettingNotFoundException) { handler }] *)
Definition try_catch_SettingNotFound {A} (body handler : DB A) : DB A := fun w =>
  match body w with
  | Fail (SettingNotFoundException _) w' => handler w'
  | o => o
  end.

(** ** [class Database_PostgreSQL] *)

Module Database_PostgreSQL.

(** The object: its one member. *)
Record t := Obj { conn : positive }.

(** [PG_RES(res, wanted_res)], with the [__FILE__ ":" __LINE__] of the
    place it is expanded at.  Past the check the result is not null:
    this is the result the code goes on with. *)
Definition PG_RES (site : string) (res : option PGresult)
    (wanted_res : ExecStatusType) : DB PGresult :=
  match res with
  | Some r =>
      if decide (PQresultStatus r <> wanted_res) then
        raise (FileNotGoodException
                 ("PostgreSQL database error (" +:+ site +:+ "): "
                  +:+ PQresultErrorMessage r))
      else mret r
  | None =>
      raise (FileNotGoodException
               ("PostgreSQL database error (" +:+ site +:+ "): "
                +:+ "Result is NULL!"))
  end.

(** [PG_RES_NOFREE(s, r)] *)
Definition PG_RES_NOFREE (site : string) (s : DB (option PGresult))
    (r : ExecStatusType) : DB PGresult :=
  macro_res ← s;
  PG_RES site macro_res r.

(** [PG_RES_FREE(s, r)] *)
Definition PG_RES_FREE (site : string) (s : DB (option PGresult))
    (r : ExecStatusType) : DB unit :=
  macro_res ← s;
  PG_RES site macro_res r;;
  PQclear macro_res.

Definition PG_OK_FREE (site : string) (s : DB (option PGresult)) : DB unit :=
  PG_RES_FREE site s PGRES_COMMAND_OK.

(** [PREPARE_STATEMENT(name, query)] *)
Definition PREPARE_STATEMENT (site : string) (conn : positive)
    (name : string) (query : sql) : DB unit :=
  PG_OK_FREE site (PQprepare conn name query).

(** [Database_PostgreSQL(const Settings &conf)].  A constructor that
    throws leaves no object behind: nothing is returned, and no
    destructor will run. *)
Definition ctor (conf : gmap string string) : DB t :=
  conn ← try_catch_SettingNotFound
            (info ← Settings_get conf "postgresql_connection_info";
             PQconnectdb (c_str info))
            (raise (SettingNotFoundException
                      ("postgresql_connection_info must be "
                       +:+ "set in world.mt to use the PostgreSQL backend!")));
  status ← PQstatus conn;
  (if decide (status <> CONNECTION_OK) then
     msg ← PQerrorMessage conn;
     raise (FileNotGoodException
              ("Couldn't open PostgreSQL database connection: " +:+ msg))
   else mret tt);;
  PG_OK_FREE "database-postgresql.cpp:59" (PQexec conn SQL_create_blocks);;
  PREPARE_STATEMENT "database-postgresql.cpp:70" conn "begin" SQL_begin;;
  PREPARE_STATEMENT "database-postgresql.cpp:71" conn "end" SQL_commit;;
  PREPARE_STATEMENT "database-postgresql.cpp:72" conn "load" SQL_load;;
  PREPARE_STATEMENT "database-postgresql.cpp:74" conn "save" SQL_save;;
  PREPARE_STATEMENT "database-postgresql.cpp:81" conn "delete" SQL_delete;;
  PREPARE_STATEMENT "database-postgresql.cpp:83" conn "list" SQL_list;;
  mret (Obj conn).

(** [void beginSave()] *)
Definition beginSave (this : t) : DB unit :=
  PG_OK_FREE "database-postgresql.cpp:89"
    (PQexecPrepared (conn this) "begin" 0 [] None None 0).

(** [void endSave()] *)
Definition endSave (this : t) : DB unit :=
  PG_OK_FREE "database-postgresql.cpp:93"
    (PQexecPrepared (conn this) "end" 0 [] None None 0).

(** [BIND_POS(params, pos)]: the three coordinates as decimal text. *)
Definition BIND_POS (pos : v3s16) : list string :=
  [itos (vX pos); itos (vY pos); itos (vZ pos)].

(** [bool deleteBlock(const v3s16 &pos)] *)
Definition deleteBlock (this : t) (pos : v3s16) : DB bool :=
  let params := BIND_POS pos in
  PG_OK_FREE "database-postgresql.cpp:108"
    (PQexecPrepared (conn this) "delete" 3 params None None 0);;
  mret true.

(** [bool saveBlock(const v3s16 &pos, const std::string &data)] *)
Definition saveBlock (this : t) (pos : v3s16) (data : string) : DB bool :=
  let params := BIND_POS pos ++ [data] in
  let paramLengths := [0; 0; 0; to_int32 (Z.of_nat (String.length data))] in
  let paramFormats := [0; 0; 0; 1] in
  PG_OK_FREE "database-postgresql.cpp:120"
    (PQexecPrepared (conn this) "save" 4
                    params (Some paramLengths) (Some paramFormats) 0);;
  mret true.

(** [std::string loadBlock(const v3s16 &pos)] *)
Definition loadBlock (this : t) (pos : v3s16) : DB string :=
  let params := BIND_POS pos in
  res ← PG_RES_NOFREE "database-postgresql.cpp:131"
          (PQexecPrepared (conn this) "load" 3 params None None 1)
          PGRES_TUPLES_OK;
  let data :=
    if decide (PQntuples res <> 0) then
      string_take (Z.to_nat (PQgetlength res 0 0)) (PQgetvalue res 0 0)
    else EmptyString in
  PQclear (Some res);;
  mret data.

(** [void listAllLoadableBlocks(std::vector<v3s16> &dst)]: the vector
    after the call. *)
Definition listAllLoadableBlocks (this : t) (dst : list v3s16)
    : DB (list v3s16) :=
  res ← PG_RES_NOFREE "database-postgresql.cpp:147"
          (PQexecPrepared (conn this) "list" 0 [] None None 0)
          PGRES_TUPLES_OK;
  let rows := PQntuples res in
  let dst' :=
    foldl (fun dst i =>
             let pos := V3 (to_s16 (atoi (PQgetvalue res i 0)))
                           (to_s16 (atoi (PQgetvalue res i 1)))
                           (to_s16 (atoi (PQgetvalue res i 2))) in
             dst ++ [pos])
          dst (Z.of_nat <$> seq 0 (Z.to_nat rows)) in
  PQclear (Some res);;
  mret dst'.

(** [~Database_PostgreSQL()] *)
Definition dtor (this : t) : DB unit :=
  PQfinish (conn this).

(** *** The life of a backend

    What its owner does with it: construct it, call it, destroy it.  A
    call that throws leaves the object alive, the owner goes on or stops
    calling, and destroys it in the end. *)
Inductive call :=
  | BeginSave
  | EndSave
  | SaveBlock (pos : v3s16) (data : string)
  | LoadBlock (pos : v3s16)
  | DeleteBlock (pos : v3s16)
  | ListAllLoadableBlocks.

Definition perform (this : t) (c : call) : DB unit :=
  match c with
  | BeginSave => beginSave this
  | EndSave => endSave this
  | SaveBlock pos data => saveBlock this pos data;; mret tt
  | LoadBlock pos => loadBlock this pos;; mret tt
  | DeleteBlock pos => deleteBlock this pos;; mret tt
  | ListAllLoadableBlocks => listAllLoadableBlocks this [];; mret tt
  end.

(** The owner catches what a call throws. *)
Definition attempt (m : DB unit) : DB unit := fun w =>
  Ok tt (final_state (m w)).

Fixpoint perform_all (this : t) (cs : list call) : DB unit :=
  match cs with
  | [] => mret tt
  | c :: cs' => attempt (perform this c);; perform_all this cs'
  end.

Definition lifetime (conf : gmap string string) (cs : list call) : DB unit :=
  this ← ctor conf;
  perform_all this cs;;
  dtor this.
End Database_PostgreSQL.

(** * Verification *)

(** ** Reasoning about the free store *)

Lemma mem_bind_Ok {A B} (m : Mem A) (f : A -> Mem B) st a st' :
  m st = Ok a st' -> (m ≫= f) st = f a st'.
Proof. unfold mbind, M_bind. by intros ->. Qed.

Lemma fresh_not_array (st : store) : arrays st !! fresh (used st) = None.
Proof.
  apply not_elem_of_dom. pose proof (is_fresh (used st)) as Hf.
  unfold used in Hf. set_solver.
Qed.

Lemma fresh_not_cell (st : store) : cells st !! fresh (used st) = None.
Proof.
  apply not_elem_of_dom. pose proof (is_fresh (used st)) as Hf.
  unfold used in Hf. set_solver.
Qed.

Lemma fresh_not_freed (st : store) : fresh (used st) ∉ freed st.
Proof.
  pose proof (is_fresh (used st)) as Hf. unfold used in Hf. set_solver.
Qed.

Lemma times_freed_0 (st : store) (l : loc) :
  l ∉ freed st -> times_freed st l = 0%nat.
Proof.
  unfold times_freed. induction (freed st) as [|x xs IH]; [done|].
  intros Hl. apply not_elem_of_cons in Hl as [Hx Hxs].
  rewrite filter_cons_False by done. auto.
Qed.

Lemma times_freed_pos (st : store) (l : loc) :
  l ∈ freed st -> (0 < times_freed st l)%nat.
Proof.
  unfold times_freed. induction (freed st) as [|x xs IH].
  - by intros ?%elem_of_nil.
  - intros Hl. rewrite filter_cons. destruct (decide (l = x)); simpl; [lia|].
    apply elem_of_cons in Hl as [?|?]; [done|auto].
Qed.

Lemma fmap_const_replicate {A B} (f : A -> B) (y : B) (l : list A) :
  (forall x, x ∈ l -> f x = y) -> f <$> l = replicate (length l) y.
Proof.
  induction l as [|x l IH]; intros Hf; [done|]. cbn.
  rewrite (Hf x) by left. f_equal. apply IH. intros; apply Hf. by right.
Qed.

Section ElementFacts.
Context {T : Type} `{Pod T}.

Lemma sizeof_nat : Z.of_nat (Z.to_nat (sizeof T)) = sizeof T.
Proof. pose proof (sizeof_pos (T:=T)). lia. Qed.

(** An element whose bytes are exactly the representation of [x]. *)
Lemma elem_at_encoded (bs : list mbyte) (i : Z) (x : T) :
  0 <= i ->
  take (Z.to_nat (sizeof T)) (drop (Z.to_nat (i * sizeof T)) bs)
    = Some <$> encode x ->
  elem_at bs i = Some x.
Proof.
  intros Hi Hsl. unfold elem_at.
  assert (Z.of_nat (length (take (Z.to_nat (sizeof T))
            (drop (Z.to_nat (i * sizeof T)) bs))) = sizeof T) as Hlen
    by (rewrite Hsl, length_fmap; apply encode_length).
  rewrite length_take, length_drop in Hlen.
  pose proof (sizeof_pos (T:=T)).
  assert ((0 <=? i) && ((i + 1) * sizeof T <=? Z.of_nat (length bs)) = true)
    as -> by (apply andb_true_iff; split; [lia | nia]).
  rewrite Hsl, (mapM_fmap_Some id Some) by done. cbn.
  by rewrite decode_encode.
Qed.

Lemma elem_at_zeroed (n i : Z) :
  0 <= i < n ->
  elem_at (T:=T) (replicate (Z.to_nat (sizeof T * n)) (Some "000"%byte)) i
    = Some zero.
Proof.
  intros Hi. pose proof (sizeof_pos (T:=T)).
  apply elem_at_encoded; [lia|].
  rewrite drop_replicate, take_replicate, encode_zero, fmap_replicate.
  f_equal. nia.
Qed.

Lemma elems_zeroed (n : Z) :
  elems (T:=T) (replicate (Z.to_nat (sizeof T * n)) (Some "000"%byte)) n
    = replicate (Z.to_nat n) (Some zero).
Proof.
  unfold elems.
  rewrite (fmap_const_replicate _ (Some zero)), length_seq; [done|].
  intros i Hi%elem_of_seq. apply elem_at_zeroed. lia.
Qed.
End ElementFacts.

(** ** [SharedBuffer]: construction and indexing *)

Ltac store_simpl :=
  unfold NULL in *;
  cbn [arrays cells freed buffers shared
       set_arrays set_cells set_freed set_buffers set_shared
       SBuf.data SBuf.m_size SBuf.refcount Buf.data Buf.m_size
       base index negb option_bind] in *.

Ltac unfold_monad :=
  unfold mbind, M_bind, mret, M_ret, raise, get_state, put_state in *.

Section SharedBufferBasics.
Context {T : Type} `{Pod T}.

(** [C10] [SharedBuffer(unsigned int size)] with a size [n > 0] leaves
    an object of size [n] whose [n] elements all read as zero, through
    [operator[]] too, and whose reference counter holds 1. *)
Theorem ctor_sized_zero_initialised (st : store) (this : addr) (n : Z) :
  0 < n <= UINT_MAX ->
  sizeof T * n <= SIZE_MAX ->
  exists st' d rc,
    SharedBuffer.ctor_sized (T:=T) this n st = Ok tt st'
    /\ shared st' !! this = Some (SBuf.Obj (Some d) n (Some rc))
    /\ cells st' !! rc = Some (Some 1)
    /\ contents (T:=T) st' (Some d) n
         = Some (replicate (Z.to_nat n) (Some zero))
    /\ forall i, 0 <= i < n ->
         (lv ← SharedBuffer.subscript this i; load (T:=T) lv) st'
           = Ok (Some zero) st'.
Proof.
  intros [Hn Hmax] Hfit. pose proof (sizeof_pos (T:=T)) as Hs.
  unfold SharedBuffer.ctor_sized, new_array, new_cell, memset, write_cell,
    SharedBuffer.set_obj, mbind, M_bind, mret, M_ret.
  destruct (Z.eqb_spec n 0) as [?|_]; [lia|]. cbn [negb].
  destruct (Z.ltb_spec SIZE_MAX (sizeof T * n)) as [?|_]; [lia|].
  set (d := fresh (used st)).
  set (st1 := set_arrays _ st).
  set (rc := fresh (used st1)).
  assert (wrap64 (sizeof T * n) = sizeof T * n) as ->
    by (apply Z.mod_small; unfold SIZE_MAX in Hfit; nia).
  destruct (Z.eqb_spec (sizeof T * n) 0) as [?|_]; [nia|].
  cbn [arrays set_cells set_arrays]. subst st1. cbn [arrays set_arrays].
  rewrite lookup_insert_eq, length_replicate.
  destruct (Z.leb_spec (sizeof T * n) (Z.of_nat (Z.to_nat (sizeof T * n))))
    as [_|?]; [|lia].
  cbn [cells set_cells set_arrays]. rewrite lookup_insert_eq.
  rewrite drop_replicate, Nat.sub_diag, app_nil_r.
  eexists _, d, rc. split; [reflexivity|].
  cbn [shared set_shared set_cells set_arrays cells arrays contents].
  rewrite !lookup_insert_eq. cbn [fmap option_fmap option_map].
  rewrite elems_zeroed. repeat split.
  intros i Hi.
  unfold SharedBuffer.subscript, SharedBuffer.this_obj, assert, load,
    mbind, M_bind, mret, M_ret.
  store_simpl. rewrite lookup_insert_eq. store_simpl.
  destruct (Z.ltb_spec i n) as [_|?]; [|lia]. store_simpl.
  rewrite lookup_insert_eq, length_replicate.
  assert (0 <= (i + 1) * sizeof T <= sizeof T * n) by nia.
  assert ((0 <=? i) && ((i + 1) * sizeof T <=? Z.of_nat (Z.to_nat (sizeof T * n)))
          = true) as -> by (apply andb_true_iff; split; apply Z.leb_le; lia).
  by rewrite elem_at_zeroed.
Qed.
End SharedBufferBasics.

Section SharedBufferIndexing.
Context {T : Type} `{Pod T}.

(** [C9] [SharedBuffer::operator[]] on a buffer of size [n]: an index
    [i >= n] fails the assertion and touches nothing; an index [i < n]
    yields the lvalue [data[i]], and reading it gives the [i]-th
    element of the block. *)
Theorem subscript_bounds_checked (st : store) (this : addr) (o : SBuf.obj)
    (i : Z) :
  shared st !! this = Some o ->
  0 <= i ->
  (SBuf.m_size o <= i ->
     SharedBuffer.subscript this i st = Fail AssertionFailed st)
  /\ (i < SBuf.m_size o ->
        SharedBuffer.subscript this i st = Ok (Lvalue (SBuf.data o) i) st
        /\ forall l bs,
             SBuf.data o = Some l ->
             arrays st !! l = Some bs ->
             Z.of_nat (length bs) = sizeof T * SBuf.m_size o ->
             (lv ← SharedBuffer.subscript this i; load (T:=T) lv) st
               = Ok (elem_at bs i) st).
Proof.
  intros Ho Hi.
  unfold SharedBuffer.subscript, SharedBuffer.this_obj, assert, load.
  unfold_monad. rewrite Ho. split.
  - intros Hge. by destruct (Z.ltb_spec i (SBuf.m_size o)); [lia|].
  - intros Hlt. destruct (Z.ltb_spec i (SBuf.m_size o)); [|lia].
    split; [done|]. intros l bs Hd Hbs Hlen. store_simpl.
    rewrite Hd. store_simpl. rewrite Hbs.
    pose proof (sizeof_pos (T:=T)).
    assert (0 <= (i + 1) * sizeof T <= sizeof T * SBuf.m_size o) by nia.
    by assert ((0 <=? i) && ((i + 1) * sizeof T <=? Z.of_nat (length bs))
               = true) as ->
      by (apply andb_true_iff; split; apply Z.leb_le; lia).
Qed.
End SharedBufferIndexing.

(** ** [SharedBuffer]: shared ownership *)

Module Sharing.

(** The allocations behind a [SharedBuffer]: its counter cell and, when
    the buffer is not empty, its array. *)
Definition storage_live (st : store) (o : SBuf.obj) : Prop :=
  (exists rc, SBuf.refcount o = Some rc
              /\ is_Some (cells st !! rc) /\ times_freed st rc = 0%nat)
  /\ (forall d, SBuf.data o = Some d ->
                is_Some (arrays st !! d) /\ times_freed st d = 0%nat).

Definition storage_released (st : store) (o : SBuf.obj) : Prop :=
  (exists rc, SBuf.refcount o = Some rc
              /\ cells st !! rc = None /\ times_freed st rc = 1%nat)
  /\ (forall d, SBuf.data o = Some d ->
                arrays st !! d = None /\ times_freed st d = 1%nat).

(** The objects at the addresses [S] are the copies of one buffer: they
    hold the same members, and the counter holds their number. *)
Definition sharing (st : store) (S : gset addr) (o : SBuf.obj) : Prop :=
  (forall a, a ∈ S -> shared st !! a = Some o)
  /\ Z.of_nat (size S) <= UINT_MAX
  /\ (exists rc, SBuf.refcount o = Some rc
                 /\ cells st !! rc = Some (Some (Z.of_nat (size S)))
                 /\ (rc ∉ freed st)
                 /\ SBuf.data o <> Some rc)
  /\ (forall d, SBuf.data o = Some d ->
                is_Some (arrays st !! d) /\ d ∉ freed st).

(** The two ways the class offers to make a copy of [src] at [dst]:
    [SharedBuffer dst(src);], or [SharedBuffer dst; dst = src;]. *)
Inductive copy_how := ByConstructor | ByAssignment.

Record copy_step := CopyStep { how : copy_how; dst : addr; src : addr }.

Definition copy_to (s : copy_step) : Mem unit :=
  match how s with
  | ByConstructor => SharedBuffer.ctor_copy (dst s) (src s)
  | ByAssignment =>
      SharedBuffer.ctor_default (dst s);;
      SharedBuffer.assign (dst s) (src s)
  end.

Fixpoint copies (plan : list copy_step) : Mem unit :=
  match plan with
  | [] => mret tt
  | s :: plan' => copy_to s;; copies plan'
  end.

Fixpoint destroy_all (objs : list addr) : Mem unit :=
  match objs with
  | [] => mret tt
  | a :: objs' => SharedBuffer.dtor a;; destroy_all objs'
  end.

(** Every step copies an existing copy to an address that holds none. *)
Fixpoint plan_ok (S : gset addr) (plan : list copy_step) : Prop :=
  match plan with
  | [] => True
  | s :: plan' => src s ∈ S /\ (dst s ∉ S) /\ plan_ok (S ∪ {[dst s]}) plan'
  end.

Lemma sharing_live st S o : sharing st S o -> storage_live st o.
Proof.
  intros (_ & _ & (rc & Hrc & Hc & Hf & _) & Hd). split.
  - exists rc. rewrite Hc. eauto using times_freed_0.
  - intros d Hdd. destruct (Hd d Hdd). eauto using times_freed_0.
Qed.

Lemma live_in_use st l :
  is_Some (arrays st !! l) \/ is_Some (cells st !! l) -> l ∈ used st.
Proof.
  unfold used. intros [?%elem_of_dom|?%elem_of_dom]; set_solver.
Qed.

Lemma fresh_neq_live st l :
  is_Some (arrays st !! l) \/ is_Some (cells st !! l) ->
  l <> fresh (used st).
Proof.
  intros Hl%live_in_use ->. by apply (is_fresh (used st)).
Qed.

(** The state [drop()] leaves when it releases the storage. *)
Definition after_release (st : store) (o : SBuf.obj) (rc : loc) : store :=
  let st1 := set_cells <[rc := Some 0]> st in
  let st2 := match SBuf.data o with
             | Some d => set_freed (cons d) (set_arrays (delete d) st1)
             | None => st1
             end in
  set_freed (cons rc) (set_cells (delete rc) st2).

Lemma drop_last st this o rc :
  shared st !! this = Some o ->
  SBuf.refcount o = Some rc ->
  cells st !! rc = Some (Some 1) ->
  (forall d, SBuf.data o = Some d -> is_Some (arrays st !! d)) ->
  SharedBuffer.drop this st = Ok tt (after_release st o rc).
Proof.
  intros Ho Hrc Hc Hd.
  unfold SharedBuffer.drop, SharedBuffer.this_obj, assert, read_cell,
    write_cell, delete_array, delete_cell, after_release.
  unfold_monad. rewrite Ho, Hrc. store_simpl. rewrite Hc.
  change (0 <? 1) with true. change (wrap32 (1 - 1)) with 0.
  store_simpl. rewrite Hc. store_simpl. rewrite lookup_insert_eq.
  change (0 =? 0) with true. cbv iota.
  destruct (SBuf.data o) as [d|] eqn:Hdd; store_simpl.
  - destruct (Hd d eq_refl) as [bs ->]. store_simpl.
    by rewrite lookup_insert_eq.
  - by rewrite lookup_insert_eq.
Qed.

Lemma drop_shared st this o rc c :
  shared st !! this = Some o ->
  SBuf.refcount o = Some rc ->
  cells st !! rc = Some (Some c) ->
  1 < c <= UINT_MAX ->
  SharedBuffer.drop this st = Ok tt (set_cells <[rc := Some (c - 1)]> st).
Proof.
  intros Ho Hrc Hc Hrange.
  unfold SharedBuffer.drop, SharedBuffer.this_obj, assert, read_cell,
    write_cell.
  unfold_monad. rewrite Ho, Hrc. store_simpl. rewrite Hc.
  destruct (Z.ltb_spec 0 c) as [_|?]; [|lia].
  assert (wrap32 (c - 1) = c - 1) as ->
    by (unfold wrap32, UINT_MAX in *; rewrite Z.mod_small; lia).
  store_simpl. rewrite Hc. store_simpl. rewrite lookup_insert_eq.
  by destruct (Z.eqb_spec (c - 1) 0) as [?|_]; [lia|].
Qed.

Lemma ctor_default_spec st this :
  SharedBuffer.ctor_default this st
  = Ok tt (set_shared <[this := SBuf.Obj NULL 0 (Some (fresh (used st)))]>
             (set_cells <[fresh (used st) := Some 1]>
                (set_cells <[fresh (used st) := None]> st))).
Proof.
  unfold SharedBuffer.ctor_default, SharedBuffer.set_obj, new_cell,
    write_cell.
  unfold_monad. store_simpl. by rewrite lookup_insert_eq.
Qed.

Lemma ctor_copy_spec st this buffer o rc c :
  shared st !! buffer = Some o ->
  SBuf.refcount o = Some rc ->
  cells st !! rc = Some (Some c) ->
  SharedBuffer.ctor_copy this buffer st
  = Ok tt (set_cells <[rc := Some (wrap32 (c + 1))]>
             (set_shared <[this := o]> st)).
Proof.
  intros Ho Hrc Hc.
  unfold SharedBuffer.ctor_copy, SharedBuffer.this_obj,
    SharedBuffer.set_obj, read_cell, write_cell.
  unfold_monad. rewrite Ho, Hrc. store_simpl. rewrite Hc.
  store_simpl. rewrite Hc, <- Hrc. by destruct o.
Qed.

Lemma assign_spec st st1 this buffer o rc c :
  this <> buffer ->
  SharedBuffer.drop this st = Ok tt st1 ->
  shared st1 !! buffer = Some o ->
  SBuf.refcount o = Some rc ->
  cells st1 !! rc = Some (Some c) ->
  SharedBuffer.assign this buffer st
  = Ok tt (set_cells <[rc := Some (wrap32 (c + 1))]>
             (set_shared <[this := o]> st1)).
Proof.
  intros Hne Hdrop Ho Hrc Hc. unfold SharedBuffer.assign.
  destruct (decide (this = buffer)) as [?|_]; [done|].
  rewrite (mem_bind_Ok _ _ _ _ _ Hdrop).
  unfold SharedBuffer.this_obj, SharedBuffer.set_obj, read_cell, write_cell.
  unfold_monad. rewrite Ho, Hrc. store_simpl. rewrite Hc.
  store_simpl. rewrite Hc, <- Hrc. by destruct o.
Qed.

(** One more copy: the counter goes up by one. *)
Lemma copy_to_sharing st S o s :
  sharing st S o ->
  src s ∈ S -> dst s ∉ S ->
  Z.of_nat (size S) < UINT_MAX ->
  exists st', copy_to s st = Ok tt st'
              /\ sharing st' (S ∪ {[dst s]}) o.
Proof.
  intros (Hobj & Hmax & (rc & Hrc & Hc & Hf & Hne) & Hd) Hsrc Hdst Hlt.
  assert (size (S ∪ {[dst s]}) = Datatypes.S (size S)) as Hsize.
  { rewrite size_union, size_singleton by (by apply disjoint_singleton_r).
    lia. }
  assert (wrap32 (Z.of_nat (size S) + 1) = Z.of_nat (Datatypes.S (size S)))
    as Hwrap.
  { unfold wrap32, UINT_MAX in *. rewrite Z.mod_small; lia. }
  assert (dst s <> src s) as Hsd by (intros E; by rewrite E in Hdst).
  assert (forall a, a ∈ S -> dst s <> a) as Hfresh
    by (intros a Ha E; by rewrite E in Hdst).
  unfold copy_to. destruct (how s).
  - (* the copy constructor *)
    rewrite (ctor_copy_spec _ _ _ _ _ _ (Hobj _ Hsrc) Hrc Hc), Hwrap.
    eexists; split; [reflexivity|].
    split_and!; store_simpl; [|lia| |done].
    + intros a [Ha| ->%elem_of_singleton]%elem_of_union.
      * rewrite lookup_insert_ne by auto. auto.
      * by rewrite lookup_insert_eq.
    + exists rc. by rewrite lookup_insert_eq, Hsize.
  - (* a default-constructed object, then assigned *)
    set (rc' := fresh (used st)).
    assert (rc <> rc') as Hrc'.
    { apply fresh_neq_live. right. by rewrite Hc. }
    erewrite mem_bind_Ok by apply ctor_default_spec. fold rc'.
    erewrite assign_spec; [|done| | | |].
    2:{ apply drop_last with (o := SBuf.Obj NULL 0 (Some rc')) (rc := rc');
        store_simpl; [by rewrite lookup_insert_eq|done
                     |by rewrite lookup_insert_eq|done]. }
    2:{ unfold after_release. store_simpl.
        rewrite lookup_insert_ne by done. by apply Hobj. }
    2:{ exact Hrc. }
    2:{ unfold after_release. store_simpl.
        rewrite lookup_delete_ne, !lookup_insert_ne by done. exact Hc. }
    rewrite Hwrap. eexists; split; [reflexivity|].
    unfold after_release.
    split_and!; store_simpl; [|lia| |].
    + intros a [Ha| ->%elem_of_singleton]%elem_of_union.
      * rewrite !lookup_insert_ne by auto. auto.
      * by rewrite lookup_insert_eq.
    + exists rc. rewrite lookup_insert_eq, Hsize. split_and!; [done..| |done].
      by apply not_elem_of_cons.
    + intros d Hdd. destruct (Hd d Hdd) as [Hl Hnf]. split; [done|].
      apply not_elem_of_cons. split; [|done].
      apply fresh_neq_live. by left.
Qed.

(** One copy fewer, while others remain: the counter goes down by one
    and nothing is released. *)
Lemma dtor_sharing st S o a :
  sharing st S o ->
  a ∈ S -> (1 < size S)%nat ->
  exists st', SharedBuffer.dtor a st = Ok tt st'
              /\ sharing st' (S ∖ {[a]}) o.
Proof.
  intros (Hobj & Hmax & (rc & Hrc & Hc & Hf & Hne) & Hd) Ha Hsz.
  assert (size (S ∖ {[a]}) = (size S - 1)%nat) as Hsize.
  { rewrite size_difference, size_singleton; [done|].
    by apply singleton_subseteq_l. }
  unfold SharedBuffer.dtor.
  erewrite mem_bind_Ok
    by (eapply drop_shared; [by apply Hobj|done..|lia]).
  unfold SharedBuffer.end_obj. eexists; split; [reflexivity|].
  split_and!; store_simpl; [|lia| |done].
  - intros b [Hb Hba%not_elem_of_singleton]%elem_of_difference.
    rewrite lookup_delete_ne by done. auto.
  - exists rc. rewrite lookup_insert_eq, Hsize. split_and!; [done| |done..].
    do 2 f_equal. lia.
Qed.

(** The last copy goes: the storage is released, each allocation once. *)
Lemma dtor_last st o a :
  sharing st {[a]} o ->
  exists st', SharedBuffer.dtor a st = Ok tt st'
              /\ storage_released st' o.
Proof.
  intros (Hobj & Hmax & (rc & Hrc & Hc & Hf & Hne) & Hd).
  rewrite size_singleton in Hc.
  unfold SharedBuffer.dtor.
  erewrite mem_bind_Ok.
  2:{ eapply drop_last; [apply Hobj; by apply elem_of_singleton|done..|].
      intros d Hdd. by destruct (Hd d Hdd). }
  unfold SharedBuffer.end_obj, after_release.
  eexists; split; [reflexivity|]. split.
  - exists rc. split; [done|]. store_simpl. rewrite lookup_delete_eq.
    split; [done|]. unfold times_freed. store_simpl.
    rewrite filter_cons_True by done.
    destruct (SBuf.data o) as [d|] eqn:Hdd; store_simpl.
    + rewrite filter_cons_False by congruence. cbn. f_equal.
      by apply (times_freed_0 st).
    + cbn. f_equal. by apply (times_freed_0 st).
  - intros d Hdd. rewrite Hdd. store_simpl.
    destruct (Hd d Hdd) as [_ Hnf].
    rewrite lookup_delete_eq. split; [done|].
    unfold times_freed. store_simpl.
    rewrite filter_cons_False by congruence.
    rewrite filter_cons_True by done. cbn. f_equal.
    by apply (times_freed_0 st).
Qed.

Lemma sharing_proper st S S' o : S = S' -> sharing st S o -> sharing st S' o.
Proof. by intros ->. Qed.

Lemma copies_sharing plan : forall st S o,
  sharing st S o ->
  plan_ok S plan ->
  Z.of_nat (size S + length plan) <= UINT_MAX ->
  exists st', copies plan st = Ok tt st'
              /\ sharing st' (S ∪ list_to_set (dst <$> plan)) o.
Proof.
  induction plan as [|s plan IH]; intros st S o Hsh Hplan Hmax.
  - exists st. split; [done|]. cbn.
    by rewrite (right_id_L ∅ (∪)).
  - destruct Hplan as (Hsrc & Hdst & Hplan). cbn [length] in Hmax.
    destruct (copy_to_sharing st S o s Hsh Hsrc Hdst) as (st1 & Hrun & Hsh1);
      [lia|].
    assert (size (S ∪ {[dst s]}) = Datatypes.S (size S)) as Hsize.
    { rewrite size_union, size_singleton by (by apply disjoint_singleton_r).
      lia. }
    destruct (IH st1 _ o Hsh1 Hplan) as (st2 & Hrun2 & Hsh2); [lia|].
    exists st2. split.
    + cbn [copies]. by rewrite (mem_bind_Ok _ _ _ _ _ Hrun).
    + eapply sharing_proper; [|exact Hsh2].
      cbn [fmap list_fmap list_to_set]. by rewrite (assoc_L (∪)).
Qed.

Lemma plan_ok_fresh plan : forall S,
  plan_ok S plan ->
  NoDup (dst <$> plan) /\ forall a, a ∈ dst <$> plan -> a ∉ S.
Proof.
  induction plan as [|s plan IH]; intros S Hplan; cbn.
  - split; [constructor|]. by intros a ?%elem_of_nil.
  - destruct Hplan as (_ & Hdst & Hplan).
    destruct (IH _ Hplan) as [Hnd Hout]. split.
    + constructor; [|done]. intros Hin. apply (Hout _ Hin).
      apply elem_of_union_r. by apply elem_of_singleton.
    + intros a [->|Hin]%elem_of_cons; [done|].
      intros Ha. apply (Hout _ Hin). by apply elem_of_union_l.
Qed.

Lemma destroy_sharing objs : forall st S o,
  sharing st S o ->
  NoDup objs ->
  (forall a, a ∈ objs -> a ∈ S) ->
  (length objs < size S)%nat ->
  exists st', destroy_all objs st = Ok tt st'
              /\ sharing st' (S ∖ list_to_set objs) o.
Proof.
  induction objs as [|a objs IH]; intros st S o Hsh Hnd Hin Hlen.
  - exists st. split; [done|]. cbn.
    eapply sharing_proper; [|exact Hsh]. by rewrite difference_empty_L.
  - apply NoDup_cons in Hnd as [Ha Hnd]. cbn [length] in Hlen.
    assert (a ∈ S) as HaS by (apply Hin; left).
    destruct (dtor_sharing st S o a Hsh HaS) as (st1 & Hrun & Hsh1); [lia|].
    assert (size (S ∖ {[a]}) = (size S - 1)%nat) as Hsize.
    { rewrite size_difference, size_singleton; [done|].
      by apply singleton_subseteq_l. }
    destruct (IH st1 _ o Hsh1 Hnd) as (st2 & Hrun2 & Hsh2).
    { intros b Hb. apply elem_of_difference. split; [apply Hin; by right|].
      apply not_elem_of_singleton. by intros ->. }
    { lia. }
    exists st2. split.
    + cbn [destroy_all]. by rewrite (mem_bind_Ok _ _ _ _ _ Hrun).
    + eapply sharing_proper; [|exact Hsh2].
      cbn [list_to_set]. by rewrite difference_difference_l_L.
Qed.

Lemma destroy_all_snoc objs a st st1 :
  destroy_all objs st = Ok tt st1 ->
  destroy_all (objs ++ [a]) st = SharedBuffer.dtor a st1.
Proof.
  revert st. induction objs as [|b objs IH]; intros st; cbn.
  - intros [= ->]. unfold mbind, M_bind.
    by destruct (SharedBuffer.dtor a st1) as [[]|].
  - unfold mbind, M_bind in *.
    destruct (SharedBuffer.dtor b st) as [[] st'|]; [|done]. apply IH.
Qed.

(** Each constructor leaves its object as the only copy. *)
Lemma ctor_default_sharing st this :
  exists st' o, SharedBuffer.ctor_default this st = Ok tt st'
                /\ shared st' !! this = Some o
                /\ sharing st' {[this]} o.
Proof.
  rewrite ctor_default_spec. eexists _, _. split; [reflexivity|].
  store_simpl. rewrite lookup_insert_eq. split; [done|].
  split_and!; store_simpl.
  - intros a ->%elem_of_singleton. by rewrite lookup_insert_eq.
  - by rewrite size_singleton.
  - eexists. rewrite lookup_insert_eq, size_singleton.
    split_and!; [done..|apply fresh_not_freed|done].
  - done.
Qed.

(** [C3] Make copies of one [SharedBuffer] in any of the two ways, each
    from any copy made so far, [M] objects in all ([M >= 1], and no more
    than the counter can count), and destroy the [M] objects in any
    order.  Every destructor returns; as long as one object is left the
    storage is live and was never released; once the last one is gone
    the counter cell and the array are released, each exactly once. *)
Theorem shared_storage_freed_exactly_once (st : store) (a0 : addr)
    (o : SBuf.obj) (plan : list copy_step) (order : list addr) :
  sharing st {[a0]} o ->
  plan_ok {[a0]} plan ->
  Z.of_nat (length order) <= UINT_MAX ->
  order ≡ₚ a0 :: (dst <$> plan) ->
  exists st1,
    copies plan st = Ok tt st1
    /\ (forall k, (k < length order)%nat ->
           exists st2, destroy_all (take k order) st1 = Ok tt st2
                       /\ storage_live st2 o)
    /\ (exists st3, destroy_all order st1 = Ok tt st3
                    /\ storage_released st3 o).
Proof.
  intros Hsh Hplan Hmax Hperm.
  assert (length order = Datatypes.S (length plan)) as Hlen
    by (by rewrite Hperm; cbn; rewrite length_fmap).
  destruct (plan_ok_fresh _ _ Hplan) as [Hnd Hout].
  assert (NoDup order) as Hndo.
  { rewrite Hperm. constructor; [|done].
    intros Hin. apply (Hout _ Hin). by apply elem_of_singleton. }
  destruct (copies_sharing plan st _ o Hsh Hplan) as (st1 & Hrun & Hsh1).
  { rewrite size_singleton. lia. }
  apply (sharing_proper _ _ (list_to_set order)) in Hsh1;
    [|by rewrite Hperm].
  assert (size (list_to_set (C:=gset addr) order) = length order) as Hsize
    by (by apply size_list_to_set).
  exists st1. split; [done|]. split.
  - intros k Hk.
    destruct (destroy_sharing (take k order) st1 _ o Hsh1)
      as (st2 & Hrun2 & Hsh2).
    + eapply sublist_NoDup; [done|apply sublist_take].
    + intros a (i & Hi & _)%elem_of_take.
      apply elem_of_list_to_set. by eapply list_elem_of_lookup_2.
    + rewrite length_take. lia.
    + exists st2. split; [done|]. by eapply sharing_live.
  - destruct order as [|x order' _] using rev_ind; [done|].
    rewrite length_app in *. cbn [length] in *.
    apply NoDup_app in Hndo as (Hnd' & Hdisj & _).
    destruct (destroy_sharing order' st1 _ o Hsh1 Hnd')
      as (st2 & Hrun2 & Hsh2).
    + intros a Ha. apply elem_of_list_to_set, elem_of_app. by left.
    + lia.
    + rewrite (destroy_all_snoc _ _ _ _ Hrun2). apply dtor_last.
      eapply sharing_proper; [|exact Hsh2].
      apply set_eq. intros a.
      rewrite elem_of_difference, !elem_of_list_to_set, elem_of_app,
        elem_of_singleton, list_elem_of_singleton.
      split.
      * by intros [[?| ->] ?].
      * intros ->. split; [by right|]. intros Hx. apply (Hdisj _ Hx).
        by apply list_elem_of_singleton.
Qed.

(** Three objects: the original, a copy made by the copy constructor
    and a copy of that copy made by assignment. *)
Lemma shared_storage_freed_exactly_once_witness :
  let o := SBuf.Obj (Some 2%positive) 2 (Some 1%positive) in
  let st := Store {[2%positive := [Some "000"%byte; Some "001"%byte]]}
                  {[1%positive := Some 1]} [] ∅ {[10%positive := o]} in
  let plan := [CopyStep ByConstructor 11%positive 10%positive;
               CopyStep ByAssignment 12%positive 11%positive] in
  let order := [11; 10; 12]%positive in
  sharing st {[10%positive]} o
  /\ plan_ok {[10%positive]} plan
  /\ Z.of_nat (length order) <= UINT_MAX
  /\ order ≡ₚ 10%positive :: (dst <$> plan)
  /\ exists st1,
       copies plan st = Ok tt st1
       /\ (forall k, (k < length order)%nat ->
              exists st2, destroy_all (take k order) st1 = Ok tt st2
                          /\ storage_live st2 o)
       /\ (exists st3, destroy_all order st1 = Ok tt st3
                       /\ storage_released st3 o).
Proof.
  intros o st plan order.
  assert (sharing st {[10%positive]} o) as H1.
  { split_and!.
    - intros a ->%elem_of_singleton. reflexivity.
    - rewrite size_singleton. vm_compute. discriminate.
    - exists 1%positive. rewrite size_singleton.
      split_and!; [reflexivity|reflexivity|apply not_elem_of_nil|discriminate].
    - intros d [= <-]. split; [by eexists|apply not_elem_of_nil]. }
  assert (plan_ok {[10%positive]} plan) as H2
    by (cbn; split_and!; try done; set_solver).
  assert (Z.of_nat (length order) <= UINT_MAX) as H3
    by (vm_compute; discriminate).
  assert (order ≡ₚ 10%positive :: (dst <$> plan)) as H4
    by (subst order plan; cbn; apply Permutation_swap).
  split; [exact H1|]. split; [exact H2|]. split; [exact H3|].
  split; [exact H4|].
  exact (shared_storage_freed_exactly_once st 10%positive o plan order
           H1 H2 H3 H4).
Defined.
End Sharing.

(** ** [Buffer]: value semantics *)

Module Owning.
Section Owning.
Context {T : Type} `{Pod T}.

(** A [Buffer<T>] as its constructors and [resize] leave it: empty with
    a null pointer, or with a block of exactly [m_size] elements. *)
Definition owns (st : store) (o : Buf.obj) : Prop :=
  0 <= Buf.m_size o
  /\ sizeof T * Buf.m_size o <= SIZE_MAX
  /\ match Buf.data o with
     | None => Buf.m_size o = 0
     | Some l =>
         Buf.m_size o <> 0
         /\ exists bs, arrays st !! l = Some bs
                       /\ Z.of_nat (length bs) = sizeof T * Buf.m_size o
     end.

(** What a copy [c] of the buffer [b] has to be for the original to be
    safe from it: the original is as it was in [st], and the copy has
    the same size and a block of its own. *)
Definition private_copy (st : store) (b : addr) (ob : Buf.obj)
    (c : addr) (st1 : store) : Prop :=
  buffers st1 !! b = Some ob
  /\ (forall lb, Buf.data ob = Some lb -> arrays st1 !! lb = arrays st !! lb)
  /\ exists oc,
       buffers st1 !! c = Some oc
       /\ Buf.m_size oc = Buf.m_size ob
       /\ (Buf.m_size ob <> 0 ->
             exists lc bs,
               Buf.data oc = Some lc
               /\ Buf.data ob <> Some lc
               /\ arrays st1 !! lc = Some bs
               /\ Z.of_nat (length bs) = sizeof T * Buf.m_size ob).

(** [c[i] = v] and what it leaves of the original. *)
Definition unaffected_by_mutation (st : store) (b : addr) (ob : Buf.obj)
    (c : addr) (st1 : store) : Prop :=
  Buffer.getSize c st1 = Ok (Buf.m_size ob) st1 /\
  forall (i : Z) (v : T),
    0 <= i < Buf.m_size ob ->
    exists st2,
      (lv ← Buffer.subscript c i; store_elem lv v) st1 = Ok tt st2
      /\ (lv ← Buffer.subscript c i; load (T:=T) lv) st2 = Ok (Some v) st2
      /\ buffers st2 !! b = Some ob
      /\ contents (T:=T) st2 (Buf.data ob) (Buf.m_size ob)
         = contents (T:=T) st (Buf.data ob) (Buf.m_size ob).

Lemma elem_at_stored (bs : list mbyte) (i : Z) (v : T) :
  0 <= i -> (i + 1) * sizeof T <= Z.of_nat (length bs) ->
  elem_at (take (Z.to_nat (i * sizeof T)) bs
             ++ (Some <$> encode v)
             ++ drop (Z.to_nat ((i + 1) * sizeof T)) bs) i = Some v.
Proof.
  intros Hi Hlen. pose proof (sizeof_pos (T:=T)).
  pose proof (encode_length v) as Hv.
  apply elem_at_encoded; [done|].
  assert (0 <= i * sizeof T) by nia.
  rewrite drop_app_length' by (rewrite length_take; lia).
  rewrite take_app_length' by (rewrite length_fmap; lia). done.
Qed.

Lemma private_copy_unaffected st b ob c st1 :
  private_copy st b ob c st1 -> unaffected_by_mutation st b ob c st1.
Proof.
  intros (Hb & Hsame & oc & Hc & Hsz & Hblock). split.
  { unfold Buffer.getSize, Buffer.this_obj. unfold_monad.
    by rewrite Hc, Hsz. }
  intros i v Hi.
  destruct Hblock as (lc & bs & Hlc & Hne & Hbs & Hlen); [lia|].
  pose proof (sizeof_pos (T:=T)).
  assert (0 <= (i + 1) * sizeof T <= sizeof T * Buf.m_size ob) by nia.
  assert ((0 <=? i) && ((i + 1) * sizeof T <=? Z.of_nat (length bs)) = true)
    as Hin by (apply andb_true_iff; split; apply Z.leb_le; lia).
  unfold Buffer.subscript, Buffer.this_obj, store_elem, load.
  unfold_monad. eexists. split.
  { rewrite Hc. store_simpl. rewrite Hlc. store_simpl.
    rewrite Hbs, Hin. reflexivity. }
  store_simpl. rewrite Hc. store_simpl. rewrite Hlc. store_simpl.
  rewrite lookup_insert_eq.
  assert (Z.of_nat (length (take (Z.to_nat (i * sizeof T)) bs
             ++ (Some <$> encode v)
             ++ drop (Z.to_nat ((i + 1) * sizeof T)) bs))
          = Z.of_nat (length bs)) as ->.
  { rewrite !length_app, length_take, length_drop, length_fmap.
    pose proof (encode_length v). nia. }
  rewrite Hin, elem_at_stored by lia.
  split_and!; [done..|].
  unfold contents. destruct (Buf.data ob) as [lb|] eqn:Hlb; [|done].
  store_simpl. rewrite lookup_insert_ne by congruence.
  by rewrite Hsame.
Qed.

Lemma wrap64_fits (n : Z) :
  0 <= n -> sizeof T * n <= SIZE_MAX -> wrap64 (sizeof T * n) = sizeof T * n.
Proof.
  intros Hn Hfit. pose proof (sizeof_pos (T:=T)).
  unfold wrap64, SIZE_MAX in *. apply Z.mod_small. nia.
Qed.

(** [Buffer(const Buffer &)] makes a private copy. *)
Lemma ctor_copy_private st b ob c :
  buffers st !! b = Some ob ->
  owns st ob ->
  c <> b ->
  exists st1, Buffer.ctor_copy (T:=T) c b st = Ok tt st1
              /\ private_copy st b ob c st1.
Proof.
  intros Hb (Hnn & Hfit & Hblock) Hcb. pose proof (sizeof_pos (T:=T)).
  unfold Buffer.ctor_copy, Buffer.ctor_raw, Buffer.this_obj, Buffer.set_obj,
    new_array, memcpy.
  unfold_monad. rewrite Hb.
  destruct (Z.eqb_spec (Buf.m_size ob) 0) as [Hz|Hnz].
  - eexists. split; [reflexivity|]. split_and!; store_simpl.
    + by rewrite lookup_insert_ne.
    + done.
    + eexists. rewrite lookup_insert_eq. by split_and!.
  - destruct (Buf.data ob) as [lb|] eqn:Hlb; [|done].
    destruct Hblock as (_ & bs & Hbs & Hlen).
    destruct (Z.ltb_spec SIZE_MAX (sizeof T * Buf.m_size ob)); [lia|].
    rewrite wrap64_fits by done.
    destruct (Z.eqb_spec (sizeof T * Buf.m_size ob) 0); [nia|].
    set (d := fresh (used st)).
    assert (lb <> d) as Hd
      by (apply Sharing.fresh_neq_live; left; by rewrite Hbs).
    store_simpl. rewrite lookup_insert_eq, lookup_insert_ne, Hbs by done.
    rewrite length_replicate, Hlen.
    assert (0 <= sizeof T * Buf.m_size ob) by nia.
    assert ((sizeof T * Buf.m_size ob
               <=? Z.of_nat (Z.to_nat (sizeof T * Buf.m_size ob)))
            && (sizeof T * Buf.m_size ob <=? sizeof T * Buf.m_size ob) = true)
      as -> by (apply andb_true_iff; split; apply Z.leb_le; lia).
    eexists. split; [reflexivity|]. split_and!; store_simpl.
    + by rewrite lookup_insert_ne.
    + intros ? ?. simplify_eq. by rewrite !lookup_insert_ne.
    + eexists. rewrite lookup_insert_eq. split_and!; [done..|].
      intros _. eexists d, _. rewrite lookup_insert_eq.
      split_and!; [done|congruence|done|].
      rewrite length_app, length_take, length_drop, length_replicate. lia.
Qed.

(** [resize]: afterwards the buffer has the new size and a block of that
    size, its old one or a new one; no other block is touched. *)
Lemma resize_spec st c oc size :
  buffers st !! c = Some oc ->
  owns st oc ->
  0 <= size -> sizeof T * size <= SIZE_MAX ->
  exists st1 oc',
    Buffer.resize (T:=T) c size st = Ok tt st1
    /\ buffers st1 = <[c := oc']> (buffers st)
    /\ Buf.m_size oc' = size
    /\ owns st1 oc'
    /\ (forall l, Buf.data oc <> Some l -> is_Some (arrays st !! l) ->
                  arrays st1 !! l = arrays st !! l)
    /\ (forall l, Buf.data oc' = Some l ->
                  Buf.data oc = Some l \/ arrays st !! l = None).
Proof.
  intros Hc (Hnn & Hfit & Hblock) Hsize Hsfit.
  pose proof (sizeof_pos (T:=T)).
  unfold Buffer.resize, Buffer.drop, Buffer.this_obj, Buffer.set_obj,
    new_array, delete_array.
  unfold_monad. rewrite Hc.
  destruct (Z.eqb_spec size (Buf.m_size oc)) as [->|Hne].
  { exists st, oc. split_and!; [done|by rewrite insert_id|done|done|done|].
    intros l ?. by left. }
  destruct (Z.ltb_spec SIZE_MAX (sizeof T * size)); [lia|].
  destruct (Z.eqb_spec (Buf.m_size oc) 0) as [Hz|Hnz]; store_simpl.
  - (* nothing to release *)
    destruct (Buf.data oc) as [lc|] eqn:Hlc; [by destruct Hblock|].
    destruct (Z.eqb_spec size 0) as [?|Hsz]; [lia|]. store_simpl.
    rewrite Hc. store_simpl. rewrite !lookup_insert_eq. store_simpl.
    eexists _, _. split; [reflexivity|]. store_simpl.
    split_and!; store_simpl.
    + by rewrite !insert_insert_eq.
    + done.
    + split_and!; [done..|]. split; [done|]. eexists. store_simpl.
      rewrite lookup_insert_eq. split; [done|].
      rewrite length_replicate. nia.
    + intros l _ Hl. rewrite lookup_insert_ne; [done|].
      apply not_eq_sym, Sharing.fresh_neq_live. by left.
    + intros l [= <-]. right. apply fresh_not_array.
  - (* the old block goes *)
    destruct (Buf.data oc) as [lc|] eqn:Hlc; [|done].
    destruct Hblock as (_ & bs & Hbs & Hlen).
    rewrite Hc. store_simpl. rewrite Hlc. store_simpl.
    rewrite Hbs. store_simpl.
    set (st' := set_buffers _ _).
    assert (arrays st' = delete lc (arrays st)) as Harr by done.
    assert (buffers st' !! c = Some (Buf.Obj None (Buf.m_size oc))) as Hc'
      by (subst st'; store_simpl; by rewrite lookup_insert_eq).
    assert (buffers st'
            = <[c := Buf.Obj None (Buf.m_size oc)]> (buffers st)) as Hbuf
      by done.
    assert (forall l, l <> lc -> is_Some (arrays st !! l) ->
                      l <> fresh (used st')) as Hfr.
    { intros l Hl Hlive. apply Sharing.fresh_neq_live. left.
      by rewrite Harr, lookup_delete_ne. }
    assert (lc <> fresh (used st')) as Hfr'.
    { intros Heq. apply (is_fresh (used st')). rewrite <- Heq.
      unfold used. apply elem_of_union_r, elem_of_list_to_set.
      subst st'. store_simpl. left. }
    clearbody st'.
    destruct (Z.eqb_spec size 0) as [Hsz|Hsz]; store_simpl.
    + rewrite Hc'. store_simpl.
      eexists _, _. split; [reflexivity|]. store_simpl.
      split_and!; store_simpl.
      * by rewrite Hbuf, insert_insert_eq.
      * done.
      * unfold owns. store_simpl. by split_and!; [lia..|].
      * intros l Hl _. rewrite Harr, lookup_delete_ne; [done|congruence].
      * done.
    + rewrite Hc'. store_simpl. rewrite !lookup_insert_eq. store_simpl.
      eexists _, _. split; [reflexivity|]. store_simpl.
      split_and!; store_simpl.
      * by rewrite Hbuf, !insert_insert_eq.
      * done.
      * split_and!; [done..|]. split; [done|]. eexists. store_simpl.
        rewrite lookup_insert_eq. split; [done|].
        rewrite length_replicate. nia.
      * intros l Hl Hlive.
        rewrite lookup_insert_ne, Harr, lookup_delete_ne;
          [done|congruence|].
        apply not_eq_sym, Hfr; [congruence|done].
      * intros l [= <-]. right.
        pose proof (fresh_not_array st') as Hf.
        by rewrite Harr, lookup_delete_ne in Hf.
Qed.

(** [operator=] makes a private copy too, in the block the target had
    or in a new one. *)
Lemma assign_private st b ob c oc :
  buffers st !! b = Some ob ->
  owns st ob ->
  c <> b ->
  buffers st !! c = Some oc ->
  owns st oc ->
  (forall l, Buf.data oc = Some l -> Buf.data ob <> Some l) ->
  exists st1, Buffer.assign (T:=T) c b st = Ok tt st1
              /\ private_copy st b ob c st1.
Proof.
  intros Hb Hob Hcb Hc Hoc Hdisj. pose proof (sizeof_pos (T:=T)).
  destruct Hob as (Hnn & Hfit & Hblock).
  destruct (resize_spec st c oc (Buf.m_size ob) Hc Hoc Hnn Hfit)
    as (st1 & oc' & Hrun & Hbuf & Hsz & Hoc' & Hkeep & Hnew).
  assert (buffers st1 !! b = Some ob) as Hb1
    by (by rewrite Hbuf, lookup_insert_ne).
  assert (buffers st1 !! c = Some oc') as Hc1
    by (by rewrite Hbuf, lookup_insert_eq).
  unfold Buffer.assign. destruct (decide (c <> b)) as [_|?]; [|done].
  assert (Buffer.this_obj b st = Ok ob st) as Hthis
    by (unfold Buffer.this_obj; by rewrite Hb).
  rewrite (mem_bind_Ok _ _ _ _ _ Hthis), (mem_bind_Ok _ _ _ _ _ Hrun).
  unfold Buffer.this_obj, memcpy. unfold_monad. rewrite Hc1.
  destruct (Z.eqb_spec (Buf.m_size ob) 0) as [Hz|Hnz].
  - exists st1. split; [done|]. split_and!; [done| |].
    + intros lb Hlb. rewrite Hlb in Hblock. by destruct Hblock.
    + exists oc'. by split_and!.
  - destruct (Buf.data ob) as [lb|] eqn:Hlb; [|done].
    destruct Hblock as (_ & bsb & Hbsb & Hlenb).
    destruct Hoc' as (_ & _ & Hblock'). rewrite Hsz in Hblock'.
    destruct (Buf.data oc') as [lc|] eqn:Hlc; [|done].
    destruct Hblock' as (_ & bsc & Hbsc & Hlenc).
    assert (lc <> lb) as Hne.
    { intros ->. destruct (Hnew lb eq_refl) as [Hold|Hdead].
      - by apply (Hdisj lb).
      - by rewrite Hbsb in Hdead. }
    assert (arrays st1 !! lb = Some bsb) as Hbsb1.
    { rewrite Hkeep; [done| |by rewrite Hbsb].
      intros Hold. by apply (Hdisj lb). }
    rewrite Hbsc, Hbsb1, Hlenb, Hlenc.
    assert ((Buf.m_size ob <=? sizeof T * Buf.m_size ob)
            && (Buf.m_size ob <=? sizeof T * Buf.m_size ob) = true) as ->
      by (apply andb_true_iff; split; apply Z.leb_le; nia).
    eexists. split; [reflexivity|]. split_and!; store_simpl.
    + done.
    + intros ? ?. simplify_eq. rewrite lookup_insert_ne by done.
      by rewrite Hbsb1.
    + exists oc'. split_and!; [done..|]. intros _.
      eexists lc, _. rewrite lookup_insert_eq.
      split_and!; [done|congruence|done|].
      rewrite length_app, length_take, length_drop. nia.
Qed.

(** [C8] Copy a [Buffer] [b] to [c], by the copy constructor or by
    assignment to an existing buffer, and then assign to any element of
    the copy: the copy has the size of [b], the assignment takes effect
    in the copy, and [b] and every element of [b] are as before the
    copy was made. *)
Theorem buffer_copy_then_mutate_leaves_original (st : store) (b : addr)
    (ob : Buf.obj) :
  buffers st !! b = Some ob ->
  owns st ob ->
  (forall c, c <> b ->
     exists st1, Buffer.ctor_copy (T:=T) c b st = Ok tt st1
                 /\ unaffected_by_mutation st b ob c st1)
  /\ (forall c oc,
        c <> b ->
        buffers st !! c = Some oc ->
        owns st oc ->
        (forall l, Buf.data oc = Some l -> Buf.data ob <> Some l) ->
        exists st1, Buffer.assign (T:=T) c b st = Ok tt st1
                    /\ unaffected_by_mutation st b ob c st1).
Proof.
  intros Hb Hob. split.
  - intros c Hcb.
    destruct (ctor_copy_private st b ob c Hb Hob Hcb) as (st1 & Hrun & Hp).
    eauto using private_copy_unaffected.
  - intros c oc Hcb Hc Hoc Hdisj.
    destruct (assign_private st b ob c oc Hb Hob Hcb Hc Hoc Hdisj)
      as (st1 & Hrun & Hp).
    eauto using private_copy_unaffected.
Qed.
End Owning.
End Owning.

(** ** From [Buffer] to [SharedBuffer] *)

Section Conversion.
Context {T : Type} `{Pod T}.

(** For an element type of one byte, [SharedBuffer(const Buffer<T> &)]
    is the deep copy its comment promises: same size, same elements, in
    a block of its own (the byte count handed to [memcpy] is then the
    size of the array). *)
Lemma ctor_Buffer_one_byte_elements (st : store) (this b : addr)
    (ob : Buf.obj) :
  sizeof T = 1 ->
  buffers st !! b = Some ob ->
  Owning.owns (T:=T) st ob ->
  Buf.m_size ob <= UINT_MAX ->
  exists st' o,
    SharedBuffer.ctor_Buffer (T:=T) this b st = Ok tt st'
    /\ shared st' !! this = Some o
    /\ SBuf.m_size o = Buf.m_size ob
    /\ (forall l, SBuf.data o = Some l -> Buf.data ob <> Some l)
    /\ contents (T:=T) st' (SBuf.data o) (SBuf.m_size o)
       = contents (T:=T) st (Buf.data ob) (Buf.m_size ob).
Proof.
  intros Hone Hb (Hnn & Hfit & Hblock) Hmax.
  unfold SharedBuffer.ctor_Buffer, Buffer.getSize, Buffer.deref,
    Buffer.this_obj, SharedBuffer.set_obj, new_array, new_cell, write_cell,
    memcpy.
  unfold_monad. rewrite Hb.
  assert (wrap32 (Buf.m_size ob) = Buf.m_size ob) as ->
    by (unfold wrap32, UINT_MAX in *; apply Z.mod_small; lia).
  rewrite Hone, Z.mul_1_l in *.
  destruct (Z.eqb_spec (Buf.m_size ob) 0) as [Hz|Hnz]; store_simpl.
  - rewrite lookup_insert_eq. eexists _, _. split; [reflexivity|].
    store_simpl. rewrite lookup_insert_eq. split_and!; [done..|].
    destruct (Buf.data ob) as [lb|]; [by destruct Hblock|].
    by rewrite Hz.
  - destruct (Buf.data ob) as [lb|] eqn:Hlb; [|done].
    destruct Hblock as (_ & bs & Hbs & Hlen).
    destruct (Z.ltb_spec SIZE_MAX (Buf.m_size ob)); [lia|].
    repeat (progress (store_simpl; rewrite ?Hb, ?Hlb)).
    set (d := fresh (used st)).
    assert (lb <> d) as Hd
      by (apply Sharing.fresh_neq_live; left; by rewrite Hbs).
    rewrite lookup_insert_eq, lookup_insert_ne, Hbs by done.
    rewrite length_replicate, Hlen.
    assert ((Buf.m_size ob <=? Z.of_nat (Z.to_nat (Buf.m_size ob)))
            && (Buf.m_size ob <=? Buf.m_size ob) = true) as ->
      by (apply andb_true_iff; split; apply Z.leb_le; lia).
    destruct (Z.eqb_spec (Buf.m_size ob) 0) as [?|_]; [lia|].
    store_simpl. rewrite lookup_insert_eq.
    eexists _, _. split; [reflexivity|].
    store_simpl. rewrite lookup_insert_eq. split_and!; [done|done| |].
    + intros l Hl Heq. cbn in Hl. apply Hd. congruence.
    + unfold contents. store_simpl. rewrite lookup_insert_eq, Hbs. cbn.
      do 2 f_equal.
      rewrite take_ge, drop_replicate by lia.
      replace (Z.to_nat (Buf.m_size ob) - Z.to_nat (Buf.m_size ob))%nat
        with 0%nat by lia.
      apply app_nil_r.
Qed.
End Conversion.

(** ** Concrete buffers *)

Module Examples.

(** A store holding one [Buffer<u8>] at address 5 with the two bytes
    [01 02], and one [SharedBuffer<u8>] at address 7 with the three bytes
    [0a 0b 0c]. *)
Definition st0 : store :=
  Store {[1%positive := [Some "001"; Some "002"]%byte;
          2%positive := [Some "010"; Some "011"; Some "012"]%byte]}
        {[3%positive := Some 1]}
        []
        {[5%positive := Buf.Obj (Some 1%positive) 2]}
        {[7%positive := SBuf.Obj (Some 2%positive) 3 (Some 3%positive)]}.

(** A two-byte element type, [struct { u8 lo; u8 hi; }]. *)
Definition u8x2 : Type := byte * byte.

(** A raw array of two such elements. *)
Definition raw0 : store :=
  Store {[1%positive := [Some "001"; Some "002"; Some "003"; Some "004"]%byte]}
        ∅ [] ∅ ∅.

Lemma ctor_sized_zero_initialised_witness :
  0 < 3 <= UINT_MAX
  /\ sizeof byte * 3 <= SIZE_MAX
  /\ exists st' d rc,
       SharedBuffer.ctor_sized (T:=byte) 9%positive 3 st0 = Ok tt st'
       /\ shared st' !! 9%positive = Some (SBuf.Obj (Some d) 3 (Some rc))
       /\ cells st' !! rc = Some (Some 1)
       /\ contents (T:=byte) st' (Some d) 3
            = Some (replicate (Z.to_nat 3) (Some zero))
       /\ forall i, 0 <= i < 3 ->
            (lv ← SharedBuffer.subscript 9%positive i; load (T:=byte) lv) st'
              = Ok (Some zero) st'.
Proof.
  assert (0 < 3 <= UINT_MAX) as H1 by (by vm_compute).
  assert (sizeof byte * 3 <= SIZE_MAX) as H2 by (by vm_compute).
  split; [exact H1|]. split; [exact H2|].
  exact (ctor_sized_zero_initialised (T:=byte) st0 9%positive 3 H1 H2).
Defined.

Lemma subscript_bounds_checked_witness :
  let o := SBuf.Obj (Some 2%positive) 3 (Some 3%positive) in
  shared st0 !! 7%positive = Some o
  /\ 0 <= 1
  /\ (SBuf.m_size o <= 1 ->
        SharedBuffer.subscript 7%positive 1 st0 = Fail AssertionFailed st0)
  /\ (1 < SBuf.m_size o ->
        SharedBuffer.subscript 7%positive 1 st0
          = Ok (Lvalue (SBuf.data o) 1) st0
        /\ forall l bs,
             SBuf.data o = Some l ->
             arrays st0 !! l = Some bs ->
             Z.of_nat (length bs) = sizeof byte * SBuf.m_size o ->
             (lv ← SharedBuffer.subscript 7%positive 1; load (T:=byte) lv) st0
               = Ok (elem_at bs 1) st0).
Proof.
  intros o.
  assert (shared st0 !! 7%positive = Some o) as H1 by reflexivity.
  assert (0 <= 1) as H2 by lia.
  split; [exact H1|]. split; [exact H2|].
  exact (subscript_bounds_checked (T:=byte) st0 7%positive o 1 H1 H2).
Defined.

Lemma buffer_copy_then_mutate_leaves_original_witness :
  let ob := Buf.Obj (Some 1%positive) 2 in
  buffers st0 !! 5%positive = Some ob
  /\ Owning.owns (T:=byte) st0 ob
  /\ (forall c, c <> 5%positive ->
        exists st1, Buffer.ctor_copy (T:=byte) c 5%positive st0 = Ok tt st1
                    /\ Owning.unaffected_by_mutation (T:=byte)
                         st0 5%positive ob c st1)
  /\ (forall c oc,
        c <> 5%positive ->
        buffers st0 !! c = Some oc ->
        Owning.owns (T:=byte) st0 oc ->
        (forall l, Buf.data oc = Some l -> Buf.data ob <> Some l) ->
        exists st1, Buffer.assign (T:=byte) c 5%positive st0 = Ok tt st1
                    /\ Owning.unaffected_by_mutation (T:=byte)
                         st0 5%positive ob c st1).
Proof.
  intros ob.
  assert (buffers st0 !! 5%positive = Some ob) as H1 by reflexivity.
  assert (Owning.owns (T:=byte) st0 ob) as H2.
  { split; [by vm_compute|]. split; [by vm_compute|].
    split; [done|]. by exists [Some "001"; Some "002"]%byte. }
  split; [exact H1|]. split; [exact H2|].
  exact (Owning.buffer_copy_then_mutate_leaves_original (T:=byte)
           st0 5%positive ob H1 H2).
Defined.

(** What the two copying constructors of [SharedBuffer] leave in the new
    object, as [n] elements. *)
Definition shared_contents {T} `{Pod T} (this : addr) :
    Mem (option (list (option T))) :=
  o ← SharedBuffer.this_obj this;
  st ← get_state;
  mret (contents (T:=T) st (SBuf.data o) (SBuf.m_size o)).

Definition buffer_contents {T} `{Pod T} (this : addr) :
    Mem (option (list (option T))) :=
  o ← Buffer.this_obj this;
  st ← get_state;
  mret (contents (T:=T) st (Buf.data o) (Buf.m_size o)).

(** [C4] The conversion from [Buffer<T>] and the constructor from a raw
    array copy [m_size] bytes, not [m_size] elements.  With a two-byte
    element type and two elements, the source holds [(01,02); (03,04)];
    the [SharedBuffer] made from it has size 2, its first element is
    [(01,02)] and its second element was never written. *)
Theorem shared_from_buffer_copies_bytes_not_elements :
  returned ((Buffer.ctor_raw (T:=u8x2) 10%positive (Some 1%positive) 2;;
           SharedBuffer.ctor_Buffer (T:=u8x2) 20%positive 10%positive;;
           src ← buffer_contents (T:=u8x2) 10%positive;
           n ← SharedBuffer.getSize 20%positive;
           new ← shared_contents (T:=u8x2) 20%positive;
           mret (src, n, new)) raw0)
  = Some (Some [Some ("001", "002"); Some ("003", "004")]%byte,
          2,
          Some [Some ("001", "002")%byte; None])
  /\ returned ((SharedBuffer.ctor_raw (T:=u8x2) 20%positive (Some 1%positive) 2;;
              shared_contents (T:=u8x2) 20%positive) raw0)
     = Some (Some [Some ("001", "002")%byte; None]).
Proof. split; vm_compute; reflexivity. Qed.

(** With a one-byte element type the same conversions copy everything. *)
Example shared_from_buffer_u8 :
  returned ((Buffer.ctor_raw (T:=byte) 10%positive (Some 1%positive) 4;;
           SharedBuffer.ctor_Buffer (T:=byte) 20%positive 10%positive;;
           shared_contents (T:=byte) 20%positive) raw0)
  = Some (Some [Some "001"; Some "002"; Some "003"; Some "004"]%byte).
Proof. vm_compute. reflexivity. Qed.
End Examples.

(** ** The conversions agree with each other *)

Section Conversions.

Lemma to_int32_small (v : Z) : INT_MIN <= v <= INT_MAX -> to_int32 v = v.
Proof.
  unfold to_int32, INT_MIN, INT_MAX. intros Hv.
  rewrite Z.mod_small; lia.
Qed.

Lemma to_s16_small (v : Z) : s16_range v -> to_s16 v = v.
Proof.
  unfold to_s16, s16_range. intros Hv. rewrite Z.mod_small; lia.
Qed.

Lemma s16_is_int (v : Z) : s16_range v -> INT_MIN <= v <= INT_MAX.
Proof. unfold s16_range, INT_MIN, INT_MAX. lia. Qed.

Lemma string_take_all (s : string) : string_take (String.length s) s = s.
Proof. induction s as [|c s IH]; cbn; [done|]. by rewrite IH. Qed.

(** Decimal digits and the sign are not the zero character. *)
Lemma c_str_uint (d : Decimal.uint) :
  c_str (NilEmpty.string_of_uint d) = NilEmpty.string_of_uint d.
Proof. induction d; cbn; [done|by rewrite IHd..]. Qed.

Lemma c_str_itos (v : Z) : c_str (itos v) = itos v.
Proof.
  unfold itos, NilZero.string_of_int, NilZero.string_of_uint.
  destruct (Z.to_int v) as [d|d]; destruct d; cbn; try done;
    by rewrite c_str_uint.
Qed.

Lemma to_int_parses (v : Z) :
  NilZero.int_of_string (NilZero.string_of_int (Z.to_int v))
  = Some (Z.to_int v).
Proof.
  apply NilZero.isi; destruct v as [|p|p]; cbn; try done;
    intros [= Hp]; by apply DecimalPos.Unsigned.to_uint_nonnil in Hp.
Qed.

(** What [itos] writes, the engine reads back as the same integer. *)
Lemma int4in_itos (v : Z) : INT_MIN <= v <= INT_MAX -> int4in (itos v) = Some v.
Proof.
  intros Hv. unfold int4in, itos. rewrite to_int_parses, DecimalZ.of_to.
  by assert ((INT_MIN <=? v) && (v <=? INT_MAX) = true) as ->
    by (apply andb_true_iff; split; apply Z.leb_le; lia).
Qed.

(** What the engine writes for an integer, [atoi] reads back. *)
Lemma atoi_int4out (v : Z) : INT_MIN <= v <= INT_MAX -> atoi (int4out v) = v.
Proof.
  intros Hv. unfold atoi, int4out.
  by rewrite to_int_parses, DecimalZ.of_to, to_int32_small.
Qed.

Lemma key_params_BIND_POS (pos : v3s16) (rest : list string) :
  valid_pos pos ->
  key_params (Database_PostgreSQL.BIND_POS pos ++ rest)
  = Some (vX pos, vY pos, vZ pos).
Proof.
  intros (Hx & Hy & Hz). cbn.
  by rewrite !int4in_itos by (by apply s16_is_int).
Qed.

Lemma key_is_row_pos (pos : v3s16) (r : row) :
  key_is (vX pos) (vY pos) (vZ pos) r = true <-> row_pos r = pos.
Proof.
  unfold key_is, row_pos. destruct pos as [x y z]. cbn.
  rewrite !andb_true_iff, !Z.eqb_eq. split.
  - by intros [[-> ->] ->].
  - by intros [= -> -> ->].
Qed.
End Conversions.

(** ** What the operations do to the relation *)

Module Backend.
Import Database_PostgreSQL.

Definition prepared_all (p : gmap string sql) : Prop :=
  p !! "begin" = Some SQL_begin
  /\ p !! "end" = Some SQL_commit
  /\ p !! "load" = Some SQL_load
  /\ p !! "save" = Some SQL_save
  /\ p !! "delete" = Some SQL_delete
  /\ p !! "list" = Some SQL_list.

(** The backend [db] has its session open, as its constructor leaves
    it, and the relation holds [rows]. *)
Definition session (w : world) (db : t) (rows : list row) : Prop :=
  (exists p, conns w !! conn db = Some (Conn CONNECTION_OK p)
             /\ prepared_all p)
  /\ blocks w = Some rows.

Abbreviation at_pos pos :=
  (fun r : row => key_is (vX pos) (vY pos) (vZ pos) r = true).

(** The payload the relation holds for a key. *)
Definition stored (rows : list row) (pos : v3s16) : option string :=
  col_data <$> head (filter (at_pos pos) rows).

(** The relation after the save statement. *)
Definition upsert (pos : v3s16) (d : string) (rows : list row) : list row :=
  let '(updated, returned) := sql_update (vX pos) (vY pos) (vZ pos) d rows in
  match returned with
  | [] => updated ++ [Row (vX pos) (vY pos) (vZ pos) d]
  | _ :: _ => updated
  end.

(** The relation after the delete statement. *)
Definition without (pos : v3s16) (rows : list row) : list row :=
  filter (fun r => key_is (vX pos) (vY pos) (vZ pos) r <> true) rows.

(** The primary key: no two rows with the same coordinates. *)
Definition pk_ok (rows : list row) : Prop := NoDup (row_pos <$> rows).

Lemma db_bind_Ok {A B} (m : DB A) (f : A -> DB B) w a w' :
  m w = Ok a w' -> (m ≫= f) w = f a w'.
Proof. unfold mbind, M_bind. by intros ->. Qed.

Lemma session_set_blocks w db rows rows' :
  session w db rows -> session (set_blocks (Some rows') w) db rows'.
Proof. by intros [Hc _]. Qed.

Lemma exec_prepared w db rows p name q n values lengths formats fmt :
  conns w !! conn db = Some (Conn CONNECTION_OK p) ->
  blocks w = Some rows ->
  p !! name = Some q ->
  PQexecPrepared (conn db) name n values lengths formats fmt w
  = let '(r, b) := run_sql q (imap (send_param lengths formats)
                                   (take n values)) fmt (Some rows) in
    Ok (Some r) (set_blocks b w).
Proof.
  intros Hc Hb Hq. unfold PQexecPrepared, usable.
  rewrite Hc. cbn. by rewrite Hq, Hb.
Qed.

Lemma update_keeps_keys x y z d rows :
  row_pos <$> (sql_update x y z d rows).1 = row_pos <$> rows.
Proof.
  cbn. rewrite <- list_fmap_compose. apply list_fmap_ext.
  intros i r _. cbn. by destruct (key_is x y z r).
Qed.

Lemma not_stored_not_key pos rows :
  filter (at_pos pos) rows = [] -> pos ∉ row_pos <$> rows.
Proof.
  intros Hnone (r & -> & Hr)%list_elem_of_fmap.
  assert (r ∈ filter (at_pos (row_pos r)) rows) as Hin
    by (apply list_elem_of_filter; split; [by apply key_is_row_pos|done]).
  rewrite Hnone in Hin. by apply elem_of_nil in Hin.
Qed.

(** The parameters as the engine receives them. *)
Lemma sent_key_params pos :
  imap (send_param None None) (take 3 (BIND_POS pos)) = BIND_POS pos.
Proof. cbn -[itos c_str]. unfold send_param. cbn -[itos c_str].
       by rewrite !c_str_itos. Qed.

Lemma sent_save_params pos data :
  Z.of_nat (String.length data) <= INT_MAX ->
  imap (send_param
          (Some [0; 0; 0; to_int32 (Z.of_nat (String.length data))])
          (Some [0; 0; 0; 1]))
       (take 4 (BIND_POS pos ++ [data]))
  = BIND_POS pos ++ [data].
Proof.
  intros Hlen. cbn -[itos c_str to_int32]. unfold send_param.
  cbn -[itos c_str to_int32].
  rewrite !c_str_itos, to_int32_small
    by (unfold INT_MIN; unfold INT_MAX in *; lia).
  by rewrite Nat2Z.id, string_take_all.
Qed.

Lemma run_save pos data rows fmt :
  valid_pos pos ->
  run_sql SQL_save (BIND_POS pos ++ [data]) fmt (Some rows)
  = (command_ok, Some (upsert pos data rows)).
Proof.
  intros Hpos. unfold run_sql.
  rewrite (key_params_BIND_POS pos [data]) by done.
  change ((BIND_POS pos ++ [data]) !! 3%nat) with (Some data).
  unfold upsert.
  destruct (sql_update (vX pos) (vY pos) (vZ pos) data rows)
    as [updated returned] eqn:Hup.
  destruct returned as [|r returned]; [|done].
  unfold sql_insert. rewrite decide_False; [done|].
  replace updated
    with (sql_update (vX pos) (vY pos) (vZ pos) data rows).1
    by (by rewrite Hup).
  rewrite update_keeps_keys. apply not_stored_not_key.
  apply (f_equal snd) in Hup. cbn in Hup.
  by apply fmap_nil_inv in Hup.
Qed.

Lemma run_load pos rows fmt :
  valid_pos pos ->
  run_sql SQL_load (BIND_POS pos) fmt (Some rows)
  = (tuples_ok fmt ((fun r => [DBytea (col_data r)])
                      <$> filter (at_pos pos) rows),
     Some rows).
Proof.
  intros Hpos. unfold run_sql.
  rewrite <- (app_nil_r (BIND_POS pos)).
  by rewrite (key_params_BIND_POS pos []).
Qed.

Lemma run_delete pos rows fmt :
  valid_pos pos ->
  run_sql SQL_delete (BIND_POS pos) fmt (Some rows)
  = (command_ok, Some (without pos rows)).
Proof.
  intros Hpos. unfold run_sql.
  rewrite <- (app_nil_r (BIND_POS pos)).
  by rewrite (key_params_BIND_POS pos []).
Qed.

(** [saveBlock] returns, and leaves the relation upserted. *)
Lemma saveBlock_spec w db rows pos data :
  session w db rows ->
  valid_pos pos ->
  Z.of_nat (String.length data) <= INT_MAX ->
  saveBlock db pos data w
  = Ok true (set_blocks (Some (upsert pos data rows)) w).
Proof.
  intros [(p & Hc & Hp) Hb] Hpos Hlen.
  destruct Hp as (_ & _ & _ & Hsave & _).
  unfold saveBlock, PG_OK_FREE, PG_RES_FREE, PG_RES, PQclear.
  unfold mbind, M_bind, mret, M_ret.
  rewrite (exec_prepared w db rows p "save" SQL_save _ _ _ _ _ Hc Hb Hsave).
  by rewrite sent_save_params, run_save.
Qed.

(** [deleteBlock] returns, and leaves no row for the key. *)
Lemma deleteBlock_spec w db rows pos :
  session w db rows ->
  valid_pos pos ->
  deleteBlock db pos w = Ok true (set_blocks (Some (without pos rows)) w).
Proof.
  intros [(p & Hc & Hp) Hb] Hpos.
  destruct Hp as (_ & _ & _ & _ & Hdel & _).
  unfold deleteBlock, PG_OK_FREE, PG_RES_FREE, PG_RES, PQclear.
  unfold mbind, M_bind, mret, M_ret.
  rewrite (exec_prepared w db rows p "delete" SQL_delete _ _ _ _ _ Hc Hb Hdel).
  by rewrite sent_key_params, run_delete.
Qed.

Lemma set_blocks_same w rows : blocks w = Some rows -> set_blocks (Some rows) w = w.
Proof. destruct w. cbn. by intros ->. Qed.

(** [loadBlock] returns the payload of the row for the key, and the
    empty string when there is none. *)
Lemma loadBlock_spec w db rows pos :
  session w db rows ->
  valid_pos pos ->
  loadBlock db pos w = Ok (default EmptyString (stored rows pos)) w.
Proof.
  intros [(p & Hc & Hp) Hb] Hpos.
  destruct Hp as (_ & _ & Hload & _).
  unfold loadBlock, PG_RES_NOFREE, PG_RES, PQclear.
  unfold mbind, M_bind, mret, M_ret.
  rewrite (exec_prepared w db rows p "load" SQL_load _ _ _ _ _ Hc Hb Hload).
  rewrite sent_key_params, run_load by done.
  rewrite set_blocks_same by done.
  unfold tuples_ok, PQresultStatus. cbn [res_status].
  destruct (decide (PGRES_TUPLES_OK <> PGRES_TUPLES_OK)) as [?|_]; [done|].
  unfold stored, PQntuples, PQgetlength, PQgetvalue.
  cbn [res_tuples res_format].
  destruct (filter (at_pos pos) rows) as [|r rs]; [done|].
  cbn. by rewrite Nat2Z.id, string_take_all.
Qed.

Lemma run_list rows fmt params :
  run_sql SQL_list params fmt (Some rows)
  = (tuples_ok fmt ((fun r => [DInt (col_x r); DInt (col_y r); DInt (col_z r)])
                      <$> rows),
     Some rows).
Proof. done. Qed.

(** The rows hold coordinates a [v3s16] can hold. *)
Definition keys_valid (rows : list row) : Prop :=
  Forall (fun r => valid_pos (row_pos r)) rows.

(** The loop of [listAllLoadableBlocks], up to row [n]. *)
Lemma list_loop rows dst n :
  keys_valid rows ->
  (n <= length rows)%nat ->
  let res := tuples_ok 0 ((fun r => [DInt (col_x r); DInt (col_y r);
                                     DInt (col_z r)]) <$> rows) in
  foldl (fun dst i =>
           let pos := V3 (to_s16 (atoi (PQgetvalue res i 0)))
                         (to_s16 (atoi (PQgetvalue res i 1)))
                         (to_s16 (atoi (PQgetvalue res i 2))) in
           dst ++ [pos])
        dst (Z.of_nat <$> seq 0 n)
  = dst ++ (row_pos <$> take n rows).
Proof.
  intros Hvalid Hn res. induction n as [|n IH].
  - cbn. by rewrite app_nil_r.
  - rewrite seq_S, fmap_app, foldl_app, IH by lia. cbn [fmap list_fmap foldl].
    destruct (lookup_lt_is_Some_2 rows n) as [r Hr]; [lia|].
    rewrite (take_S_r _ _ _ Hr), fmap_app, app_assoc. f_equal.
    unfold PQgetvalue, res. cbn [res_tuples res_format tuples_ok].
    change (0 + n)%nat with n.
    rewrite Nat2Z.id, list_lookup_fmap, Hr.
    change (Z.to_nat 0) with 0%nat. change (Z.to_nat 1) with 1%nat.
    change (Z.to_nat 2) with 2%nat. cbn -[to_s16 atoi int4out].
    destruct (Forall_lookup_1 _ _ _ _ Hvalid Hr) as (Hx & Hy & Hz).
    cbn in Hx, Hy, Hz.
    rewrite !atoi_int4out, !to_s16_small by (by try apply s16_is_int).
    done.
Qed.

(** [listAllLoadableBlocks] appends the coordinates of every row. *)
Lemma listAllLoadableBlocks_spec w db rows dst :
  session w db rows ->
  keys_valid rows ->
  listAllLoadableBlocks db dst w = Ok (dst ++ (row_pos <$> rows)) w.
Proof.
  intros [(p & Hc & Hp) Hb] Hvalid.
  destruct Hp as (_ & _ & _ & _ & _ & Hlist).
  unfold listAllLoadableBlocks, PG_RES_NOFREE, PG_RES, PQclear.
  unfold mbind, M_bind, mret, M_ret.
  rewrite (exec_prepared w db rows p "list" SQL_list _ _ _ _ _ Hc Hb Hlist).
  rewrite run_list, set_blocks_same by done.
  unfold PQresultStatus. cbn [res_status tuples_ok].
  destruct (decide (PGRES_TUPLES_OK <> PGRES_TUPLES_OK)) as [?|_]; [done|].
  unfold PQntuples.
  change (res_tuples (tuples_ok 0 ?ts)) with ts.
  rewrite Nat2Z.id, length_fmap.
  pose proof (list_loop rows dst (length rows) Hvalid (le_n _)) as Hloop.
  cbv zeta in Hloop. rewrite Hloop. by rewrite firstn_all.
Qed.

(** *** The relation as a list *)

Lemma filter_updated pos d rows :
  filter (at_pos pos) (sql_update (vX pos) (vY pos) (vZ pos) d rows).1
  = (sql_update (vX pos) (vY pos) (vZ pos) d rows).2.
Proof.
  cbn. induction rows as [|r rows IH]; [done|].
  cbn [fmap list_fmap]. rewrite !filter_cons.
  destruct (key_is (vX pos) (vY pos) (vZ pos) r) eqn:Hk.
  - rewrite !decide_True by done. cbn. by rewrite <- IH.
  - rewrite decide_False by (by rewrite Hk).
    rewrite decide_False by done. done.
Qed.

Lemma stored_upsert pos d rows : stored (upsert pos d rows) pos = Some d.
Proof.
  unfold stored, upsert.
  pose proof (filter_updated pos d rows) as Hf.
  destruct (sql_update (vX pos) (vY pos) (vZ pos) d rows)
    as [updated returned] eqn:Hup.
  cbn [fst snd] in Hf. destruct returned as [|r returned].
  - rewrite filter_app, Hf, filter_cons_True; [done|].
    unfold key_is. cbn. by rewrite !Z.eqb_refl.
  - rewrite Hf. apply (f_equal snd) in Hup. cbn in Hup.
    destruct (filter _ rows) as [|r0 rs]; cbn in Hup; [done|].
    by injection Hup as <- _.
Qed.

Lemma stored_without pos rows : stored (without pos rows) pos = None.
Proof.
  unfold stored, without. induction rows as [|r rows IH]; [done|].
  rewrite filter_cons.
  destruct (key_is (vX pos) (vY pos) (vZ pos) r) eqn:Hk.
  - by rewrite decide_False by (by intros []).
  - rewrite decide_True by done.
    by rewrite filter_cons_False by (by rewrite Hk).
Qed.

Lemma keys_upsert pos d rows :
  row_pos <$> upsert pos d rows
  = if decide (pos ∈ row_pos <$> rows) then row_pos <$> rows
    else (row_pos <$> rows) ++ [pos].
Proof.
  unfold upsert.
  pose proof (update_keeps_keys (vX pos) (vY pos) (vZ pos) d rows) as Hk.
  destruct (sql_update (vX pos) (vY pos) (vZ pos) d rows)
    as [updated returned] eqn:Hup.
  cbn [fst] in Hk. apply (f_equal snd) in Hup. cbn in Hup.
  destruct returned as [|r returned].
  - apply fmap_nil_inv in Hup. apply not_stored_not_key in Hup.
    rewrite decide_False by done. rewrite fmap_app, Hk. by destruct pos.
  - rewrite decide_True; [done|].
    destruct (filter (at_pos pos) rows) as [|r' rs] eqn:Hf; [done|].
    assert (r' ∈ filter (at_pos pos) rows) as Hin by (rewrite Hf; left).
    apply list_elem_of_filter in Hin as [Hr' Hin].
    apply list_elem_of_fmap. exists r'. split; [|done].
    symmetry. by apply key_is_row_pos.
Qed.

Lemma pk_ok_upsert pos d rows : pk_ok rows -> pk_ok (upsert pos d rows).
Proof.
  unfold pk_ok. rewrite keys_upsert. case_decide; [done|].
  intros Hnd. apply NoDup_app. split_and!; [done| |apply NoDup_singleton].
  intros k Hk ->%list_elem_of_singleton. done.
Qed.

Lemma keys_valid_alt rows :
  keys_valid rows <-> Forall valid_pos (row_pos <$> rows).
Proof. unfold keys_valid. by rewrite Forall_fmap. Qed.

Lemma keys_valid_upsert pos d rows :
  valid_pos pos -> keys_valid rows -> keys_valid (upsert pos d rows).
Proof.
  rewrite !keys_valid_alt, keys_upsert. intros Hpos Hrows.
  case_decide; [done|]. apply Forall_app. split; [done|].
  by apply Forall_singleton.
Qed.

Lemma filter_none {A} (P : A -> Prop) `{forall x, Decision (P x)} (l : list A) :
  (forall x, x ∈ l -> ~ P x) -> filter P l = [].
Proof.
  induction l as [|x l IH]; intros Hl; [done|].
  rewrite filter_cons_False by (apply Hl; left).
  apply IH. intros y Hy. apply Hl. by right.
Qed.

Lemma count_in_NoDup (k : v3s16) (l : list v3s16) :
  NoDup l -> k ∈ l -> length (filter (eq k) l) = 1%nat.
Proof.
  induction 1 as [|x l Hx Hnd IH]; [by intros ?%elem_of_nil|].
  intros [->|Hin]%elem_of_cons.
  - rewrite filter_cons_True by done. cbn. f_equal.
    apply length_zero_iff_nil, filter_none. by intros y Hy <-.
  - rewrite filter_cons_False by (by intros <-). auto.
Qed.

Lemma key_of_stored pos d rows :
  stored rows pos = Some d -> pos ∈ row_pos <$> rows.
Proof.
  unfold stored. intros Hs.
  destruct (filter (at_pos pos) rows) as [|r rs] eqn:Hf; [done|].
  assert (r ∈ filter (at_pos pos) rows) as Hin by (rewrite Hf; left).
  apply list_elem_of_filter in Hin as [Hr Hin].
  apply list_elem_of_fmap. exists r. split; [|done].
  symmetry. by apply key_is_row_pos.
Qed.

(** With the primary key, a key has at most one row. *)
Lemma one_row_per_key pos rows :
  pk_ok rows -> pos ∈ row_pos <$> rows ->
  length (filter (at_pos pos) rows) = 1%nat.
Proof.
  unfold pk_ok. induction rows as [|r rows IH]; cbn [fmap list_fmap].
  - by intros _ ?%elem_of_nil.
  - intros [Hr Hnd]%NoDup_cons Hin. rewrite filter_cons.
    destruct (decide (at_pos pos r)) as [Hk|Hk].
    + cbn. f_equal. apply length_zero_iff_nil, filter_none.
      intros r' Hr' Hk'.
      apply key_is_row_pos in Hk, Hk'. apply Hr.
      apply list_elem_of_fmap. exists r'. by rewrite Hk, Hk'.
    + apply elem_of_cons in Hin as [->|Hin]; [|auto].
      exfalso. apply Hk. by apply key_is_row_pos.
Qed.

(** [C2] On an open session, [saveBlock(pos, data)] followed by
    [loadBlock(pos)] returns, and returns exactly [data], whatever
    characters it holds, the zero character included.  The payload is
    sent with its length as an [int], so it has to be one an [int] can
    express. *)
Theorem save_then_load_round_trip (w : world) (db : t) (rows : list row)
    (pos : v3s16) (data : string) :
  session w db rows ->
  valid_pos pos ->
  Z.of_nat (String.length data) <= INT_MAX ->
  (saveBlock db pos data;; loadBlock db pos) w
  = Ok data (set_blocks (Some (upsert pos data rows)) w).
Proof.
  intros Hs Hpos Hlen.
  rewrite (db_bind_Ok _ _ _ _ _ (saveBlock_spec _ _ _ _ _ Hs Hpos Hlen)).
  rewrite (loadBlock_spec _ db (upsert pos data rows) pos)
    by (by eauto using session_set_blocks).
  by rewrite stored_upsert.
Qed.

(** [C6] [saveBlock] twice for one key, then [loadBlock] and
    [listAllLoadableBlocks]: the payload read is the second one, the
    relation has exactly one row for the key and still no two rows with
    the same key, and the key is listed exactly once. *)
Theorem save_is_upsert_last_write_wins (w : world) (db : t)
    (rows : list row) (pos : v3s16) (d1 d2 : string) :
  session w db rows ->
  pk_ok rows ->
  keys_valid rows ->
  valid_pos pos ->
  Z.of_nat (String.length d1) <= INT_MAX ->
  Z.of_nat (String.length d2) <= INT_MAX ->
  exists w' rows' keys,
    (saveBlock db pos d1;;
     saveBlock db pos d2;;
     r ← loadBlock db pos;
     l ← listAllLoadableBlocks db [];
     mret (r, l)) w = Ok (d2, keys) w'
    /\ blocks w' = Some rows'
    /\ pk_ok rows'
    /\ length (filter (at_pos pos) rows') = 1%nat
    /\ NoDup keys
    /\ length (filter (eq pos) keys) = 1%nat.
Proof.
  intros Hs Hpk Hvalid Hpos Hlen1 Hlen2.
  set (rows1 := upsert pos d1 rows). set (rows2 := upsert pos d2 rows1).
  assert (pk_ok rows2) as Hpk2 by (by do 2 apply pk_ok_upsert).
  assert (keys_valid rows2) as Hvalid2
    by (apply keys_valid_upsert; [done|]; by apply keys_valid_upsert).
  assert (pos ∈ row_pos <$> rows2) as Hin
    by (eapply key_of_stored, stored_upsert).
  exists (set_blocks (Some rows2) (set_blocks (Some rows1) w)), rows2,
    (row_pos <$> rows2).
  split_and!; [|done|done|by apply one_row_per_key|done
               |by apply count_in_NoDup].
  rewrite (db_bind_Ok _ _ _ _ _ (saveBlock_spec _ _ _ _ _ Hs Hpos Hlen1)).
  assert (session (set_blocks (Some rows1) w) db rows1) as Hs1
    by (by eapply session_set_blocks).
  rewrite (db_bind_Ok _ _ _ _ _ (saveBlock_spec _ _ _ _ _ Hs1 Hpos Hlen2)).
  assert (session (set_blocks (Some rows2) (set_blocks (Some rows1) w))
                  db rows2) as Hs2
    by (by eapply session_set_blocks).
  rewrite (db_bind_Ok _ _ _ _ _ (loadBlock_spec _ _ _ _ Hs2 Hpos)).
  rewrite (db_bind_Ok _ _ _ _ _
             (listAllLoadableBlocks_spec _ _ _ [] Hs2 Hvalid2)).
  unfold rows2. by rewrite stored_upsert.
Qed.

Lemma pk_ok_without pos rows : pk_ok rows -> pk_ok (without pos rows).
Proof.
  unfold pk_ok, without. intros Hnd.
  eapply sublist_NoDup; [exact Hnd|]. apply fmap_sublist, sublist_filter.
Qed.

Lemma keys_valid_without pos rows :
  keys_valid rows -> keys_valid (without pos rows).
Proof.
  unfold keys_valid, without. intros Hv. apply Forall_forall.
  intros r [_ Hr]%list_elem_of_filter.
  by eapply Forall_forall in Hv.
Qed.

(** *** Many saves, then the listing *)

Fixpoint save_all (db : t) (kvs : list (v3s16 * string)) : DB unit :=
  match kvs with
  | [] => mret tt
  | kd :: kvs' => saveBlock db kd.1 kd.2;; save_all db kvs'
  end.

Definition upsert_all (rows : list row) (kvs : list (v3s16 * string))
    : list row :=
  foldl (fun rows kd => upsert kd.1 kd.2 rows) rows kvs.

(** A block the backend can be given: coordinates of a [v3s16], and a
    payload whose length an [int] can express. *)
Definition storable (kd : v3s16 * string) : Prop :=
  valid_pos kd.1 /\ Z.of_nat (String.length kd.2) <= INT_MAX.

Lemma save_all_spec kvs : forall w db rows,
  session w db rows ->
  Forall storable kvs ->
  save_all db kvs w = Ok tt (set_blocks (Some (upsert_all rows kvs)) w).
Proof.
  induction kvs as [|kd kvs IH]; intros w db rows Hs Hok.
  - cbn. by rewrite set_blocks_same by apply Hs.
  - apply Forall_cons in Hok as [[Hpos Hlen] Hok]. cbn [save_all].
    rewrite (db_bind_Ok _ _ _ _ _ (saveBlock_spec _ _ _ _ _ Hs Hpos Hlen)).
    by rewrite (IH _ db (upsert kd.1 kd.2 rows))
      by (by eauto using session_set_blocks).
Qed.

Lemma keys_upsert_all kvs : forall rows,
  NoDup kvs.*1 ->
  (forall k, k ∈ kvs.*1 -> k ∉ row_pos <$> rows) ->
  row_pos <$> upsert_all rows kvs = (row_pos <$> rows) ++ kvs.*1.
Proof.
  induction kvs as [|kd kvs IH]; intros rows Hnd Hnew.
  - cbn. by rewrite app_nil_r.
  - rewrite fmap_cons in Hnd, Hnew. apply NoDup_cons in Hnd as [Hkd Hnd].
    assert (row_pos <$> upsert kd.1 kd.2 rows = (row_pos <$> rows) ++ [kd.1])
      as Hk.
    { rewrite keys_upsert, decide_False; [done|]. apply Hnew. left. }
    change (upsert_all rows (kd :: kvs))
      with (upsert_all (upsert kd.1 kd.2 rows) kvs).
    rewrite (IH (upsert kd.1 kd.2 rows) Hnd).
    + rewrite Hk, fmap_cons. by rewrite <- app_assoc.
    + intros k Hin. rewrite Hk.
      intros [Hold| ->%list_elem_of_singleton]%elem_of_app; [|done].
      eapply Hnew; [|done]. by right.
Qed.

(** [C7] On an open session with an empty relation, save blocks under
    pairwise distinct keys and list: the call returns the saved keys,
    each exactly once, in some order.  And whatever the relation holds,
    as long as it respects its primary key, no key is listed twice. *)
Theorem listing_is_complete_and_duplicate_free (w : world) (db : t)
    (kvs : list (v3s16 * string)) :
  session w db [] ->
  NoDup kvs.*1 ->
  Forall storable kvs ->
  (exists w' keys,
     (save_all db kvs;; listAllLoadableBlocks db []) w = Ok keys w'
     /\ keys ≡ₚ kvs.*1
     /\ NoDup keys
     /\ length keys = length kvs)
  /\ (forall w1 rows1,
        session w1 db rows1 -> pk_ok rows1 -> keys_valid rows1 ->
        exists keys, listAllLoadableBlocks db [] w1 = Ok keys w1
                     /\ NoDup keys).
Proof.
  intros Hs Hnd Hok. split.
  - assert (row_pos <$> upsert_all [] kvs = kvs.*1) as Hkeys
      by (rewrite keys_upsert_all; [done|done|by intros k _ ?%elem_of_nil]).
    assert (keys_valid (upsert_all [] kvs)) as Hvalid.
    { apply keys_valid_alt. rewrite Hkeys. apply Forall_fmap.
      eapply Forall_impl; [exact Hok|]. by intros kd [? _]. }
    exists (set_blocks (Some (upsert_all [] kvs)) w), kvs.*1.
    rewrite (db_bind_Ok _ _ _ _ _ (save_all_spec _ _ _ _ Hs Hok)).
    rewrite (listAllLoadableBlocks_spec _ db (upsert_all [] kvs) [])
      by (by eauto using session_set_blocks).
    rewrite Hkeys. by rewrite length_fmap.
  - intros w1 rows1 Hs1 Hpk Hvalid. exists (row_pos <$> rows1).
    by rewrite (listAllLoadableBlocks_spec _ _ _ [] Hs1 Hvalid).
Qed.

(** *** What [loadBlock] says about a key without a row *)

(** The claim that a missing row can be told from a row with an empty
    payload by what [loadBlock] returns. *)
Definition absent_is_distinguishable : Prop :=
  forall (db : t) (pos : v3s16) (w1 w2 : world) (rows1 rows2 : list row),
    session w1 db rows1 -> session w2 db rows2 -> valid_pos pos ->
    stored rows1 pos = None ->
    stored rows2 pos = Some EmptyString ->
    returned (loadBlock db pos w1) <> returned (loadBlock db pos w2).

(** [C1], as amended: [loadBlock] returns the payload of the row, every
    character of it, when the key has one, and the empty string when it
    has none; after [saveBlock] and [deleteBlock] of a key, it returns
    the empty string. *)
Theorem load_returns_payload_or_empty (w : world) (db : t)
    (rows : list row) (pos : v3s16) :
  session w db rows ->
  valid_pos pos ->
  (forall d, stored rows pos = Some d -> loadBlock db pos w = Ok d w)
  /\ (stored rows pos = None -> loadBlock db pos w = Ok EmptyString w)
  /\ (forall d, Z.of_nat (String.length d) <= INT_MAX ->
        exists w',
          (saveBlock db pos d;; deleteBlock db pos;; loadBlock db pos) w
          = Ok EmptyString w'
          /\ exists rows', blocks w' = Some rows'
                           /\ stored rows' pos = None).
Proof.
  intros Hs Hpos. split_and!.
  - intros d Hd. by rewrite (loadBlock_spec _ _ _ _ Hs Hpos), Hd.
  - intros Hd. by rewrite (loadBlock_spec _ _ _ _ Hs Hpos), Hd.
  - intros d Hlen.
    rewrite (db_bind_Ok _ _ _ _ _ (saveBlock_spec _ _ _ _ _ Hs Hpos Hlen)).
    rewrite (db_bind_Ok _ _ _ _ _
               (deleteBlock_spec _ db (upsert pos d rows) pos
                  (session_set_blocks _ _ _ _ Hs) Hpos)).
    rewrite (loadBlock_spec _ db (without pos (upsert pos d rows)) pos)
      by (by eauto using session_set_blocks).
    rewrite stored_without. eexists. split; [reflexivity|].
    eexists. split; [reflexivity|]. apply stored_without.
Qed.
End Backend.

(** ** Opening and closing the session *)

Module Session.
Import Database_PostgreSQL Backend.

Lemma prepare_statement_spec site w h p name q :
  conns w !! h = Some (Conn CONNECTION_OK p) ->
  p !! name = None ->
  PREPARE_STATEMENT site h name q w
  = Ok tt (set_conns <[h := Conn CONNECTION_OK (<[name := q]> p)]> w).
Proof.
  intros Hc Hname.
  unfold PREPARE_STATEMENT, PG_OK_FREE, PG_RES_FREE, PG_RES, PQclear,
    PQprepare, usable.
  unfold mbind, M_bind, mret, M_ret. rewrite Hc. cbn [conn_prepared].
  by rewrite Hname.
Qed.

(** The statements the constructor prepares. *)
Definition prepared_by_ctor : gmap string sql :=
  <["list" := SQL_list]>
    (<["delete" := SQL_delete]>
       (<["save" := SQL_save]>
          (<["load" := SQL_load]>
             (<["end" := SQL_commit]>
                (<["begin" := SQL_begin]> ∅))))).

Lemma prepared_by_ctor_all : prepared_all prepared_by_ctor.
Proof. by repeat split. Qed.

(** With the setting present and the engine reachable, the constructor
    returns the object, with the session open on a new [PGconn] and the
    relation in place. *)
Lemma ctor_opens (conf : gmap string string) (info : string) (w : world) :
  conf !! "postgresql_connection_info" = Some info ->
  accepts w (c_str info) = true ->
  exists db w',
    ctor conf w = Ok db w'
    /\ conns w !! conn db = None
    /\ conns w' = <[conn db := Conn CONNECTION_OK prepared_by_ctor]> (conns w)
    /\ session w' db (default [] (blocks w)).
Proof.
  intros Hinfo Hacc.
  set (h := fresh (dom (conns w))).
  assert (conns w !! h = None) as Hfresh
    by (apply not_elem_of_dom, is_fresh).
  exists (Obj h). unfold ctor.
  erewrite db_bind_Ok.
  2:{ unfold try_catch_SettingNotFound, Settings_get.
      rewrite Hinfo. unfold mbind, M_bind, mret, M_ret, PQconnectdb.
      rewrite Hacc. fold h. reflexivity. }
  erewrite db_bind_Ok
    by (unfold PQstatus; cbn; by rewrite lookup_insert_eq).
  cbn [conn_status].
  destruct (decide (CONNECTION_OK <> CONNECTION_OK)) as [?|_]; [done|].
  erewrite db_bind_Ok by reflexivity.
  erewrite db_bind_Ok.
  2:{ unfold PG_OK_FREE, PG_RES_FREE, PG_RES, PQclear, PQexec, usable.
      unfold mbind, M_bind, mret, M_ret. cbn.
      rewrite lookup_insert_eq. reflexivity. }
  erewrite db_bind_Ok.
  2:{ apply prepare_statement_spec with (p := ∅); cbn;
        [by rewrite lookup_insert_eq|done]. }
  repeat (erewrite db_bind_Ok;
    [|eapply prepare_statement_spec; cbn;
        [by rewrite lookup_insert_eq|done]]).
  eexists. split; [reflexivity|]. cbn.
  rewrite !insert_insert_eq. split_and!; [done|done|].
  split; [|done]. exists prepared_by_ctor. cbn.
  rewrite lookup_insert_eq. split; [done|apply prepared_by_ctor_all].
Qed.

(** A computation that leaves the set of [PGconn] objects alone,
    whether it returns or throws. *)
Definition keeps_conns {A} (m : DB A) : Prop :=
  forall w, conns (final_state (m w)) = conns w.

Lemma keeps_conns_bind {A B} (m : DB A) (f : A -> DB B) :
  keeps_conns m -> (forall a, keeps_conns (f a)) -> keeps_conns (m ≫= f).
Proof.
  intros Hm Hf w. unfold mbind, M_bind. specialize (Hm w).
  destruct (m w) as [a w'|e w']; cbn in *; [|done].
  by rewrite Hf.
Qed.

Lemma keeps_conns_exec h name n values lengths formats fmt :
  keeps_conns (PQexecPrepared h name n values lengths formats fmt).
Proof.
  intros w. unfold PQexecPrepared.
  destruct (usable h w) as [c|]; [|done].
  destruct (conn_prepared c !! name) as [q|]; [|done].
  by destruct (run_sql q _ fmt (blocks w)).
Qed.

Lemma keeps_conns_PG_RES site res wanted : keeps_conns (PG_RES site res wanted).
Proof.
  intros w. unfold PG_RES. destruct res as [r|]; [|done].
  by destruct (decide _).
Qed.

Lemma keeps_conns_ret {A} (a : A) : keeps_conns (mret a : DB A).
Proof. done. Qed.

Lemma keeps_conns_perform db c : keeps_conns (perform db c).
Proof.
  destruct c; cbn [perform];
    unfold beginSave, endSave, saveBlock, loadBlock, deleteBlock,
      listAllLoadableBlocks, PG_OK_FREE, PG_RES_FREE, PG_RES_NOFREE, PQclear;
    repeat first
      [ apply keeps_conns_bind; [|intros ?]
      | apply keeps_conns_exec
      | apply keeps_conns_PG_RES
      | apply keeps_conns_ret ].
Qed.

Lemma keeps_conns_perform_all db cs : keeps_conns (perform_all db cs).
Proof.
  induction cs as [|c cs IH]; [done|]. cbn [perform_all].
  apply keeps_conns_bind; [|done].
  intros w. unfold attempt. cbn. apply keeps_conns_perform.
Qed.

Lemma perform_all_returns db cs w : exists w', perform_all db cs w = Ok tt w'.
Proof.
  revert w. induction cs as [|c cs IH]; intros w; [by eexists|].
  cbn [perform_all]. unfold mbind, M_bind, attempt. apply IH.
Qed.

(** Once the constructor has returned, the [PGconn] is released at the
    end whatever was called in between and however the calls ended. *)
Lemma lifetime_releases_after_open (conf : gmap string string)
    (info : string) (cs : list call) (w : world) :
  conf !! "postgresql_connection_info" = Some info ->
  accepts w (c_str info) = true ->
  exists w', lifetime conf cs w = Ok tt w' /\ conns w' = conns w.
Proof.
  intros Hinfo Hacc.
  destruct (ctor_opens conf info w Hinfo Hacc)
    as (db & w1 & Hctor & Hfresh & Hconns & _).
  unfold lifetime. rewrite (db_bind_Ok _ _ _ _ _ Hctor).
  destruct (perform_all_returns db cs w1) as [w2 Hrun].
  rewrite (db_bind_Ok _ _ _ _ _ Hrun).
  pose proof (keeps_conns_perform_all db cs w1) as Hkeep.
  rewrite Hrun in Hkeep. cbn in Hkeep.
  eexists. split; [reflexivity|]. cbn.
  by rewrite Hkeep, Hconns, delete_insert_eq, delete_id.
Qed.

(** Without the setting nothing was allocated when the constructor
    throws. *)
Lemma ctor_without_setting (conf : gmap string string) (w : world) :
  conf !! "postgresql_connection_info" = None ->
  exists e, lifetime conf [] w = Fail (SettingNotFoundException e) w.
Proof.
  intros Hnone. unfold lifetime, ctor, try_catch_SettingNotFound,
    Settings_get.
  unfold mbind, M_bind. rewrite Hnone. by eexists.
Qed.

(** An engine that cannot be reached, and the setting that names it. *)
Definition unreachable : world := World (fun _ => false) None ∅.
Definition conf_db : gmap string string :=
  {["postgresql_connection_info" := "host=db.example.org"]}.

(** [C5] When the engine cannot be reached, the constructor throws
    after [PQconnectdb] has handed out a [PGconn].  No object exists, so
    no destructor runs: at the end of the backend's life the [PGconn]
    is still there. *)
Theorem failed_open_leaks_the_connection :
  conns unreachable = ∅
  /\ (exists msg w',
        Database_PostgreSQL.lifetime conf_db [] unreachable
        = Fail (FileNotGoodException msg) w'
        /\ size (conns w') = 1%nat
        /\ conns w' !! 1%positive = Some (Conn CONNECTION_BAD ∅)).
Proof.
  split; [done|]. eexists _, _. split; [vm_compute; reflexivity|].
  split; reflexivity.
Qed.
End Session.

(** ** A concrete session *)

Module BackendExamples.
Import Database_PostgreSQL Backend.

Definition db1 : t := Obj 1%positive.

(** An open session on a relation holding [rows]. *)
Definition open_with (rows : list row) : world :=
  World (fun _ => true) (Some rows)
        {[1%positive := Conn CONNECTION_OK Session.prepared_by_ctor]}.

Lemma open_with_session rows : session (open_with rows) db1 rows.
Proof.
  split; [|done]. exists Session.prepared_by_ctor.
  split; [done|apply Session.prepared_by_ctor_all].
Qed.

Definition pos123 : v3s16 := V3 1 2 3.

(** The three bytes [00 01 02]. *)
Definition bytes012 : string :=
  String "000" (String "001" (String "002" EmptyString)).

Lemma valid_pos123 : valid_pos pos123.
Proof. unfold valid_pos, s16_range. cbn. lia. Qed.

(** [C1], as stated, fails: a key without a row and a key whose row
    has an empty payload make [loadBlock] return the same thing. *)
Lemma absent_is_not_distinguishable : ~ absent_is_distinguishable.
Proof.
  intros H.
  apply (H db1 pos123 (open_with []) (open_with [Row 1 2 3 EmptyString])
           [] [Row 1 2 3 EmptyString]).
  - apply open_with_session.
  - apply open_with_session.
  - apply valid_pos123.
  - reflexivity.
  - reflexivity.
  - vm_compute. reflexivity.
Qed.

(** The same on three runs: nothing saved; an empty payload saved; a
    payload saved and deleted. *)
Example load_of_absent_and_of_empty :
  returned (loadBlock db1 pos123 (open_with [])) = Some EmptyString
  /\ returned ((saveBlock db1 pos123 EmptyString;;
                loadBlock db1 pos123) (open_with [])) = Some EmptyString
  /\ returned ((saveBlock db1 pos123 bytes012;;
                deleteBlock db1 pos123;;
                loadBlock db1 pos123) (open_with [])) = Some EmptyString.
Proof. repeat split; vm_compute; reflexivity. Qed.

Lemma load_returns_payload_or_empty_witness :
  let w := open_with [Row 1 2 3 bytes012] in
  session w db1 [Row 1 2 3 bytes012]
  /\ valid_pos pos123
  /\ (forall d, stored [Row 1 2 3 bytes012] pos123 = Some d ->
                loadBlock db1 pos123 w = Ok d w)
  /\ (stored [Row 1 2 3 bytes012] pos123 = None ->
        loadBlock db1 pos123 w = Ok EmptyString w)
  /\ (forall d, Z.of_nat (String.length d) <= INT_MAX ->
        exists w',
          (saveBlock db1 pos123 d;; deleteBlock db1 pos123;;
           loadBlock db1 pos123) w = Ok EmptyString w'
          /\ exists rows', blocks w' = Some rows'
                           /\ stored rows' pos123 = None).
Proof.
  intros w.
  split; [apply open_with_session|]. split; [apply valid_pos123|].
  exact (load_returns_payload_or_empty w db1 [Row 1 2 3 bytes012] pos123
           (open_with_session _) valid_pos123).
Defined.

Lemma bytes012_fits : Z.of_nat (String.length bytes012) <= INT_MAX.
Proof. by vm_compute. Qed.

(** The scenario of the specification:
    [save((1,2,3), [00,01,02])], then [load((1,2,3))]. *)
Lemma save_then_load_round_trip_witness :
  session (open_with []) db1 []
  /\ valid_pos pos123
  /\ Z.of_nat (String.length bytes012) <= INT_MAX
  /\ (saveBlock db1 pos123 bytes012;; loadBlock db1 pos123) (open_with [])
     = Ok bytes012
          (set_blocks (Some (upsert pos123 bytes012 [])) (open_with [])).
Proof.
  split; [apply open_with_session|]. split; [apply valid_pos123|].
  split; [apply bytes012_fits|].
  exact (save_then_load_round_trip (open_with []) db1 [] pos123 bytes012
           (open_with_session _) valid_pos123 bytes012_fits).
Defined.

Lemma abc_fits : Z.of_nat (String.length "abc") <= INT_MAX.
Proof. by vm_compute. Qed.

Lemma save_is_upsert_last_write_wins_witness :
  let rows := [Row 4 5 6 "xyz"] in
  session (open_with rows) db1 rows
  /\ pk_ok rows
  /\ keys_valid rows
  /\ valid_pos pos123
  /\ exists w' rows' keys,
       (saveBlock db1 pos123 "abc";;
        saveBlock db1 pos123 bytes012;;
        r ← loadBlock db1 pos123;
        l ← listAllLoadableBlocks db1 [];
        mret (r, l)) (open_with rows) = Ok (bytes012, keys) w'
       /\ blocks w' = Some rows'
       /\ pk_ok rows'
       /\ length (filter (at_pos pos123) rows') = 1%nat
       /\ NoDup keys
       /\ length (filter (eq pos123) keys) = 1%nat.
Proof.
  intros rows.
  assert (pk_ok rows) as Hpk by (apply NoDup_singleton).
  assert (keys_valid rows) as Hvalid.
  { apply Forall_singleton. unfold valid_pos, s16_range. cbn. lia. }
  split; [apply open_with_session|]. split; [exact Hpk|].
  split; [exact Hvalid|]. split; [apply valid_pos123|].
  exact (save_is_upsert_last_write_wins (open_with rows) db1 rows pos123
           "abc" bytes012 (open_with_session _) Hpk Hvalid valid_pos123
           abc_fits bytes012_fits).
Defined.

Lemma listing_is_complete_and_duplicate_free_witness :
  let kvs := [(pos123, bytes012); (V3 (-4) 0 7, "abc")] in
  session (open_with []) db1 []
  /\ NoDup kvs.*1
  /\ Forall storable kvs
  /\ (exists w' keys,
        (save_all db1 kvs;; listAllLoadableBlocks db1 []) (open_with [])
        = Ok keys w'
        /\ keys ≡ₚ kvs.*1
        /\ NoDup keys
        /\ length keys = length kvs)
  /\ (forall w1 rows1,
        session w1 db1 rows1 -> pk_ok rows1 -> keys_valid rows1 ->
        exists keys, listAllLoadableBlocks db1 [] w1 = Ok keys w1
                     /\ NoDup keys).
Proof.
  intros kvs.
  assert (NoDup kvs.*1) as Hnd.
  { cbn. apply NoDup_cons. split; [|apply NoDup_singleton].
    by intros [=]%list_elem_of_singleton. }
  assert (Forall storable kvs) as Hok.
  { constructor; [|constructor; [|constructor]];
      (split; [unfold valid_pos, s16_range; cbn; lia|by vm_compute]). }
  split; [apply open_with_session|]. split; [exact Hnd|].
  split; [exact Hok|].
  exact (listing_is_complete_and_duplicate_free (open_with []) db1 kvs
           (open_with_session _) Hnd Hok).
Defined.
End BackendExamples.

(** * More on the buffers *)

Module BufferMore.
Import Owning.

(** ** Elements of a block that was copied in part *)

Section Blocks.
Context {T : Type} `{Pod T}.

(** An element depends on its own bytes only. *)
Lemma elem_at_ext (bs bs' : list mbyte) (i : Z) :
  0 <= i ->
  (i + 1) * sizeof T <= Z.of_nat (length bs) ->
  (i + 1) * sizeof T <= Z.of_nat (length bs') ->
  take (Z.to_nat (sizeof T)) (drop (Z.to_nat (i * sizeof T)) bs)
  = take (Z.to_nat (sizeof T)) (drop (Z.to_nat (i * sizeof T)) bs') ->
  elem_at (T:=T) bs i = elem_at (T:=T) bs' i.
Proof.
  intros Hi Hbs Hbs' Hsl. unfold elem_at.
  assert ((0 <=? i) && ((i + 1) * sizeof T <=? Z.of_nat (length bs)) = true)
    as -> by (apply andb_true_iff; split; apply Z.leb_le; lia).
  assert ((0 <=? i) && ((i + 1) * sizeof T <=? Z.of_nat (length bs')) = true)
    as -> by (apply andb_true_iff; split; apply Z.leb_le; lia).
  by rewrite Hsl.
Qed.

(** The elements that lie within the first [n] bytes of a block whose
    first [n] bytes were copied from [src]. *)
Lemma elem_at_copied (src old : list mbyte) (n i : Z) :
  0 <= i ->
  (i + 1) * sizeof T <= n ->
  n <= Z.of_nat (length src) ->
  n <= Z.of_nat (length old) ->
  elem_at (T:=T) (take (Z.to_nat n) src ++ drop (Z.to_nat n) old) i
  = elem_at (T:=T) src i.
Proof.
  intros Hi Hin Hsrc Hold. pose proof (sizeof_pos (T:=T)) as Hs.
  assert (0 <= i * sizeof T) by nia.
  apply elem_at_ext; [done| |lia|].
  - rewrite length_app, length_take, length_drop. lia.
  - rewrite drop_app_le by (rewrite length_take; lia).
    rewrite take_app_le by (rewrite length_drop, length_take; lia).
    replace (Z.to_nat n)
      with (Z.to_nat (i * sizeof T) + (Z.to_nat n - Z.to_nat (i * sizeof T)))%nat
      by lia.
    rewrite <- take_drop_commute, take_take. f_equal. lia.
Qed.

(** The elements that lie behind the first [n] bytes. *)
Lemma elem_at_not_copied (src old : list mbyte) (n i : Z) :
  0 <= n ->
  n <= i * sizeof T ->
  n <= Z.of_nat (length src) ->
  n <= Z.of_nat (length old) ->
  elem_at (T:=T) (take (Z.to_nat n) src ++ drop (Z.to_nat n) old) i
  = elem_at (T:=T) old i.
Proof.
  intros Hn Hin Hsrc Hold. pose proof (sizeof_pos (T:=T)) as Hs.
  assert (0 <= i) by nia.
  assert (length (take (Z.to_nat n) src ++ drop (Z.to_nat n) old)
          = length old) as Hlen
    by (rewrite length_app, length_take, length_drop; lia).
  unfold elem_at. rewrite Hlen.
  destruct ((0 <=? i) && ((i + 1) * sizeof T <=? Z.of_nat (length old)));
    [|done].
  rewrite drop_app_ge by (rewrite length_take; lia).
  rewrite drop_drop, length_take.
  by replace (Z.to_nat n + (Z.to_nat (i * sizeof T)
                            - Z.to_nat n `min` length src))%nat
    with (Z.to_nat (i * sizeof T)) by lia.
Qed.

(** An element with an indeterminate byte is indeterminate. *)
Lemma elem_at_indeterminate (bs : list mbyte) (i : Z) (j : nat) :
  0 <= i ->
  i * sizeof T <= Z.of_nat j < (i + 1) * sizeof T ->
  bs !! j = Some None ->
  elem_at (T:=T) bs i = None.
Proof.
  intros Hi Hj Hnone. pose proof (sizeof_pos (T:=T)) as Hs. unfold elem_at.
  destruct ((0 <=? i) && ((i + 1) * sizeof T <=? Z.of_nat (length bs)));
    [|done].
  destruct (mapM id _) as [vs|] eqn:Hm; [|done]. exfalso.
  assert (is_Some (mapM id
            (take (Z.to_nat (sizeof T)) (drop (Z.to_nat (i * sizeof T)) bs))))
    as Hsome by (by rewrite Hm).
  apply mapM_is_Some in Hsome.
  assert (take (Z.to_nat (sizeof T)) (drop (Z.to_nat (i * sizeof T)) bs)
            !! (j - Z.to_nat (i * sizeof T))%nat = Some None) as Hat.
  { rewrite lookup_take_lt by lia. rewrite lookup_drop. rewrite <- Hnone.
    f_equal. nia. }
  eapply Forall_lookup_1 in Hsome; [|exact Hat]. by destruct Hsome.
Qed.

(** A block of one-byte elements, read as [n] elements, is determined
    by its first [n] bytes. *)
Lemma elems_copied (src old : list mbyte) (n m : Z) :
  0 <= m ->
  m * sizeof T <= n ->
  n <= Z.of_nat (length src) ->
  n <= Z.of_nat (length old) ->
  elems (T:=T) (take (Z.to_nat n) src ++ drop (Z.to_nat n) old) m
  = elems (T:=T) src m.
Proof.
  intros Hm Hn Hsrc Hold. unfold elems. apply list_fmap_ext.
  intros k i [-> Hi]%lookup_seq. pose proof (sizeof_pos (T:=T)).
  assert (Z.of_nat (0 + k) + 1 <= m) by lia.
  apply elem_at_copied; [lia|nia|done..].
Qed.

Lemma elems_take (bs : list mbyte) (n : Z) :
  0 <= n ->
  sizeof T * n <= Z.of_nat (length bs) ->
  elems (T:=T) (take (Z.to_nat (sizeof T * n)) bs) n = elems (T:=T) bs n.
Proof.
  intros Hn Hlen. pose proof (sizeof_pos (T:=T)) as Hs.
  rewrite <- (app_nil_r (take _ bs)).
  rewrite <- (drop_all bs) at 1.
  replace (drop (length bs) bs)
    with (drop (Z.to_nat (sizeof T * n))
            (take (Z.to_nat (sizeof T * n)) bs)).
  2:{ rewrite drop_all. rewrite drop_ge; [done|]. rewrite length_take. lia. }
  apply elems_copied; [done|lia|lia|].
  rewrite length_take. lia.
Qed.
End Blocks.
(** ** [Buffer]: what a copy holds *)

Section Buffers.
Context {T : Type} `{Pod T}.

(** [Buffer(const T *t, size_t size)] with something to copy: the new
    block is the first [sizeof(T) * size] bytes behind [t]. *)
Lemma ctor_raw_spec (st : store) (this : addr) (t : loc) (bs : list mbyte)
    (n : Z) :
  0 < n ->
  sizeof T * n <= SIZE_MAX ->
  arrays st !! t = Some bs ->
  sizeof T * n <= Z.of_nat (length bs) ->
  Buffer.ctor_raw (T:=T) this (Some t) n st
  = Ok tt (set_buffers <[this := Buf.Obj (Some (fresh (used st))) n]>
             (set_arrays
                <[fresh (used st) := take (Z.to_nat (sizeof T * n)) bs]> st)).
Proof.
  intros Hn Hfit Hbs Hlen. pose proof (sizeof_pos (T:=T)).
  unfold Buffer.ctor_raw, Buffer.set_obj, new_array, memcpy.
  unfold_monad.
  destruct (Z.eqb_spec n 0) as [?|_]; [lia|].
  destruct (Z.ltb_spec SIZE_MAX (sizeof T * n)); [lia|].
  rewrite wrap64_fits by lia.
  destruct (Z.eqb_spec (sizeof T * n) 0); [nia|].
  set (d := fresh (used st)).
  assert (t <> d) as Hd
    by (apply Sharing.fresh_neq_live; left; by rewrite Hbs).
  store_simpl. rewrite lookup_insert_eq, lookup_insert_ne, Hbs by done.
  rewrite length_replicate.
  assert (0 <= sizeof T * n) by nia.
  assert ((sizeof T * n <=? Z.of_nat (Z.to_nat (sizeof T * n)))
          && (sizeof T * n <=? Z.of_nat (length bs)) = true)
    as -> by (apply andb_true_iff; split; apply Z.leb_le; lia).
  rewrite drop_replicate, Nat.sub_diag. cbn [replicate].
  rewrite app_nil_r. unfold set_buffers, set_arrays. cbn.
  by rewrite insert_insert_eq.
Qed.

(** [X12] [Buffer(const T *t, size_t size)] copies [size] elements,
    whatever the size of an element: the new buffer has a block of its
    own that reads as the first [size] elements behind [t], and the source
    is as it was.  With [size = 0] the pointer is not looked at, and the
    new buffer has no block. *)
Theorem buffer_from_array_copies_elements (st : store) (this : addr)
    (t : loc) (bs : list mbyte) (n : Z) :
  0 <= n ->
  sizeof T * n <= SIZE_MAX ->
  arrays st !! t = Some bs ->
  sizeof T * n <= Z.of_nat (length bs) ->
  (forall p, Buffer.ctor_raw (T:=T) this p 0 st
             = Ok tt (set_buffers <[this := Buf.Obj NULL 0]> st))
  /\ exists st1 o,
       Buffer.ctor_raw (T:=T) this (Some t) n st = Ok tt st1
       /\ buffers st1 !! this = Some o
       /\ Buf.m_size o = n
       /\ Buf.data o <> Some t
       /\ owns (T:=T) st1 o
       /\ contents (T:=T) st1 (Buf.data o) n = Some (elems (T:=T) bs n)
       /\ arrays st1 !! t = Some bs
       /\ freed st1 = freed st.
Proof.
  intros Hn Hfit Hbs Hlen. pose proof (sizeof_pos (T:=T)).
  split; [done|].
  destruct (Z.eq_dec n 0) as [->|Hnz].
  - eexists _, (Buf.Obj NULL 0). split; [reflexivity|]. store_simpl.
    rewrite lookup_insert_eq. split_and!; [done|done|done| |done|done|done].
    unfold owns. store_simpl. split_and!; [done|lia|done].
  - assert (t <> fresh (used st)) as Hd
      by (apply Sharing.fresh_neq_live; left; by rewrite Hbs).
    rewrite ctor_raw_spec with (bs := bs) by (done || lia).
    eexists _, (Buf.Obj (Some (fresh (used st))) n).
    split; [reflexivity|]. store_simpl.
    rewrite lookup_insert_eq. split_and!; [done|done|congruence| | | |done].
    + unfold owns. store_simpl. split_and!; [done..|].
      eexists. rewrite lookup_insert_eq. split; [done|].
      rewrite length_take. lia.
    + unfold contents. store_simpl. rewrite lookup_insert_eq. cbn.
      by rewrite elems_take.
    + by rewrite lookup_insert_ne.
Qed.

(** [X13] The copy constructor of [Buffer] makes an equal buffer,
    whatever the size of an element: the same size, and element for
    element the contents of the original, in a block of its own.  The
    original is as it was, and nothing was released. *)
Theorem buffer_copy_has_equal_contents (st : store) (b : addr)
    (ob : Buf.obj) (c : addr) :
  buffers st !! b = Some ob ->
  owns (T:=T) st ob ->
  c <> b ->
  exists st1 oc,
    Buffer.ctor_copy (T:=T) c b st = Ok tt st1
    /\ buffers st1 !! c = Some oc
    /\ buffers st1 !! b = Some ob
    /\ Buf.m_size oc = Buf.m_size ob
    /\ (forall l, Buf.data oc = Some l -> Buf.data ob <> Some l)
    /\ contents (T:=T) st1 (Buf.data oc) (Buf.m_size oc)
       = contents (T:=T) st (Buf.data ob) (Buf.m_size ob)
    /\ contents (T:=T) st1 (Buf.data ob) (Buf.m_size ob)
       = contents (T:=T) st (Buf.data ob) (Buf.m_size ob)
    /\ freed st1 = freed st.
Proof.
  intros Hb (Hnn & Hfit & Hblock) Hcb.
  assert (Buffer.this_obj b st = Ok ob st) as Hthis
    by (unfold Buffer.this_obj; by rewrite Hb).
  unfold Buffer.ctor_copy. rewrite (mem_bind_Ok _ _ _ _ _ Hthis).
  destruct (Buf.data ob) as [lb|] eqn:Hlb.
  - destruct Hblock as (Hnz & bs & Hbs & Hlen).
    assert (lb <> fresh (used st)) as Hd
      by (apply Sharing.fresh_neq_live; left; by rewrite Hbs).
    rewrite ctor_raw_spec with (bs := bs) by (done || lia).
    eexists _, _. split; [reflexivity|]. store_simpl.
    rewrite lookup_insert_eq, lookup_insert_ne by done.
    split_and!; [done|done|done|by intros ? [= <-] [= ?]| | |done].
    + unfold contents. store_simpl. rewrite lookup_insert_eq, Hbs. cbn.
      rewrite elems_take; [done|done|lia].
    + unfold contents. store_simpl. by rewrite lookup_insert_ne.
  - rewrite Hblock. eexists _, _. split; [reflexivity|]. store_simpl.
    rewrite lookup_insert_eq, lookup_insert_ne by done.
    by split_and!.
Qed.

(** ** [Buffer]: the end of a buffer *)

(** [X14] [~Buffer()] releases the block of the buffer, once, and
    nothing else: the object is gone, its block is no longer allocated and
    was released one more time than before, and every other block is as it
    was.  An empty buffer has no block, and none is released. *)
Theorem buffer_destructor_releases_its_block (st : store) (this : addr)
    (o : Buf.obj) :
  buffers st !! this = Some o ->
  owns (T:=T) st o ->
  exists st1,
    Buffer.dtor this st = Ok tt st1
    /\ buffers st1 = delete this (buffers st)
    /\ (forall l, Buf.data o = Some l ->
          arrays st1 = delete l (arrays st)
          /\ freed st1 = l :: freed st
          /\ times_freed st1 l = S (times_freed st l))
    /\ (Buf.data o = None -> arrays st1 = arrays st /\ freed st1 = freed st)
    /\ cells st1 = cells st
    /\ shared st1 = shared st.
Proof.
  intros Ho (_ & _ & Hblock).
  unfold Buffer.dtor, Buffer.drop, Buffer.end_obj, Buffer.this_obj,
    Buffer.set_obj, delete_array.
  unfold_monad. rewrite Ho.
  destruct (Buf.data o) as [l|] eqn:Hl.
  - destruct Hblock as (_ & bs & Hbs & _). rewrite Hbs.
    eexists. split; [reflexivity|]. store_simpl.
    split_and!; [by rewrite delete_insert_eq| |done|done|done].
    intros ? [= <-]. split_and!; [done..|].
    unfold times_freed. store_simpl.
    by rewrite filter_cons_True.
  - eexists. split; [reflexivity|]. store_simpl.
    split_and!; [by rewrite delete_insert_eq|done|done|done|done].
Qed.

(** [X15] A copy of a [Buffer] can be destroyed without harm to the
    original: after [Buffer c(b);] and the end of [c], the buffer [b]
    still has its block with its contents, the objects are those there
    were before, and the one block released is the one the copy had
    allocated, which did not exist before. *)
Theorem buffer_copy_then_destroy_leaves_original (st : store) (b : addr)
    (ob : Buf.obj) (c : addr) :
  buffers st !! b = Some ob ->
  owns (T:=T) st ob ->
  c <> b ->
  buffers st !! c = None ->
  exists st2,
    (Buffer.ctor_copy (T:=T) c b;; Buffer.dtor c) st = Ok tt st2
    /\ buffers st2 = buffers st
    /\ arrays st2 = arrays st
    /\ owns (T:=T) st2 ob
    /\ (Buf.m_size ob = 0 -> freed st2 = freed st)
    /\ (Buf.m_size ob <> 0 ->
          exists l, freed st2 = l :: freed st /\ l ∉ used st).
Proof.
  intros Hb Hown Hcb Hc. pose proof Hown as (Hnn & Hfit & Hblock).
  assert (Buffer.this_obj b st = Ok ob st) as Hthis
    by (unfold Buffer.this_obj; by rewrite Hb).
  destruct (Buf.data ob) as [lb|] eqn:Hlb.
  - destruct Hblock as (Hnz & bs & Hbs & Hlen).
    assert (Buffer.ctor_copy (T:=T) c b st
            = Ok tt (set_buffers
                       <[c := Buf.Obj (Some (fresh (used st))) (Buf.m_size ob)]>
                       (set_arrays
                          <[fresh (used st) :=
                              take (Z.to_nat (sizeof T * Buf.m_size ob)) bs]>
                          st))) as Hcopy.
    { unfold Buffer.ctor_copy. rewrite (mem_bind_Ok _ _ _ _ _ Hthis), Hlb.
      apply ctor_raw_spec; done || lia. }
    rewrite (mem_bind_Ok _ _ _ _ _ Hcopy).
    unfold Buffer.dtor, Buffer.drop, Buffer.end_obj, Buffer.this_obj,
      Buffer.set_obj, delete_array.
    unfold_monad. store_simpl. rewrite lookup_insert_eq. store_simpl.
    rewrite lookup_insert_eq.
    eexists. split; [reflexivity|]. store_simpl.
    rewrite insert_insert_eq, !delete_insert_eq.
    rewrite delete_id by done. rewrite delete_id by apply fresh_not_array.
    split_and!; [done|done| |done|].
    + unfold owns. rewrite Hlb. split_and!; [done..|]. exists bs.
      store_simpl.
      by rewrite delete_insert_eq, delete_id by apply fresh_not_array.
    + intros _. eexists. split; [done|]. apply is_fresh.
  - assert (Buffer.ctor_copy (T:=T) c b st
            = Ok tt (set_buffers <[c := Buf.Obj NULL 0]> st)) as Hcopy.
    { unfold Buffer.ctor_copy. by rewrite (mem_bind_Ok _ _ _ _ _ Hthis),
        Hlb, Hblock. }
    rewrite (mem_bind_Ok _ _ _ _ _ Hcopy).
    unfold Buffer.dtor, Buffer.drop, Buffer.end_obj, Buffer.this_obj,
      Buffer.set_obj, delete_array.
    unfold_monad. store_simpl. rewrite lookup_insert_eq. store_simpl.
    eexists. split; [reflexivity|]. store_simpl.
    rewrite insert_insert_eq, delete_insert_eq, delete_id by done.
    split_and!; [done|done| |done|done].
    unfold owns. rewrite Hlb. by split_and!.
Qed.
(** ** [Buffer]: assignment *)

Lemma resize_same (st : store) (c : addr) (oc : Buf.obj) :
  buffers st !! c = Some oc ->
  Buffer.resize (T:=T) c (Buf.m_size oc) st = Ok tt st.
Proof.
  intros Hc. unfold Buffer.resize, Buffer.this_obj. unfold_monad.
  by rewrite Hc, Z.eqb_refl.
Qed.

(** [resize] to another size, not zero: the buffer gets a new block of
    that size, nothing in it yet. *)
Lemma resize_new_block (st : store) (c : addr) (oc : Buf.obj) (size : Z) :
  buffers st !! c = Some oc ->
  owns (T:=T) st oc ->
  0 < size -> sizeof T * size <= SIZE_MAX ->
  size <> Buf.m_size oc ->
  exists st1 d,
    Buffer.resize (T:=T) c size st = Ok tt st1
    /\ buffers st1 = <[c := Buf.Obj (Some d) size]> (buffers st)
    /\ arrays st1 !! d = Some (replicate (Z.to_nat (sizeof T * size)) None)
    /\ arrays st !! d = None
    /\ (forall l, Buf.data oc <> Some l -> l <> d ->
                  arrays st1 !! l = arrays st !! l).
Proof.
  intros Hc (Hnn & Hfit & Hblock) Hsize Hsfit Hne.
  pose proof (sizeof_pos (T:=T)).
  unfold Buffer.resize, Buffer.drop, Buffer.this_obj, Buffer.set_obj,
    new_array, delete_array.
  unfold_monad. rewrite Hc.
  destruct (Z.eqb_spec size (Buf.m_size oc)) as [?|_]; [done|].
  destruct (Z.ltb_spec SIZE_MAX (sizeof T * size)); [lia|].
  destruct (Z.eqb_spec size 0) as [?|_]; [lia|].
  destruct (Z.eqb_spec (Buf.m_size oc) 0) as [Hz|Hnz]; store_simpl.
  - destruct (Buf.data oc) as [lc|] eqn:Hlc; [by destruct Hblock|].
    rewrite Hc. store_simpl. rewrite !lookup_insert_eq. store_simpl.
    eexists _, _. split; [reflexivity|]. store_simpl.
    split_and!.
    + by rewrite !insert_insert_eq.
    + by rewrite lookup_insert_eq.
    + apply fresh_not_array.
    + intros l _ Hl. by rewrite lookup_insert_ne.
  - destruct (Buf.data oc) as [lc|] eqn:Hlc; [|done].
    destruct Hblock as (_ & bs & Hbs & Hlen).
    rewrite Hc. store_simpl. rewrite Hlc. store_simpl.
    rewrite Hbs. store_simpl.
    set (st' := set_buffers _ _).
    assert (arrays st' = delete lc (arrays st)) as Harr by done.
    assert (buffers st' !! c = Some (Buf.Obj None (Buf.m_size oc))) as Hc'
      by (subst st'; store_simpl; by rewrite lookup_insert_eq).
    assert (buffers st'
            = <[c := Buf.Obj None (Buf.m_size oc)]> (buffers st)) as Hbuf
      by done.
    assert (lc <> fresh (used st')) as Hfr'.
    { intros Heq. apply (is_fresh (used st')). rewrite <- Heq.
      unfold used. apply elem_of_union_r, elem_of_list_to_set.
      subst st'. store_simpl. left. }
    pose proof (fresh_not_array st') as Hfresh.
    rewrite Harr, lookup_delete_ne in Hfresh by done.
    clearbody st'.
    rewrite !lookup_insert_eq. store_simpl.
    rewrite !lookup_insert_eq. store_simpl.
    eexists _, _. split; [reflexivity|]. store_simpl.
    split_and!.
    + by rewrite Hbuf, !insert_insert_eq.
    + by rewrite lookup_insert_eq.
    + done.
    + intros l Hl Hd.
      rewrite lookup_insert_ne, Harr, lookup_delete_ne by congruence. done.
Qed.

(** What [operator=] leaves in the target, block and all. *)
Lemma assign_block (st : store) (b : addr) (ob : Buf.obj) (c : addr)
    (oc : Buf.obj) (lb : loc) (bsb : list mbyte) :
  buffers st !! b = Some ob ->
  owns (T:=T) st ob ->
  c <> b ->
  buffers st !! c = Some oc ->
  owns (T:=T) st oc ->
  (forall l, Buf.data oc = Some l -> Buf.data ob <> Some l) ->
  Buf.data ob = Some lb ->
  arrays st !! lb = Some bsb ->
  exists st1 lc bsc,
    Buffer.assign (T:=T) c b st = Ok tt st1
    /\ buffers st1 !! c = Some (Buf.Obj (Some lc) (Buf.m_size ob))
    /\ buffers st1 !! b = Some ob
    /\ lc <> lb
    /\ Z.of_nat (length bsc) = sizeof T * Buf.m_size ob
    /\ arrays st1 !! lc
       = Some (take (Z.to_nat (Buf.m_size ob)) bsb
               ++ drop (Z.to_nat (Buf.m_size ob)) bsc)
    /\ arrays st1 !! lb = Some bsb
    /\ (Buf.m_size oc = Buf.m_size ob ->
          Buf.data oc = Some lc /\ arrays st !! lc = Some bsc)
    /\ (Buf.m_size oc <> Buf.m_size ob ->
          bsc = replicate (Z.to_nat (sizeof T * Buf.m_size ob)) None).
Proof.
  intros Hb Hob Hcb Hc Hoc Hdisj Hlb Hbsb. pose proof (sizeof_pos (T:=T)).
  pose proof Hob as (Hnn & Hfit & Hblock). rewrite Hlb in Hblock.
  destruct Hblock as (Hnz & bs0 & Hbs0 & Hlenb).
  rewrite Hbsb in Hbs0. injection Hbs0 as <-.
  assert (Buffer.this_obj b st = Ok ob st) as Hthis
    by (unfold Buffer.this_obj; by rewrite Hb).
  assert ((Buf.m_size ob <=? sizeof T * Buf.m_size ob)
          && (Buf.m_size ob <=? sizeof T * Buf.m_size ob) = true) as Hle
    by (apply andb_true_iff; split; apply Z.leb_le; nia).
  unfold Buffer.assign. destruct (decide (c <> b)) as [_|?]; [|done].
  rewrite (mem_bind_Ok _ _ _ _ _ Hthis).
  destruct (Z.eq_dec (Buf.m_size oc) (Buf.m_size ob)) as [Heq|Hneq].
  - (* the target keeps its block *)
    pose proof Hoc as (_ & _ & Hblockc).
    destruct (Buf.data oc) as [lc|] eqn:Hlc; [|lia].
    destruct Hblockc as (_ & bsc & Hbsc & Hlenc).
    assert (lc <> lb) as Hne by (intros ->; by apply (Hdisj lb)).
    assert (Buffer.resize (T:=T) c (Buf.m_size ob) st = Ok tt st) as Hres
      by (rewrite <- Heq; by apply resize_same).
    rewrite (mem_bind_Ok _ _ _ _ _ Hres).
    unfold Buffer.this_obj, memcpy. unfold_monad. rewrite Hc, Hlc, Hlb.
    destruct (Z.eqb_spec (Buf.m_size ob) 0) as [?|_]; [done|].
    rewrite Hbsc, Hbsb, Hlenb, Hlenc, Heq, Hle.
    exists (set_arrays
              <[lc := take (Z.to_nat (Buf.m_size ob)) bsb
                      ++ drop (Z.to_nat (Buf.m_size ob)) bsc]> st), lc, bsc.
    split; [done|]. store_simpl.
    rewrite lookup_insert_eq, lookup_insert_ne by done.
    split_and!; [|done|done|lia|done|done|done|done].
    rewrite Hc. f_equal. destruct oc. cbn in *. congruence.
  - (* the target gets a new block *)
    destruct (resize_new_block st c oc (Buf.m_size ob) Hc Hoc)
      as (st1 & d & Hrun & Hbuf & Hd & Hnew & Hkeep); [lia|done|done|].
    assert (d <> lb) as Hne by (intros ->; by rewrite Hbsb in Hnew).
    assert (arrays st1 !! lb = Some bsb) as Hbsb1.
    { rewrite Hkeep; [done| |done]. intros Hold. by apply (Hdisj lb). }
    rewrite (mem_bind_Ok _ _ _ _ _ Hrun).
    unfold Buffer.this_obj, memcpy. unfold_monad.
    rewrite Hbuf, lookup_insert_eq. store_simpl. rewrite Hlb.
    destruct (Z.eqb_spec (Buf.m_size ob) 0) as [?|_]; [done|].
    rewrite Hd, Hbsb1, Hlenb, length_replicate.
    assert (0 <= sizeof T * Buf.m_size ob) by nia.
    rewrite Z2Nat.id, Hle by done.
    eexists _, d, _. split; [reflexivity|]. store_simpl.
    rewrite Hbuf, lookup_insert_eq, lookup_insert_ne by done.
    rewrite lookup_insert_eq, lookup_insert_ne by done.
    split_and!; [done|done|done| |done|done|done|done].
    rewrite length_replicate. lia.
Qed.

(** [X16] [Buffer::operator=] gives the target the size of the source
    and a block of its own, and copies [m_size] bytes: as many bytes as the
    source has elements.  So the elements that lie within the first
    [m_size] bytes are those of the source, and with elements of one byte
    the target has the contents of the source.  With larger elements the
    rest of the target is not assigned: it is what the target held before
    when the sizes were equal, and indeterminate when the target got a new
    block.  The source is as it was. *)
Theorem buffer_assignment_copies_size_bytes (st : store) (b : addr)
    (ob : Buf.obj) (c : addr) (oc : Buf.obj) (lb : loc)
    (bsb : list mbyte) :
  buffers st !! b = Some ob ->
  owns (T:=T) st ob ->
  c <> b ->
  buffers st !! c = Some oc ->
  owns (T:=T) st oc ->
  (forall l, Buf.data oc = Some l -> Buf.data ob <> Some l) ->
  Buf.data ob = Some lb ->
  arrays st !! lb = Some bsb ->
  exists st1 lc bs',
    Buffer.assign (T:=T) c b st = Ok tt st1
    /\ buffers st1 !! c = Some (Buf.Obj (Some lc) (Buf.m_size ob))
    /\ buffers st1 !! b = Some ob
    /\ lc <> lb
    /\ arrays st1 !! lc = Some bs'
    /\ arrays st1 !! lb = Some bsb
    /\ (forall i, 0 <= i -> (i + 1) * sizeof T <= Buf.m_size ob ->
          elem_at (T:=T) bs' i = elem_at (T:=T) bsb i)
    /\ (sizeof T = 1 ->
          contents (T:=T) st1 (Some lc) (Buf.m_size ob)
          = contents (T:=T) st (Some lb) (Buf.m_size ob))
    /\ (Buf.m_size oc = Buf.m_size ob ->
          exists bsc,
            Buf.data oc = Some lc /\ arrays st !! lc = Some bsc
            /\ forall i, Buf.m_size ob <= i * sizeof T ->
                 elem_at (T:=T) bs' i = elem_at (T:=T) bsc i)
    /\ (Buf.m_size oc <> Buf.m_size ob ->
          forall i, 0 <= i < Buf.m_size ob ->
            Buf.m_size ob < (i + 1) * sizeof T ->
            elem_at (T:=T) bs' i = None).
Proof.
  intros Hb Hob Hcb Hc Hoc Hdisj Hlb Hbsb. pose proof (sizeof_pos (T:=T)).
  destruct (assign_block st b ob c oc lb bsb Hb Hob Hcb Hc Hoc Hdisj Hlb Hbsb)
    as (st1 & lc & bsc & Hrun & Hc1 & Hb1 & Hne & Hlenc & Hnew & Hold
        & Hsame & Hfresh).
  pose proof Hob as (Hnn & Hfit & Hblock). rewrite Hlb in Hblock.
  destruct Hblock as (Hnz & bs0 & Hbs0 & Hlenb).
  rewrite Hbsb in Hbs0. injection Hbs0 as <-.
  assert (Buf.m_size ob <= sizeof T * Buf.m_size ob) by nia.
  eexists st1, lc, _. split_and!; [done..| | | |].
  - intros i Hi Hin. apply elem_at_copied; lia.
  - intros Hone. unfold contents. rewrite Hnew, Hbsb. cbn. f_equal.
    apply elems_copied; lia.
  - intros Heq. destruct (Hsame Heq) as [Hd Hbsc]. exists bsc.
    split_and!; [done..|]. intros i Hi.
    apply elem_at_not_copied; lia.
  - intros Hneq i Hi Hpart. rewrite (Hfresh Hneq).
    apply elem_at_indeterminate
      with (j := Z.to_nat (Z.max (Buf.m_size ob) (i * sizeof T))); [lia|nia|].
    rewrite lookup_app_r by (rewrite length_take; lia).
    rewrite lookup_drop, lookup_replicate. split; [done|].
    rewrite length_take. nia.
Qed.
End Buffers.

(** ** [SharedBuffer]: what the copies share *)

Section SharedBuffers.
Context {T : Type} `{Pod T}.

(** A [SharedBuffer<T>] as its constructors leave it: empty with a null
    pointer, or with a block of exactly [m_size] elements. *)
Definition holds (st : store) (o : SBuf.obj) : Prop :=
  0 <= SBuf.m_size o
  /\ sizeof T * SBuf.m_size o <= SIZE_MAX
  /\ match SBuf.data o with
     | None => SBuf.m_size o = 0
     | Some l =>
         SBuf.m_size o <> 0
         /\ exists bs, arrays st !! l = Some bs
                       /\ Z.of_nat (length bs) = sizeof T * SBuf.m_size o
     end.

(** [X17] The copies of a [SharedBuffer] are views of one array: after
    [SharedBuffer b(a);], an element assigned through either of the two
    objects is what both of them read at that index. *)
Theorem shared_copies_alias (st : store) (a b : addr) (o : SBuf.obj)
    (rc : loc) (c : Z) (i : Z) (v : T) :
  shared st !! a = Some o ->
  holds st o ->
  SBuf.refcount o = Some rc ->
  cells st !! rc = Some (Some c) ->
  0 <= i < SBuf.m_size o ->
  exists st1,
    SharedBuffer.ctor_copy b a st = Ok tt st1
    /\ forall x y, x = a \/ x = b -> y = a \/ y = b ->
         exists st2,
           (lv ← SharedBuffer.subscript x i; store_elem lv v) st1 = Ok tt st2
           /\ (lv ← SharedBuffer.subscript y i; load (T:=T) lv) st2
              = Ok (Some v) st2.
Proof.
  intros Ha (Hnn & Hfit & Hblock) Hrc Hc Hi. pose proof (sizeof_pos (T:=T)).
  rewrite (Sharing.ctor_copy_spec _ _ _ _ _ _ Ha Hrc Hc).
  eexists. split; [reflexivity|].
  set (st1 := set_cells _ _).
  assert (forall x, x = a \/ x = b -> shared st1 !! x = Some o) as Hobj.
  { intros x Hx. subst st1. store_simpl.
    destruct (decide (x = b)) as [->|Hxb]; [by rewrite lookup_insert_eq|].
    rewrite lookup_insert_ne by done. by destruct Hx as [->|?]. }
  assert (arrays st1 = arrays st) as Harr by done.
  clearbody st1.
  destruct (SBuf.data o) as [l|] eqn:Hl; [|lia].
  destruct Hblock as (_ & bs & Hbs & Hlen).
  assert (0 <= (i + 1) * sizeof T <= sizeof T * SBuf.m_size o) by nia.
  assert ((0 <=? i) && ((i + 1) * sizeof T <=? Z.of_nat (length bs)) = true)
    as Hin by (apply andb_true_iff; split; apply Z.leb_le; lia).
  intros x y Hx Hy.
  unfold SharedBuffer.subscript, SharedBuffer.this_obj, assert, store_elem,
    load.
  unfold_monad. rewrite (Hobj x Hx).
  destruct (Z.ltb_spec i (SBuf.m_size o)) as [_|?]; [|lia].
  store_simpl. rewrite Hl, Harr, Hbs, Hin.
  eexists. split; [reflexivity|]. store_simpl. rewrite (Hobj y Hy).
  destruct (Z.ltb_spec i (SBuf.m_size o)) as [_|?]; [|lia].
  store_simpl. rewrite Hl. store_simpl. rewrite lookup_insert_eq.
  assert (Z.of_nat (length (take (Z.to_nat (i * sizeof T)) bs
             ++ (Some <$> encode v)
             ++ drop (Z.to_nat ((i + 1) * sizeof T)) bs))
          = Z.of_nat (length bs)) as ->.
  { rewrite !length_app, length_take, length_drop, length_fmap.
    pose proof (encode_length v). nia. }
  by rewrite Hin, elem_at_stored by lia.
Qed.

(** [X21] [operator Buffer<T>()] makes a [Buffer] with the size and,
    element for element, the contents of the [SharedBuffer], whatever the
    size of an element, in a block of its own.  The [SharedBuffer] is as it
    was: nothing is shared with the new buffer, and the counter is not
    touched. *)
Theorem shared_to_buffer_copies_elements (st : store) (this dst : addr)
    (o : SBuf.obj) :
  shared st !! this = Some o ->
  holds st o ->
  exists st1 ob,
    SharedBuffer.to_Buffer (T:=T) this dst st = Ok tt st1
    /\ buffers st1 !! dst = Some ob
    /\ Buf.m_size ob = SBuf.m_size o
    /\ owns (T:=T) st1 ob
    /\ (forall l, Buf.data ob = Some l -> SBuf.data o <> Some l)
    /\ contents (T:=T) st1 (Buf.data ob) (Buf.m_size ob)
       = contents (T:=T) st (SBuf.data o) (SBuf.m_size o)
    /\ contents (T:=T) st1 (SBuf.data o) (SBuf.m_size o)
       = contents (T:=T) st (SBuf.data o) (SBuf.m_size o)
    /\ shared st1 = shared st
    /\ cells st1 = cells st
    /\ freed st1 = freed st.
Proof.
  intros Ho (Hnn & Hfit & Hblock). pose proof (sizeof_pos (T:=T)).
  assert (SharedBuffer.this_obj this st = Ok o st) as Hthis
    by (unfold SharedBuffer.this_obj; by rewrite Ho).
  unfold SharedBuffer.to_Buffer. rewrite (mem_bind_Ok _ _ _ _ _ Hthis).
  destruct (SBuf.data o) as [l|] eqn:Hl.
  - destruct Hblock as (Hnz & bs & Hbs & Hlen).
    assert (l <> fresh (used st)) as Hd
      by (apply Sharing.fresh_neq_live; left; by rewrite Hbs).
    rewrite ctor_raw_spec with (bs := bs) by (done || lia).
    eexists _, (Buf.Obj (Some (fresh (used st))) (SBuf.m_size o)).
    split; [reflexivity|]. store_simpl. rewrite lookup_insert_eq.
    split_and!; [done|done| |by intros ? [= <-] [= ?]| | |done..].
    + unfold owns. store_simpl. split_and!; [done..|].
      eexists. rewrite lookup_insert_eq. split; [done|].
      rewrite length_take. lia.
    + unfold contents. store_simpl. rewrite lookup_insert_eq, Hbs. cbn.
      rewrite elems_take; [done|done|lia].
    + unfold contents. store_simpl. by rewrite lookup_insert_ne.
  - rewrite Hblock. eexists _, (Buf.Obj NULL 0).
    split; [reflexivity|]. store_simpl. rewrite lookup_insert_eq.
    split_and!; [done|done| |done..].
    unfold owns. store_simpl. split_and!; [done|lia|done].
Qed.

(** [X19] [SharedBuffer(const T *t, unsigned int size)] makes a buffer
    of [size] elements with a block and a counter of its own, the counter
    at 1, and copies [size] bytes: as many bytes as there are elements.
    So the elements that lie within the first [size] bytes are those
    behind [t], and with elements of one byte the buffer holds a copy of
    the array.  With larger elements every other element is left
    indeterminate. *)
Theorem shared_from_array_copies_size_bytes (st : store) (this : addr)
    (t : loc) (bs : list mbyte) (n : Z) :
  0 < n <= UINT_MAX ->
  sizeof T * n <= SIZE_MAX ->
  arrays st !! t = Some bs ->
  sizeof T * n <= Z.of_nat (length bs) ->
  exists st1 d rc bs',
    SharedBuffer.ctor_raw (T:=T) this (Some t) n st = Ok tt st1
    /\ shared st1 !! this = Some (SBuf.Obj (Some d) n (Some rc))
    /\ d <> t
    /\ cells st1 !! rc = Some (Some 1)
    /\ arrays st1 !! d = Some bs'
    /\ Z.of_nat (length bs') = sizeof T * n
    /\ arrays st1 !! t = Some bs
    /\ (forall i, 0 <= i -> (i + 1) * sizeof T <= n ->
          elem_at (T:=T) bs' i = elem_at (T:=T) bs i)
    /\ (sizeof T = 1 ->
          contents (T:=T) st1 (Some d) n = Some (elems (T:=T) bs n))
    /\ (forall i, 0 <= i < n -> n < (i + 1) * sizeof T ->
          elem_at (T:=T) bs' i = None).
Proof.
  intros [Hn Hmax] Hfit Hbs Hlen. pose proof (sizeof_pos (T:=T)).
  assert (n <= sizeof T * n) by nia.
  unfold SharedBuffer.ctor_raw, SharedBuffer.set_obj, new_array, new_cell,
    write_cell, memcpy.
  unfold_monad.
  destruct (Z.eqb_spec n 0) as [?|_]; [lia|]. store_simpl.
  destruct (Z.ltb_spec SIZE_MAX (sizeof T * n)); [lia|].
  destruct (Z.eqb_spec n 0) as [?|_]; [lia|].
  set (d := fresh (used st)).
  assert (t <> d) as Hd
    by (apply Sharing.fresh_neq_live; left; by rewrite Hbs).
  store_simpl. rewrite lookup_insert_eq, lookup_insert_ne, Hbs by done.
  rewrite length_replicate.
  assert ((n <=? Z.of_nat (Z.to_nat (sizeof T * n)))
          && (n <=? Z.of_nat (length bs)) = true)
    as -> by (apply andb_true_iff; split; apply Z.leb_le; lia).
  store_simpl. rewrite lookup_insert_eq.
  set (bs' := take (Z.to_nat n) bs ++ drop (Z.to_nat n) _).
  set (rc := fresh (used _)).
  exists (set_shared <[this := SBuf.Obj (Some d) n (Some rc)]>
            (set_cells <[rc := Some 1]>
               (set_cells <[rc := None]>
                  (set_arrays <[d := bs']>
                     (set_arrays
                        <[d := replicate (Z.to_nat (sizeof T * n)) None]>
                        st))))), d, rc, bs'.
  split; [reflexivity|]. store_simpl.
  rewrite !lookup_insert_eq.
  rewrite lookup_insert_ne, lookup_insert_ne by done.
  split_and!; [done|done|done|done| |done| | |]; subst bs'.
  - rewrite length_app, length_take, length_drop, length_replicate. lia.
  - intros i Hi Hin. apply elem_at_copied; [done|done|lia|].
    rewrite length_replicate. lia.
  - intros Hone. unfold contents. store_simpl.
    rewrite lookup_insert_eq. cbn. f_equal.
    apply elems_copied; [lia|lia|lia|]. rewrite length_replicate. lia.
  - intros i Hi Hpart.
    apply elem_at_indeterminate
      with (j := Z.to_nat (Z.max n (i * sizeof T))); [lia|nia|].
    rewrite lookup_app_r by (rewrite length_take; lia).
    rewrite lookup_drop, lookup_replicate. split; [done|].
    rewrite length_take. nia.
Qed.

(** [X20] An empty [SharedBuffer], from [SharedBuffer()] as from
    [SharedBuffer(0)]: size zero, a null pointer and no array, a counter
    of its own at 1, and every index fails the assertion of [operator[]].
    Its destructor releases the counter, and nothing else. *)
Theorem empty_shared_buffer (st : store) (this : addr) :
  SharedBuffer.ctor_sized (T:=T) this 0 st = SharedBuffer.ctor_default this st
  /\ exists st1 rc,
       SharedBuffer.ctor_default this st = Ok tt st1
       /\ shared st1 !! this = Some (SBuf.Obj NULL 0 (Some rc))
       /\ cells st1 !! rc = Some (Some 1)
       /\ cells st !! rc = None
       /\ arrays st1 = arrays st
       /\ SharedBuffer.getSize this st1 = Ok 0 st1
       /\ SharedBuffer.deref this st1 = Ok NULL st1
       /\ (forall i, 0 <= i ->
             SharedBuffer.subscript this i st1 = Fail AssertionFailed st1)
       /\ exists st2,
            SharedBuffer.dtor this st1 = Ok tt st2
            /\ shared st2 = delete this (shared st)
            /\ arrays st2 = arrays st
            /\ cells st2 = cells st
            /\ freed st2 = rc :: freed st.
Proof.
  split.
  { unfold SharedBuffer.ctor_sized, SharedBuffer.ctor_default, memset.
    unfold_monad. cbn [Z.eqb negb].
    assert (wrap64 (sizeof T * 0) = 0) as ->
      by (by rewrite Z.mul_0_r).
    cbn [Z.eqb]. unfold new_cell. by destruct (write_cell _ _ _). }
  rewrite Sharing.ctor_default_spec.
  set (rc := fresh (used st)).
  eexists _, rc. split; [reflexivity|]. store_simpl.
  rewrite !lookup_insert_eq.
  split_and!; [done|done|apply fresh_not_cell|done| | | |].
  - unfold SharedBuffer.getSize, SharedBuffer.this_obj. unfold_monad.
    store_simpl. by rewrite lookup_insert_eq.
  - unfold SharedBuffer.deref, SharedBuffer.this_obj. unfold_monad.
    store_simpl. by rewrite lookup_insert_eq.
  - intros i Hi.
    unfold SharedBuffer.subscript, SharedBuffer.this_obj, assert.
    unfold_monad. store_simpl. rewrite lookup_insert_eq. store_simpl.
    by destruct (Z.ltb_spec i 0); [lia|].
  - unfold SharedBuffer.dtor.
    erewrite mem_bind_Ok.
    2:{ apply Sharing.drop_last
          with (o := SBuf.Obj NULL 0 (Some rc)) (rc := rc);
          store_simpl; [by rewrite lookup_insert_eq|done
                       |by rewrite lookup_insert_eq|done]. }
    unfold SharedBuffer.end_obj, Sharing.after_release.
    eexists. split; [reflexivity|]. store_simpl.
    rewrite !insert_insert_eq, !delete_insert_eq.
    rewrite (delete_id (cells st)) by apply fresh_not_cell.
    by split_and!.
Qed.
End SharedBuffers.

(** ** [SharedBuffer]: assignment over a buffer in use *)

(** The allocations of two buffers are different ones. *)
Definition apart (o ob : SBuf.obj) : Prop :=
  SBuf.refcount o <> SBuf.refcount ob
  /\ (forall d, SBuf.data o = Some d ->
        SBuf.data ob <> Some d /\ SBuf.refcount ob <> Some d)
  /\ (forall d, SBuf.data ob = Some d -> SBuf.refcount o <> Some d).

(** [X18] [SharedBuffer::operator=] on the only owner of one buffer,
    from a copy of another: the target gives up its array and its counter,
    each released exactly once, and becomes one more copy of the other
    buffer, whose counter goes up by one and whose array is not touched. *)
Theorem shared_assignment_releases_old_storage (st : store)
    (this buffer : addr) (o ob : SBuf.obj) (S : gset addr) :
  Sharing.sharing st {[this]} o ->
  Sharing.sharing st S ob ->
  buffer ∈ S ->
  this ∉ S ->
  Z.of_nat (size S) < UINT_MAX ->
  apart o ob ->
  exists st1,
    SharedBuffer.assign this buffer st = Ok tt st1
    /\ Sharing.sharing st1 (S ∪ {[this]}) ob
    /\ Sharing.storage_released st1 o
    /\ (forall d, SBuf.data ob = Some d -> arrays st1 !! d = arrays st !! d).
Proof.
  intros (Hobj & _ & (rc & Hrc & Hc & Hf & Hne) & Hd)
         (Hobjb & Hmaxb & (rcb & Hrcb & Hcb & Hfb & Hneb) & Hdb)
         Hin Hout Hlt (Hrcne & Hdata & Hcross).
  rewrite size_singleton in Hc.
  assert (this <> buffer) as Htb by (by intros ->).
  assert (rc <> rcb) as Hrcs by congruence.
  assert (size (S ∪ {[this]}) = Datatypes.S (size S)) as Hsize.
  { rewrite size_union, size_singleton by (by apply disjoint_singleton_r).
    lia. }
  assert (wrap32 (Z.of_nat (size S) + 1) = Z.of_nat (Datatypes.S (size S)))
    as Hwrap.
  { unfold wrap32, UINT_MAX in *. rewrite Z.mod_small; lia. }
  assert (shared st !! this = Some o) as Hthis
    by (by apply Hobj, elem_of_singleton).
  erewrite Sharing.assign_spec with (o := ob) (rc := rcb)
    (c := Z.of_nat (size S)); [|done| | |done|].
  2:{ apply Sharing.drop_last with (o := o) (rc := rc); [done..|].
      intros d Hdd. by destruct (Hd d Hdd). }
  2:{ unfold Sharing.after_release.
      destruct (SBuf.data o); store_simpl; by apply Hobjb. }
  2:{ unfold Sharing.after_release.
      destruct (SBuf.data o); store_simpl;
        by rewrite lookup_delete_ne, lookup_insert_ne. }
  rewrite Hwrap. eexists. split; [reflexivity|].
  unfold Sharing.after_release.
  split_and!.
  - split_and!.
    + intros a [Ha| ->%elem_of_singleton]%elem_of_union.
      * destruct (SBuf.data o); store_simpl;
          (rewrite lookup_insert_ne by (by intros ->)); by apply Hobjb.
      * destruct (SBuf.data o); store_simpl; by rewrite lookup_insert_eq.
    + lia.
    + exists rcb. rewrite Hsize. split; [done|].
      destruct (SBuf.data o) as [d|] eqn:Hdd; store_simpl;
        rewrite lookup_insert_eq.
      * destruct (Hdata d eq_refl) as [_ Hx].
        split_and!; [done| |done].
        rewrite !not_elem_of_cons. split_and!; [congruence|congruence|done].
      * split_and!; [done| |done].
        rewrite !not_elem_of_cons. split_and!; [congruence|done].
    + intros db Hdbb. destruct (Hdb db Hdbb) as [Hlive Hnf].
      destruct (SBuf.data o) as [d|] eqn:Hdd; store_simpl.
      * destruct (Hdata d eq_refl) as [Hx _].
        rewrite lookup_delete_ne by congruence.
        split; [done|]. rewrite !not_elem_of_cons.
        split_and!; [|congruence|done].
        intros ->. by apply (Hcross rc).
      * split; [done|]. rewrite !not_elem_of_cons.
        split_and!; [|done]. intros ->. by apply (Hcross rc).
  - split.
    + exists rc. split; [done|].
      destruct (SBuf.data o) as [d|] eqn:Hdd; store_simpl.
      * rewrite lookup_insert_ne, lookup_delete_eq by done.
        split; [done|]. unfold times_freed. store_simpl.
        rewrite filter_cons_True by done.
        rewrite filter_cons_False by congruence. cbn. f_equal.
        by apply (times_freed_0 st).
      * rewrite lookup_insert_ne, lookup_delete_eq by done.
        split; [done|]. unfold times_freed. store_simpl.
        rewrite filter_cons_True by done. cbn. f_equal.
        by apply (times_freed_0 st).
    + intros d Hdd. rewrite Hdd. store_simpl.
      destruct (Hd d Hdd) as [_ Hnf].
      rewrite lookup_delete_eq. split; [done|].
      unfold times_freed. store_simpl.
      rewrite filter_cons_False by congruence.
      rewrite filter_cons_True by done. cbn. f_equal.
      by apply (times_freed_0 st).
  - intros db Hdbb.
    destruct (SBuf.data o) as [d|] eqn:Hdd; store_simpl; [|done].
    destruct (Hdata d eq_refl) as [Hx _].
    rewrite lookup_delete_ne by congruence. done.
Qed.
(** ** [Buffer]: access to the elements *)

Section Access.
Context {T : Type} `{Pod T}.

(** [X22] [Buffer(size_t size)] with a size [n > 0] allocates a block
    of [n] elements and initialises none of them: every element reads as
    indeterminate until it is assigned, after which it reads as the value
    assigned.  With size zero it is the empty buffer of [Buffer()]. *)
Theorem buffer_of_size_is_uninitialised (st : store) (this : addr) (n : Z) :
  0 < n ->
  sizeof T * n <= SIZE_MAX ->
  Buffer.ctor_sized (T:=T) this 0 st = Buffer.ctor_default this st
  /\ exists st1 d,
       Buffer.ctor_sized (T:=T) this n st = Ok tt st1
       /\ buffers st1 !! this = Some (Buf.Obj (Some d) n)
       /\ arrays st !! d = None
       /\ owns (T:=T) st1 (Buf.Obj (Some d) n)
       /\ (forall i, 0 <= i < n ->
             (lv ← Buffer.subscript this i; load (T:=T) lv) st1 = Ok None st1)
       /\ (forall i v, 0 <= i < n ->
             exists st2,
               (lv ← Buffer.subscript this i; store_elem lv v) st1 = Ok tt st2
               /\ (lv ← Buffer.subscript this i; load (T:=T) lv) st2
                  = Ok (Some v) st2).
Proof.
  intros Hn Hfit. pose proof (sizeof_pos (T:=T)). split; [done|].
  unfold Buffer.ctor_sized, Buffer.set_obj, new_array. unfold_monad.
  destruct (Z.eqb_spec n 0) as [?|_]; [lia|].
  destruct (Z.ltb_spec SIZE_MAX (sizeof T * n)); [lia|].
  set (d := fresh (used st)).
  eexists _, d. split; [reflexivity|]. store_simpl.
  rewrite lookup_insert_eq.
  assert (forall i, 0 <= i < n ->
            (0 <=? i) && ((i + 1) * sizeof T
                          <=? Z.of_nat (Z.to_nat (sizeof T * n))) = true)
    as Hin by (intros i Hi; apply andb_true_iff; split; apply Z.leb_le; nia).
  split_and!; [done|apply fresh_not_array| | |].
  - unfold owns. store_simpl. split_and!; [lia|done|lia|].
    eexists. rewrite lookup_insert_eq. split; [done|].
    rewrite length_replicate. nia.
  - intros i Hi.
    unfold Buffer.subscript, Buffer.this_obj, load. unfold_monad.
    store_simpl. rewrite lookup_insert_eq. store_simpl.
    rewrite lookup_insert_eq, length_replicate, Hin by done.
    f_equal.
    apply elem_at_indeterminate with (j := Z.to_nat (i * sizeof T));
      [lia|nia|].
    apply lookup_replicate. split; [done|]. nia.
  - intros i v Hi.
    unfold Buffer.subscript, Buffer.this_obj, store_elem, load. unfold_monad.
    store_simpl. rewrite lookup_insert_eq. store_simpl.
    rewrite lookup_insert_eq, length_replicate, Hin by done.
    eexists. split; [reflexivity|]. store_simpl.
    rewrite lookup_insert_eq. store_simpl. rewrite lookup_insert_eq.
    assert (Z.of_nat (length
              (take (Z.to_nat (i * sizeof T))
                 (replicate (Z.to_nat (sizeof T * n)) (None : mbyte))
               ++ (Some <$> encode v)
               ++ drop (Z.to_nat ((i + 1) * sizeof T))
                    (replicate (Z.to_nat (sizeof T * n)) None)))
            = Z.of_nat (Z.to_nat (sizeof T * n))) as ->.
    { rewrite !length_app, length_take, length_drop, length_fmap,
        length_replicate.
      pose proof (encode_length v). nia. }
    rewrite Hin by done. f_equal.
    apply elem_at_stored; [lia|]. rewrite length_replicate. nia.
Qed.

(** [X23] [Buffer::operator[]] checks nothing: it yields [data[i]] for
    every [i].  Within the size the element is the one in the block; from
    the size on there is no assertion, as [SharedBuffer] has one, and
    reading or assigning through the result is undefined behaviour. *)
Theorem buffer_subscript_is_unchecked (st : store) (this : addr)
    (o : Buf.obj) :
  buffers st !! this = Some o ->
  owns (T:=T) st o ->
  (forall i, Buffer.subscript this i st = Ok (Lvalue (Buf.data o) i) st)
  /\ (forall i l bs,
        Buf.data o = Some l -> arrays st !! l = Some bs ->
        0 <= i < Buf.m_size o ->
        (lv ← Buffer.subscript this i; load (T:=T) lv) st
        = Ok (elem_at bs i) st)
  /\ (forall i, Buf.m_size o <= i ->
        (lv ← Buffer.subscript this i; load (T:=T) lv) st
        = Fail UndefinedBehaviour st)
  /\ (forall i v, Buf.m_size o <= i ->
        (lv ← Buffer.subscript this i; store_elem (T:=T) lv v) st
        = Fail UndefinedBehaviour st).
Proof.
  intros Ho (Hnn & Hfit & Hblock). pose proof (sizeof_pos (T:=T)).
  unfold Buffer.subscript, Buffer.this_obj, load, store_elem. unfold_monad.
  rewrite Ho. store_simpl. split_and!.
  - done.
  - intros i l bs Hl Hbs Hi. rewrite Hl in *. store_simpl. rewrite Hbs.
    destruct Hblock as (_ & bs0 & Hbs0 & Hlen).
    rewrite Hbs in Hbs0. injection Hbs0 as <-.
    by assert ((0 <=? i) && ((i + 1) * sizeof T <=? Z.of_nat (length bs))
               = true) as ->
      by (apply andb_true_iff; split; apply Z.leb_le; nia).
  - intros i Hi. destruct (Buf.data o) as [l|]; [|done]. store_simpl.
    destruct Hblock as (_ & bs & -> & Hlen).
    by assert ((0 <=? i) && ((i + 1) * sizeof T <=? Z.of_nat (length bs))
               = false) as ->
      by (apply andb_false_iff; right; apply Z.leb_gt; nia).
  - intros i v Hi. destruct (Buf.data o) as [l|]; [|done].
    destruct Hblock as (_ & bs & -> & Hlen).
    by assert ((0 <=? i) && ((i + 1) * sizeof T <=? Z.of_nat (length bs))
               = false) as ->
      by (apply andb_false_iff; right; apply Z.leb_gt; nia).
Qed.

(** [X26] [SharedBuffer(const Buffer<T> &)] makes a buffer with the
    size of the [Buffer], a block and a counter of its own, and copies
    [getSize()] bytes: as many bytes as the [Buffer] has elements.  So
    the elements that lie within the first [getSize()] bytes are those of
    the [Buffer]; every other element is left indeterminate.  The [Buffer]
    is as it was. *)
Theorem shared_from_buffer_copies_size_bytes (st : store) (this b : addr)
    (ob : Buf.obj) (lb : loc) (bsb : list mbyte) :
  buffers st !! b = Some ob ->
  owns (T:=T) st ob ->
  Buf.m_size ob <= UINT_MAX ->
  Buf.data ob = Some lb ->
  arrays st !! lb = Some bsb ->
  exists st1 d rc bs',
    SharedBuffer.ctor_Buffer (T:=T) this b st = Ok tt st1
    /\ shared st1 !! this = Some (SBuf.Obj (Some d) (Buf.m_size ob) (Some rc))
    /\ d <> lb
    /\ cells st1 !! rc = Some (Some 1)
    /\ arrays st1 !! d = Some bs'
    /\ Z.of_nat (length bs') = sizeof T * Buf.m_size ob
    /\ buffers st1 !! b = Some ob
    /\ arrays st1 !! lb = Some bsb
    /\ (forall i, 0 <= i -> (i + 1) * sizeof T <= Buf.m_size ob ->
          elem_at (T:=T) bs' i = elem_at (T:=T) bsb i)
    /\ (forall i, 0 <= i < Buf.m_size ob ->
          Buf.m_size ob < (i + 1) * sizeof T ->
          elem_at (T:=T) bs' i = None).
Proof.
  intros Hb (Hnn & Hfit & Hblock) Hmax Hlb Hbsb.
  pose proof (sizeof_pos (T:=T)). rewrite Hlb in Hblock.
  destruct Hblock as (Hnz & bs0 & Hbs0 & Hlen).
  rewrite Hbsb in Hbs0. injection Hbs0 as <-.
  set (n := Buf.m_size ob) in *.
  assert (n <= sizeof T * n) by nia.
  unfold SharedBuffer.ctor_Buffer, Buffer.getSize, Buffer.deref,
    Buffer.this_obj, SharedBuffer.set_obj, new_array, new_cell, write_cell,
    memcpy.
  unfold_monad. rewrite Hb. fold n.
  assert (wrap32 n = n) as ->
    by (unfold wrap32, UINT_MAX in *; apply Z.mod_small; lia).
  destruct (Z.eqb_spec n 0) as [?|_]; [lia|]. store_simpl.
  destruct (Z.ltb_spec SIZE_MAX (sizeof T * n)); [lia|].
  repeat (progress (store_simpl; rewrite ?Hb, ?Hlb)). fold n.
  destruct (Z.eqb_spec n 0) as [?|_]; [lia|].
  set (d := fresh (used st)).
  assert (lb <> d) as Hd
    by (apply Sharing.fresh_neq_live; left; by rewrite Hbsb).
  rewrite lookup_insert_eq, lookup_insert_ne, Hbsb by done.
  rewrite length_replicate.
  assert ((n <=? Z.of_nat (Z.to_nat (sizeof T * n)))
          && (n <=? Z.of_nat (length bsb)) = true)
    as -> by (apply andb_true_iff; split; apply Z.leb_le; lia).
  store_simpl. rewrite lookup_insert_eq.
  set (bs' := take (Z.to_nat n) bsb ++ drop (Z.to_nat n) _).
  set (rc := fresh (used _)).
  exists (set_shared <[this := SBuf.Obj (Some d) n (Some rc)]>
            (set_cells <[rc := Some 1]>
               (set_cells <[rc := None]>
                  (set_arrays <[d := bs']>
                     (set_arrays
                        <[d := replicate (Z.to_nat (sizeof T * n)) None]>
                        st))))), d, rc, bs'.
  split; [reflexivity|]. store_simpl.
  rewrite !lookup_insert_eq.
  rewrite lookup_insert_ne, lookup_insert_ne by done.
  split_and!; [done|done|done|done| |done|done| |]; subst bs'.
  - rewrite length_app, length_take, length_drop, length_replicate. lia.
  - intros i Hi Hin. apply elem_at_copied; [done|done|lia|].
    rewrite length_replicate. lia.
  - intros i Hi Hpart.
    apply elem_at_indeterminate
      with (j := Z.to_nat (Z.max n (i * sizeof T))); [lia|nia|].
    rewrite lookup_app_r by (rewrite length_take; lia).
    rewrite lookup_drop, lookup_replicate. split; [done|].
    rewrite length_take. nia.
Qed.
End Access.
End BufferMore.

(** ** Concrete buffers, again *)

Module BufferMoreExamples.
Import Examples BufferMore.

(** Two [Buffer<u8x2>] of two elements each: at address 5 the elements
    [(01,02); (03,04)], at address 6 the elements [(0a,0b); (0c,0d)]. *)
Definition pairs0 : store :=
  Store {[1%positive := [Some "001"; Some "002"; Some "003"; Some "004"]%byte;
          2%positive := [Some "010"; Some "011"; Some "012"; Some "013"]%byte]}
        ∅ []
        {[5%positive := Buf.Obj (Some 1%positive) 2;
          6%positive := Buf.Obj (Some 2%positive) 2]}
        ∅.

Definition block1 : list mbyte :=
  [Some "001"; Some "002"; Some "003"; Some "004"]%byte.
Definition block2 : list mbyte :=
  [Some "010"; Some "011"; Some "012"; Some "013"]%byte.

Lemma pairs0_owns_5 : Owning.owns (T:=u8x2) pairs0 (Buf.Obj (Some 1%positive) 2).
Proof.
  split; [by vm_compute|]. split; [by vm_compute|].
  split; [done|]. by exists block1.
Qed.

Lemma pairs0_owns_6 : Owning.owns (T:=u8x2) pairs0 (Buf.Obj (Some 2%positive) 2).
Proof.
  split; [by vm_compute|]. split; [by vm_compute|].
  split; [done|]. by exists block2.
Qed.

Lemma st0_owns_5 : Owning.owns (T:=byte) st0 (Buf.Obj (Some 1%positive) 2).
Proof.
  split; [by vm_compute|]. split; [by vm_compute|].
  split; [done|]. by exists [Some "001"; Some "002"]%byte.
Qed.

Lemma st0_holds_7 :
  holds (T:=byte) st0 (SBuf.Obj (Some 2%positive) 3 (Some 3%positive)).
Proof.
  split; [by vm_compute|]. split; [by vm_compute|].
  split; [done|]. by exists [Some "010"; Some "011"; Some "012"]%byte.
Qed.

(** Two [SharedBuffer<u8>], each the only owner of its array: at address
    7 two bytes, at address 8 three bytes. *)
Definition two_shared : store :=
  Store {[1%positive := [Some "001"; Some "002"]%byte;
          2%positive := [Some "010"; Some "011"; Some "012"]%byte]}
        {[3%positive := Some 1; 4%positive := Some 1]}
        [] ∅
        {[7%positive := SBuf.Obj (Some 1%positive) 2 (Some 3%positive);
          8%positive := SBuf.Obj (Some 2%positive) 3 (Some 4%positive)]}.

Lemma buffer_from_array_copies_elements_witness :
  0 <= 2
  /\ sizeof u8x2 * 2 <= SIZE_MAX
  /\ arrays raw0 !! 1%positive = Some block1
  /\ sizeof u8x2 * 2 <= Z.of_nat (length block1)
  /\ (forall p, Buffer.ctor_raw (T:=u8x2) 10%positive p 0 raw0
                = Ok tt (set_buffers <[10%positive := Buf.Obj NULL 0]> raw0))
  /\ exists st1 o,
       Buffer.ctor_raw (T:=u8x2) 10%positive (Some 1%positive) 2 raw0
       = Ok tt st1
       /\ buffers st1 !! 10%positive = Some o
       /\ Buf.m_size o = 2
       /\ Buf.data o <> Some 1%positive
       /\ Owning.owns (T:=u8x2) st1 o
       /\ contents (T:=u8x2) st1 (Buf.data o) 2
          = Some (elems (T:=u8x2) block1 2)
       /\ arrays st1 !! 1%positive = Some block1
       /\ freed st1 = freed raw0.
Proof.
  assert (0 <= 2) as H1 by lia.
  assert (sizeof u8x2 * 2 <= SIZE_MAX) as H2 by (by vm_compute).
  assert (arrays raw0 !! 1%positive = Some block1) as H3 by reflexivity.
  assert (sizeof u8x2 * 2 <= Z.of_nat (length block1)) as H4
    by (by vm_compute).
  split; [exact H1|]. split; [exact H2|]. split; [exact H3|].
  split; [exact H4|].
  exact (buffer_from_array_copies_elements (T:=u8x2) raw0 10%positive
           1%positive block1 2 H1 H2 H3 H4).
Defined.

Lemma buffer_copy_has_equal_contents_witness :
  let ob := Buf.Obj (Some 1%positive) 2 in
  buffers pairs0 !! 5%positive = Some ob
  /\ Owning.owns (T:=u8x2) pairs0 ob
  /\ 9%positive <> 5%positive
  /\ exists st1 oc,
       Buffer.ctor_copy (T:=u8x2) 9%positive 5%positive pairs0 = Ok tt st1
       /\ buffers st1 !! 9%positive = Some oc
       /\ buffers st1 !! 5%positive = Some ob
       /\ Buf.m_size oc = Buf.m_size ob
       /\ (forall l, Buf.data oc = Some l -> Buf.data ob <> Some l)
       /\ contents (T:=u8x2) st1 (Buf.data oc) (Buf.m_size oc)
          = contents (T:=u8x2) pairs0 (Buf.data ob) (Buf.m_size ob)
       /\ contents (T:=u8x2) st1 (Buf.data ob) (Buf.m_size ob)
          = contents (T:=u8x2) pairs0 (Buf.data ob) (Buf.m_size ob)
       /\ freed st1 = freed pairs0.
Proof.
  intros ob.
  assert (buffers pairs0 !! 5%positive = Some ob) as H1 by reflexivity.
  assert (9%positive <> 5%positive) as H3 by discriminate.
  split; [exact H1|]. split; [exact pairs0_owns_5|]. split; [exact H3|].
  exact (buffer_copy_has_equal_contents (T:=u8x2) pairs0 5%positive ob
           9%positive H1 pairs0_owns_5 H3).
Defined.

Lemma buffer_destructor_releases_its_block_witness :
  let o := Buf.Obj (Some 1%positive) 2 in
  buffers pairs0 !! 5%positive = Some o
  /\ Owning.owns (T:=u8x2) pairs0 o
  /\ exists st1,
       Buffer.dtor 5%positive pairs0 = Ok tt st1
       /\ buffers st1 = delete 5%positive (buffers pairs0)
       /\ (forall l, Buf.data o = Some l ->
             arrays st1 = delete l (arrays pairs0)
             /\ freed st1 = l :: freed pairs0
             /\ times_freed st1 l = S (times_freed pairs0 l))
       /\ (Buf.data o = None ->
             arrays st1 = arrays pairs0 /\ freed st1 = freed pairs0)
       /\ cells st1 = cells pairs0
       /\ shared st1 = shared pairs0.
Proof.
  intros o.
  assert (buffers pairs0 !! 5%positive = Some o) as H1 by reflexivity.
  split; [exact H1|]. split; [exact pairs0_owns_5|].
  exact (buffer_destructor_releases_its_block (T:=u8x2) pairs0 5%positive o
           H1 pairs0_owns_5).
Defined.

Lemma buffer_copy_then_destroy_leaves_original_witness :
  let ob := Buf.Obj (Some 1%positive) 2 in
  buffers pairs0 !! 5%positive = Some ob
  /\ Owning.owns (T:=u8x2) pairs0 ob
  /\ 9%positive <> 5%positive
  /\ buffers pairs0 !! 9%positive = None
  /\ exists st2,
       (Buffer.ctor_copy (T:=u8x2) 9%positive 5%positive;;
        Buffer.dtor 9%positive) pairs0 = Ok tt st2
       /\ buffers st2 = buffers pairs0
       /\ arrays st2 = arrays pairs0
       /\ Owning.owns (T:=u8x2) st2 ob
       /\ (Buf.m_size ob = 0 -> freed st2 = freed pairs0)
       /\ (Buf.m_size ob <> 0 ->
             exists l, freed st2 = l :: freed pairs0 /\ l ∉ used pairs0).
Proof.
  intros ob.
  assert (buffers pairs0 !! 5%positive = Some ob) as H1 by reflexivity.
  assert (9%positive <> 5%positive) as H3 by discriminate.
  assert (buffers pairs0 !! 9%positive = None) as H4 by reflexivity.
  split; [exact H1|]. split; [exact pairs0_owns_5|]. split; [exact H3|].
  split; [exact H4|].
  exact (buffer_copy_then_destroy_leaves_original (T:=u8x2) pairs0 5%positive
           ob 9%positive H1 pairs0_owns_5 H3 H4).
Defined.

Lemma buffer_assignment_copies_size_bytes_witness :
  let ob := Buf.Obj (Some 1%positive) 2 in
  let oc := Buf.Obj (Some 2%positive) 2 in
  buffers pairs0 !! 5%positive = Some ob
  /\ Owning.owns (T:=u8x2) pairs0 ob
  /\ 6%positive <> 5%positive
  /\ buffers pairs0 !! 6%positive = Some oc
  /\ Owning.owns (T:=u8x2) pairs0 oc
  /\ (forall l, Buf.data oc = Some l -> Buf.data ob <> Some l)
  /\ Buf.data ob = Some 1%positive
  /\ arrays pairs0 !! 1%positive = Some block1
  /\ exists st1 lc bs',
       Buffer.assign (T:=u8x2) 6%positive 5%positive pairs0 = Ok tt st1
       /\ buffers st1 !! 6%positive
          = Some (Buf.Obj (Some lc) (Buf.m_size ob))
       /\ buffers st1 !! 5%positive = Some ob
       /\ lc <> 1%positive
       /\ arrays st1 !! lc = Some bs'
       /\ arrays st1 !! 1%positive = Some block1
       /\ (forall i, 0 <= i -> (i + 1) * sizeof u8x2 <= Buf.m_size ob ->
             elem_at (T:=u8x2) bs' i = elem_at (T:=u8x2) block1 i)
       /\ (sizeof u8x2 = 1 ->
             contents (T:=u8x2) st1 (Some lc) (Buf.m_size ob)
             = contents (T:=u8x2) pairs0 (Some 1%positive) (Buf.m_size ob))
       /\ (Buf.m_size oc = Buf.m_size ob ->
             exists bsc,
               Buf.data oc = Some lc /\ arrays pairs0 !! lc = Some bsc
               /\ forall i, Buf.m_size ob <= i * sizeof u8x2 ->
                    elem_at (T:=u8x2) bs' i = elem_at (T:=u8x2) bsc i)
       /\ (Buf.m_size oc <> Buf.m_size ob ->
             forall i, 0 <= i < Buf.m_size ob ->
               Buf.m_size ob < (i + 1) * sizeof u8x2 ->
               elem_at (T:=u8x2) bs' i = None).
Proof.
  intros ob oc.
  assert (buffers pairs0 !! 5%positive = Some ob) as H1 by reflexivity.
  assert (6%positive <> 5%positive) as H3 by discriminate.
  assert (buffers pairs0 !! 6%positive = Some oc) as H4 by reflexivity.
  assert (forall l, Buf.data oc = Some l -> Buf.data ob <> Some l) as H6
    by (intros l [= <-]; discriminate).
  assert (Buf.data ob = Some 1%positive) as H7 by reflexivity.
  assert (arrays pairs0 !! 1%positive = Some block1) as H8 by reflexivity.
  split; [exact H1|]. split; [exact pairs0_owns_5|]. split; [exact H3|].
  split; [exact H4|]. split; [exact pairs0_owns_6|]. split; [exact H6|].
  split; [exact H7|]. split; [exact H8|].
  exact (buffer_assignment_copies_size_bytes (T:=u8x2) pairs0 5%positive ob
           6%positive oc 1%positive block1 H1 pairs0_owns_5 H3 H4
           pairs0_owns_6 H6 H7 H8).
Defined.

(** On the two buffers above: after [c = b] the first element of [c] is
    the first of [b], and the second element of [c] is still its own. *)
Example buffer_assignment_on_pairs :
  returned ((Buffer.assign (T:=u8x2) 6%positive 5%positive;;
             buffer_contents (T:=u8x2) 6%positive) pairs0)
  = Some (Some [Some ("001", "002"); Some ("012", "013")]%byte).
Proof. vm_compute. reflexivity. Qed.

Lemma shared_copies_alias_witness :
  let o := SBuf.Obj (Some 2%positive) 3 (Some 3%positive) in
  shared st0 !! 7%positive = Some o
  /\ holds (T:=byte) st0 o
  /\ SBuf.refcount o = Some 3%positive
  /\ cells st0 !! 3%positive = Some (Some 1)
  /\ 0 <= 1 < SBuf.m_size o
  /\ exists st1,
       SharedBuffer.ctor_copy 8%positive 7%positive st0 = Ok tt st1
       /\ forall x y, x = 7%positive \/ x = 8%positive ->
            y = 7%positive \/ y = 8%positive ->
            exists st2,
              (lv ← SharedBuffer.subscript x 1;
               store_elem lv ("255"%byte)) st1 = Ok tt st2
              /\ (lv ← SharedBuffer.subscript y 1; load (T:=byte) lv) st2
                 = Ok (Some "255"%byte) st2.
Proof.
  intros o.
  assert (shared st0 !! 7%positive = Some o) as H1 by reflexivity.
  assert (SBuf.refcount o = Some 3%positive) as H3 by reflexivity.
  assert (cells st0 !! 3%positive = Some (Some 1)) as H4 by reflexivity.
  assert (0 <= 1 < SBuf.m_size o) as H5 by (cbn; lia).
  split; [exact H1|]. split; [exact st0_holds_7|]. split; [exact H3|].
  split; [exact H4|]. split; [exact H5|].
  exact (shared_copies_alias (T:=byte) st0 7%positive 8%positive o 3%positive
           1 1 "255"%byte H1 st0_holds_7 H3 H4 H5).
Defined.

Lemma shared_to_buffer_copies_elements_witness :
  let o := SBuf.Obj (Some 2%positive) 3 (Some 3%positive) in
  shared st0 !! 7%positive = Some o
  /\ holds (T:=byte) st0 o
  /\ exists st1 ob,
       SharedBuffer.to_Buffer (T:=byte) 7%positive 9%positive st0 = Ok tt st1
       /\ buffers st1 !! 9%positive = Some ob
       /\ Buf.m_size ob = SBuf.m_size o
       /\ Owning.owns (T:=byte) st1 ob
       /\ (forall l, Buf.data ob = Some l -> SBuf.data o <> Some l)
       /\ contents (T:=byte) st1 (Buf.data ob) (Buf.m_size ob)
          = contents (T:=byte) st0 (SBuf.data o) (SBuf.m_size o)
       /\ contents (T:=byte) st1 (SBuf.data o) (SBuf.m_size o)
          = contents (T:=byte) st0 (SBuf.data o) (SBuf.m_size o)
       /\ shared st1 = shared st0
       /\ cells st1 = cells st0
       /\ freed st1 = freed st0.
Proof.
  intros o.
  assert (shared st0 !! 7%positive = Some o) as H1 by reflexivity.
  split; [exact H1|]. split; [exact st0_holds_7|].
  exact (shared_to_buffer_copies_elements (T:=byte) st0 7%positive 9%positive
           o H1 st0_holds_7).
Defined.

Lemma shared_from_array_copies_size_bytes_witness :
  0 < 2 <= UINT_MAX
  /\ sizeof u8x2 * 2 <= SIZE_MAX
  /\ arrays raw0 !! 1%positive = Some block1
  /\ sizeof u8x2 * 2 <= Z.of_nat (length block1)
  /\ exists st1 d rc bs',
       SharedBuffer.ctor_raw (T:=u8x2) 20%positive (Some 1%positive) 2 raw0
       = Ok tt st1
       /\ shared st1 !! 20%positive = Some (SBuf.Obj (Some d) 2 (Some rc))
       /\ d <> 1%positive
       /\ cells st1 !! rc = Some (Some 1)
       /\ arrays st1 !! d = Some bs'
       /\ Z.of_nat (length bs') = sizeof u8x2 * 2
       /\ arrays st1 !! 1%positive = Some block1
       /\ (forall i, 0 <= i -> (i + 1) * sizeof u8x2 <= 2 ->
             elem_at (T:=u8x2) bs' i = elem_at (T:=u8x2) block1 i)
       /\ (sizeof u8x2 = 1 ->
             contents (T:=u8x2) st1 (Some d) 2
             = Some (elems (T:=u8x2) block1 2))
       /\ (forall i, 0 <= i < 2 -> 2 < (i + 1) * sizeof u8x2 ->
             elem_at (T:=u8x2) bs' i = None).
Proof.
  assert (0 < 2 <= UINT_MAX) as H1 by (by vm_compute).
  assert (sizeof u8x2 * 2 <= SIZE_MAX) as H2 by (by vm_compute).
  assert (arrays raw0 !! 1%positive = Some block1) as H3 by reflexivity.
  assert (sizeof u8x2 * 2 <= Z.of_nat (length block1)) as H4
    by (by vm_compute).
  split; [exact H1|]. split; [exact H2|]. split; [exact H3|].
  split; [exact H4|].
  exact (shared_from_array_copies_size_bytes (T:=u8x2) raw0 20%positive
           1%positive block1 2 H1 H2 H3 H4).
Defined.

Lemma shared_assignment_releases_old_storage_witness :
  let o := SBuf.Obj (Some 1%positive) 2 (Some 3%positive) in
  let ob := SBuf.Obj (Some 2%positive) 3 (Some 4%positive) in
  Sharing.sharing two_shared {[7%positive]} o
  /\ Sharing.sharing two_shared {[8%positive]} ob
  /\ (8%positive ∈ ({[8%positive]} : gset addr))
  /\ (7%positive ∉ ({[8%positive]} : gset addr))
  /\ Z.of_nat (size ({[8%positive]} : gset addr)) < UINT_MAX
  /\ apart o ob
  /\ exists st1,
       SharedBuffer.assign 7%positive 8%positive two_shared = Ok tt st1
       /\ Sharing.sharing st1 ({[8%positive]} ∪ {[7%positive]}) ob
       /\ Sharing.storage_released st1 o
       /\ (forall d, SBuf.data ob = Some d ->
             arrays st1 !! d = arrays two_shared !! d).
Proof.
  intros o ob.
  assert (Sharing.sharing two_shared {[7%positive]} o) as H1.
  { split_and!.
    - intros a ->%elem_of_singleton. reflexivity.
    - rewrite size_singleton. vm_compute. discriminate.
    - exists 3%positive. rewrite size_singleton.
      split_and!; [reflexivity|reflexivity|apply not_elem_of_nil|discriminate].
    - intros d [= <-]. split; [by eexists|apply not_elem_of_nil]. }
  assert (Sharing.sharing two_shared {[8%positive]} ob) as H2.
  { split_and!.
    - intros a ->%elem_of_singleton. reflexivity.
    - rewrite size_singleton. vm_compute. discriminate.
    - exists 4%positive. rewrite size_singleton.
      split_and!; [reflexivity|reflexivity|apply not_elem_of_nil|discriminate].
    - intros d [= <-]. split; [by eexists|apply not_elem_of_nil]. }
  assert (8%positive ∈ ({[8%positive]} : gset addr)) as H3
    by (by apply elem_of_singleton).
  assert (7%positive ∉ ({[8%positive]} : gset addr)) as H4
    by (by intros [=]%elem_of_singleton).
  assert (Z.of_nat (size ({[8%positive]} : gset addr)) < UINT_MAX) as H5
    by (rewrite size_singleton; by vm_compute).
  assert (apart o ob) as H6.
  { split_and!; [discriminate| |].
    - intros d [= <-]. split; discriminate.
    - intros d [= <-]. discriminate. }
  split; [exact H1|]. split; [exact H2|]. split; [exact H3|].
  split; [exact H4|]. split; [exact H5|]. split; [exact H6|].
  exact (shared_assignment_releases_old_storage two_shared 7%positive
           8%positive o ob {[8%positive]} H1 H2 H3 H4 H5 H6).
Defined.

Lemma buffer_of_size_is_uninitialised_witness :
  0 < 3
  /\ sizeof u8x2 * 3 <= SIZE_MAX
  /\ Buffer.ctor_sized (T:=u8x2) 9%positive 0 st0
     = Buffer.ctor_default 9%positive st0
  /\ exists st1 d,
       Buffer.ctor_sized (T:=u8x2) 9%positive 3 st0 = Ok tt st1
       /\ buffers st1 !! 9%positive = Some (Buf.Obj (Some d) 3)
       /\ arrays st0 !! d = None
       /\ Owning.owns (T:=u8x2) st1 (Buf.Obj (Some d) 3)
       /\ (forall i, 0 <= i < 3 ->
             (lv ← Buffer.subscript 9%positive i; load (T:=u8x2) lv) st1
             = Ok None st1)
       /\ (forall i v, 0 <= i < 3 ->
             exists st2,
               (lv ← Buffer.subscript 9%positive i; store_elem lv v) st1
               = Ok tt st2
               /\ (lv ← Buffer.subscript 9%positive i; load (T:=u8x2) lv) st2
                  = Ok (Some v) st2).
Proof.
  assert (0 < 3) as H1 by lia.
  assert (sizeof u8x2 * 3 <= SIZE_MAX) as H2 by (by vm_compute).
  split; [exact H1|]. split; [exact H2|].
  exact (buffer_of_size_is_uninitialised (T:=u8x2) st0 9%positive 3 H1 H2).
Defined.

Lemma buffer_subscript_is_unchecked_witness :
  let o := Buf.Obj (Some 1%positive) 2 in
  buffers st0 !! 5%positive = Some o
  /\ Owning.owns (T:=byte) st0 o
  /\ (forall i, Buffer.subscript 5%positive i st0
                = Ok (Lvalue (Buf.data o) i) st0)
  /\ (forall i l bs,
        Buf.data o = Some l -> arrays st0 !! l = Some bs ->
        0 <= i < Buf.m_size o ->
        (lv ← Buffer.subscript 5%positive i; load (T:=byte) lv) st0
        = Ok (elem_at bs i) st0)
  /\ (forall i, Buf.m_size o <= i ->
        (lv ← Buffer.subscript 5%positive i; load (T:=byte) lv) st0
        = Fail UndefinedBehaviour st0)
  /\ (forall i v, Buf.m_size o <= i ->
        (lv ← Buffer.subscript 5%positive i; store_elem (T:=byte) lv v) st0
        = Fail UndefinedBehaviour st0).
Proof.
  intros o.
  assert (buffers st0 !! 5%positive = Some o) as H1 by reflexivity.
  split; [exact H1|]. split; [exact st0_owns_5|].
  exact (buffer_subscript_is_unchecked (T:=byte) st0 5%positive o H1
           st0_owns_5).
Defined.

Lemma shared_from_buffer_copies_size_bytes_witness :
  let ob := Buf.Obj (Some 1%positive) 2 in
  buffers pairs0 !! 5%positive = Some ob
  /\ Owning.owns (T:=u8x2) pairs0 ob
  /\ Buf.m_size ob <= UINT_MAX
  /\ Buf.data ob = Some 1%positive
  /\ arrays pairs0 !! 1%positive = Some block1
  /\ exists st1 d rc bs',
       SharedBuffer.ctor_Buffer (T:=u8x2) 20%positive 5%positive pairs0
       = Ok tt st1
       /\ shared st1 !! 20%positive
          = Some (SBuf.Obj (Some d) (Buf.m_size ob) (Some rc))
       /\ d <> 1%positive
       /\ cells st1 !! rc = Some (Some 1)
       /\ arrays st1 !! d = Some bs'
       /\ Z.of_nat (length bs') = sizeof u8x2 * Buf.m_size ob
       /\ buffers st1 !! 5%positive = Some ob
       /\ arrays st1 !! 1%positive = Some block1
       /\ (forall i, 0 <= i -> (i + 1) * sizeof u8x2 <= Buf.m_size ob ->
             elem_at (T:=u8x2) bs' i = elem_at (T:=u8x2) block1 i)
       /\ (forall i, 0 <= i < Buf.m_size ob ->
             Buf.m_size ob < (i + 1) * sizeof u8x2 ->
             elem_at (T:=u8x2) bs' i = None).
Proof.
  intros ob.
  assert (buffers pairs0 !! 5%positive = Some ob) as H1 by reflexivity.
  assert (Buf.m_size ob <= UINT_MAX) as H3 by (by vm_compute).
  assert (Buf.data ob = Some 1%positive) as H4 by reflexivity.
  assert (arrays pairs0 !! 1%positive = Some block1) as H5 by reflexivity.
  split; [exact H1|]. split; [exact pairs0_owns_5|]. split; [exact H3|].
  split; [exact H4|]. split; [exact H5|].
  exact (shared_from_buffer_copies_size_bytes (T:=u8x2) pairs0 20%positive
           5%positive ob 1%positive block1 H1 pairs0_owns_5 H3 H4 H5).
Defined.
End BufferMoreExamples.

(** * More on the backend *)

Module Relation.
Import Database_PostgreSQL Backend.

(** ** The relation under the statements *)

Lemma without_absent pos rows :
  stored rows pos = None -> without pos rows = rows.
Proof.
  unfold stored, without. intros Hnone.
  assert (filter (at_pos pos) rows = []) as Hf
    by (by destruct (filter (at_pos pos) rows)).
  clear Hnone. induction rows as [|r rows IH]; [done|].
  rewrite filter_cons in Hf.
  destruct (decide (at_pos pos r)) as [Hk|Hk]; [done|].
  rewrite filter_cons_True by done. by rewrite IH.
Qed.






(** After a save, every row under the key holds the payload. *)
Lemma upsert_rows_at_pos pos d rows r :
  r ∈ upsert pos d rows -> at_pos pos r -> col_data r = d.
Proof.
  unfold upsert. pose proof (filter_updated pos d rows) as Hf.
  destruct (sql_update (vX pos) (vY pos) (vZ pos) d rows)
    as [updated returned] eqn:Hup.
  cbn [fst snd] in Hf. apply (f_equal snd) in Hup. cbn in Hup.
  assert (forall r, r ∈ updated -> at_pos pos r -> col_data r = d) as Hupd.
  { intros r' Hin Hk.
    assert (r' ∈ returned) as Hret
      by (rewrite <- Hf; by apply list_elem_of_filter).
    rewrite <- Hup in Hret.
    apply list_elem_of_fmap in Hret as (r0 & -> & _). done. }
  destruct returned as [|r1 returned]; [|by apply Hupd].
  intros [Hin| ->%list_elem_of_singleton]%elem_of_app Hk; [by apply Hupd|done].
Qed.

(** Saving what is already stored changes nothing. *)
Lemma upsert_same pos d rows :
  upsert pos d (upsert pos d rows) = upsert pos d rows.
Proof.
  set (rows1 := upsert pos d rows).
  assert (stored rows1 pos = Some d) as Hst by apply stored_upsert.
  unfold upsert at 1.
  pose proof (filter_updated pos d rows1) as Hf.
  destruct (sql_update (vX pos) (vY pos) (vZ pos) d rows1)
    as [updated returned] eqn:Hup.
  cbn [fst snd] in Hf.
  assert (updated = rows1) as ->.
  { apply (f_equal fst) in Hup. cbn in Hup. rewrite <- Hup.
    transitivity (id <$> rows1); [|apply list_fmap_id].
    apply list_fmap_ext. intros i r Hr. cbn.
    destruct (key_is (vX pos) (vY pos) (vZ pos) r) eqn:Hk; [|done].
    rewrite <- (upsert_rows_at_pos pos d rows r);
      [by destruct r|by eapply list_elem_of_lookup_2|done]. }
  destruct returned as [|r returned]; [|done].
  unfold stored in Hst. by rewrite Hf in Hst.
Qed.
End Relation.

Module BackendMore.
Import Database_PostgreSQL Backend Relation Session.

(** ** The constructor *)

(** The world the constructor leaves when it returns. *)
Lemma ctor_result (conf : gmap string string) (info : string) (w : world) :
  conf !! "postgresql_connection_info" = Some info ->
  accepts w (c_str info) = true ->
  ctor conf w
  = Ok (Obj (fresh (dom (conns w))))
       (World (accepts w) (Some (default [] (blocks w)))
              (<[fresh (dom (conns w)) := Conn CONNECTION_OK prepared_by_ctor]>
                 (conns w))).
Proof.
  intros Hinfo Hacc. set (h := fresh (dom (conns w))). unfold ctor.
  erewrite db_bind_Ok.
  2:{ unfold try_catch_SettingNotFound, Settings_get.
      rewrite Hinfo. unfold mbind, M_bind, mret, M_ret, PQconnectdb.
      rewrite Hacc. fold h. reflexivity. }
  erewrite db_bind_Ok
    by (unfold PQstatus; cbn; by rewrite lookup_insert_eq).
  cbn [conn_status].
  destruct (decide (CONNECTION_OK <> CONNECTION_OK)) as [?|_]; [done|].
  erewrite db_bind_Ok by reflexivity.
  erewrite db_bind_Ok.
  2:{ unfold PG_OK_FREE, PG_RES_FREE, PG_RES, PQclear, PQexec, usable.
      unfold mbind, M_bind, mret, M_ret. cbn.
      rewrite lookup_insert_eq. reflexivity. }
  erewrite db_bind_Ok.
  2:{ apply prepare_statement_spec with (p := ∅); cbn;
        [by rewrite lookup_insert_eq|done]. }
  repeat (erewrite db_bind_Ok;
    [|eapply prepare_statement_spec; cbn;
        [by rewrite lookup_insert_eq|done]]).
  cbn. unfold set_conns, set_blocks. cbn. by rewrite !insert_insert_eq.
Qed.

(** [X1] With the setting present and the engine reachable, the
    constructor returns a backend on a [PGconn] that did not exist before,
    with the six statements prepared.  The relation is created empty when
    the database has none and kept with its rows when it has one; no other
    [PGconn] is touched. *)
Theorem constructor_opens_session (conf : gmap string string)
    (info : string) (w : world) :
  conf !! "postgresql_connection_info" = Some info ->
  accepts w (c_str info) = true ->
  exists db w',
    ctor conf w = Ok db w'
    /\ conns w !! conn db = None
    /\ session w' db (default [] (blocks w))
    /\ (forall rows, blocks w = Some rows -> blocks w' = Some rows)
    /\ (blocks w = None -> blocks w' = Some [])
    /\ (forall h, h <> conn db -> conns w' !! h = conns w !! h).
Proof.
  intros Hinfo Hacc. eexists _, _.
  split; [by apply (ctor_result conf info)|]. cbn.
  split_and!.
  - apply not_elem_of_dom, is_fresh.
  - split; [|done]. exists prepared_by_ctor. cbn.
    rewrite lookup_insert_eq. split; [done|apply prepared_by_ctor_all].
  - by intros rows ->.
  - by intros ->.
  - intros h Hh. by rewrite lookup_insert_ne.
Qed.

(** [X2] Without the setting the constructor throws
    [SettingNotFoundException] with its own text, before anything was
    asked of libpq: no [PGconn] is allocated and the database is not
    touched. *)
Theorem constructor_without_setting (conf : gmap string string) (w : world) :
  conf !! "postgresql_connection_info" = None ->
  ctor conf w
  = Fail (SettingNotFoundException
            ("postgresql_connection_info must be "
             +:+ "set in world.mt to use the PostgreSQL backend!")) w.
Proof.
  intros Hnone. unfold ctor, try_catch_SettingNotFound, Settings_get.
  unfold mbind, M_bind. by rewrite Hnone.
Qed.

(** [X3] With the setting present and the engine out of reach the
    constructor throws [FileNotGoodException], a different exception from
    the one for a missing setting, with the text of libpq after a fixed
    prefix.  No statement was sent: the relation is as before.  The
    [PGconn] that [PQconnectdb] handed out is left behind with a bad
    status. *)
Theorem constructor_with_unreachable_engine (conf : gmap string string)
    (info : string) (w : world) :
  conf !! "postgresql_connection_info" = Some info ->
  accepts w (c_str info) = false ->
  exists detail w',
    ctor conf w
    = Fail (FileNotGoodException
              ("Couldn't open PostgreSQL database connection: " +:+ detail)) w'
    /\ blocks w' = blocks w
    /\ conns w'
       = <[fresh (dom (conns w)) := Conn CONNECTION_BAD ∅]> (conns w).
Proof.
  intros Hinfo Hacc. unfold ctor.
  erewrite db_bind_Ok.
  2:{ unfold try_catch_SettingNotFound, Settings_get.
      rewrite Hinfo. unfold mbind, M_bind, mret, M_ret, PQconnectdb.
      rewrite Hacc. reflexivity. }
  erewrite db_bind_Ok
    by (unfold PQstatus; cbn; by rewrite lookup_insert_eq).
  cbn [conn_status].
  destruct (decide (CONNECTION_BAD <> CONNECTION_OK)) as [_|Hn];
    [|by destruct Hn].
  unfold mbind, M_bind, PQerrorMessage, raise. cbn.
  rewrite lookup_insert_eq. by eexists _, _.
Qed.

(** ** The calls *)

Lemma beginSave_spec w db rows :
  session w db rows -> beginSave db w = Ok tt w.
Proof.
  intros [(p & Hc & Hp) Hb]. destruct Hp as (Hbegin & _).
  unfold beginSave, PG_OK_FREE, PG_RES_FREE, PG_RES, PQclear.
  unfold mbind, M_bind, mret, M_ret.
  rewrite (exec_prepared w db rows p "begin" SQL_begin _ _ _ _ _ Hc Hb Hbegin).
  cbn. by rewrite set_blocks_same.
Qed.

Lemma endSave_spec w db rows :
  session w db rows -> endSave db w = Ok tt w.
Proof.
  intros [(p & Hc & Hp) Hb]. destruct Hp as (_ & Hend & _).
  unfold endSave, PG_OK_FREE, PG_RES_FREE, PG_RES, PQclear.
  unfold mbind, M_bind, mret, M_ret.
  rewrite (exec_prepared w db rows p "end" SQL_commit _ _ _ _ _ Hc Hb Hend).
  cbn. by rewrite set_blocks_same.
Qed.

(** [X6] [deleteBlock] of a key that has no row returns [true] and
    changes nothing; so deleting a key twice is the same as deleting it
    once. *)
Theorem deleteBlock_of_absent_key_changes_nothing (w : world) (db : t)
    (rows : list row) (pos : v3s16) :
  session w db rows ->
  valid_pos pos ->
  (stored rows pos = None -> deleteBlock db pos w = Ok true w)
  /\ (deleteBlock db pos;; deleteBlock db pos) w = deleteBlock db pos w.
Proof.
  intros Hs Hpos. split.
  - intros Hnone. rewrite (deleteBlock_spec _ _ _ _ Hs Hpos).
    rewrite without_absent by done. by rewrite set_blocks_same by apply Hs.
  - rewrite (db_bind_Ok _ _ _ _ _ (deleteBlock_spec _ _ _ _ Hs Hpos)).
    rewrite (deleteBlock_spec _ db (without pos rows) pos)
      by (by eauto using session_set_blocks).
    rewrite (deleteBlock_spec _ _ _ _ Hs Hpos).
    by rewrite (without_absent pos (without pos rows))
      by apply stored_without.
Qed.



(** [X9] Saving the same payload under the same key twice leaves the
    database exactly as saving it once. *)
Theorem saveBlock_twice_is_saveBlock_once (w : world) (db : t)
    (rows : list row) (pos : v3s16) (data : string) :
  session w db rows ->
  valid_pos pos ->
  Z.of_nat (String.length data) <= INT_MAX ->
  (saveBlock db pos data;; saveBlock db pos data) w = saveBlock db pos data w.
Proof.
  intros Hs Hpos Hlen.
  rewrite (db_bind_Ok _ _ _ _ _ (saveBlock_spec _ _ _ _ _ Hs Hpos Hlen)).
  rewrite (saveBlock_spec _ db (upsert pos data rows) pos data)
    by (by eauto using session_set_blocks).
  rewrite (saveBlock_spec _ _ _ _ _ Hs Hpos Hlen).
  by rewrite upsert_same.
Qed.

(** [X10] [listAllLoadableBlocks] appends to the vector it is given: what
    the vector held stays in front, in order, and one position per row
    follows.  Called twice on the same vector it lists every key twice. *)
Theorem listAllLoadableBlocks_appends (w : world) (db : t)
    (rows : list row) :
  session w db rows ->
  keys_valid rows ->
  exists keys,
    listAllLoadableBlocks db [] w = Ok keys w
    /\ length keys = length rows
    /\ (forall dst, listAllLoadableBlocks db dst w = Ok (dst ++ keys) w)
    /\ (dst ← listAllLoadableBlocks db [];
        listAllLoadableBlocks db dst) w = Ok (keys ++ keys) w.
Proof.
  intros Hs Hvalid. exists (row_pos <$> rows).
  split_and!.
  - by rewrite (listAllLoadableBlocks_spec _ _ _ [] Hs Hvalid).
  - by rewrite length_fmap.
  - intros dst. by rewrite (listAllLoadableBlocks_spec _ _ _ dst Hs Hvalid).
  - rewrite (db_bind_Ok _ _ _ _ _
               (listAllLoadableBlocks_spec _ _ _ [] Hs Hvalid)).
    by rewrite (listAllLoadableBlocks_spec _ _ _ _ Hs Hvalid).
Qed.
(** ** Calls in sequence *)

(** What a call needs of its arguments: coordinates that are [s16]
    values, and a payload whose length fits the [int] it is cast to. *)
Definition call_ok (c : call) : Prop :=
  match c with
  | SaveBlock pos data =>
      valid_pos pos /\ Z.of_nat (String.length data) <= INT_MAX
  | LoadBlock pos | DeleteBlock pos => valid_pos pos
  | BeginSave | EndSave | ListAllLoadableBlocks => True
  end.

(** The calls one after the other, with nothing caught in between. *)
Fixpoint perform_each (this : t) (cs : list call) : DB unit :=
  match cs with
  | [] => mret tt
  | c :: cs' => perform this c;; perform_each this cs'
  end.

Lemma perform_ok w db rows c :
  session w db rows -> pk_ok rows -> keys_valid rows -> call_ok c ->
  exists rows',
    perform db c w = Ok tt (set_blocks (Some rows') w)
    /\ pk_ok rows' /\ keys_valid rows'.
Proof.
  intros Hs Hpk Hvalid Hc.
  assert (set_blocks (Some rows) w = w) as Hsame
    by (apply set_blocks_same, Hs).
  destruct c as [| |pos data|pos|pos|]; cbn [perform call_ok] in *.
  - exists rows. by rewrite Hsame, (beginSave_spec _ _ _ Hs).
  - exists rows. by rewrite Hsame, (endSave_spec _ _ _ Hs).
  - destruct Hc as [Hpos Hlen]. exists (upsert pos data rows).
    rewrite (db_bind_Ok _ _ _ _ _ (saveBlock_spec _ _ _ _ _ Hs Hpos Hlen)).
    split; [done|]. split; [by apply pk_ok_upsert|by apply keys_valid_upsert].
  - exists rows.
    rewrite (db_bind_Ok _ _ _ _ _ (loadBlock_spec _ _ _ _ Hs Hc)).
    by rewrite Hsame.
  - exists (without pos rows).
    rewrite (db_bind_Ok _ _ _ _ _ (deleteBlock_spec _ _ _ _ Hs Hc)).
    split; [done|]. split; [by apply pk_ok_without|by apply keys_valid_without].
  - exists rows.
    rewrite (db_bind_Ok _ _ _ _ _
               (listAllLoadableBlocks_spec _ _ _ [] Hs Hvalid)).
    by rewrite Hsame.
Qed.

(** [X11] On an open session, calls with [s16] coordinates and payloads
    whose length fits an [int] never throw, in any number and order: each
    one returns, the session stays open with its statements, no [PGconn]
    is made or released, and the relation keeps at most one row per
    key. *)
Theorem valid_calls_never_throw (w : world) (db : t) (rows : list row)
    (cs : list call) :
  session w db rows ->
  pk_ok rows ->
  keys_valid rows ->
  Forall call_ok cs ->
  exists w' rows',
    perform_each db cs w = Ok tt w'
    /\ session w' db rows'
    /\ pk_ok rows'
    /\ keys_valid rows'
    /\ conns w' = conns w.
Proof.
  intros Hs Hpk Hvalid Hcs. revert w rows Hs Hpk Hvalid.
  induction Hcs as [|c cs Hc _ IH]; intros w rows Hs Hpk Hvalid.
  - by exists w, rows.
  - destruct (perform_ok w db rows c Hs Hpk Hvalid Hc)
      as (rows1 & Hrun & Hpk1 & Hvalid1).
    cbn [perform_each]. rewrite (db_bind_Ok _ _ _ _ _ Hrun).
    destruct (IH (set_blocks (Some rows1) w) rows1) as (w' & rows' & H');
      [by eapply session_set_blocks|done|done|].
    by exists w', rows'.
Qed.

(** ** From the constructor to the destructor *)


(** [X5] What one backend saved, the next one loads: a payload saved by
    a backend that is then destroyed is returned by [loadBlock] of a
    backend constructed afterwards on the same database.  Both have
    released their [PGconn], and the second one leaves the database as it
    found it. *)
Theorem saved_block_outlives_the_backend (conf : gmap string string)
    (info : string) (w : world) (pos : v3s16) (data : string) :
  conf !! "postgresql_connection_info" = Some info ->
  accepts w (c_str info) = true ->
  valid_pos pos ->
  Z.of_nat (String.length data) <= INT_MAX ->
  exists w1,
    (db ← ctor conf; saveBlock db pos data;; dtor db) w = Ok tt w1
    /\ (db ← ctor conf; d ← loadBlock db pos; dtor db;; mret d) w1
       = Ok data w1
    /\ conns w1 = conns w.
Proof.
  intros Hinfo Hacc Hpos Hlen.
  assert (forall (w0 : world) rows0 cs0,
            session (World (accepts w0) (Some rows0)
                       (<[fresh (dom cs0) :=
                            Conn CONNECTION_OK prepared_by_ctor]> cs0))
                    (Obj (fresh (dom cs0))) rows0) as Hsession.
  { intros w0 rows0 cs0. split; [|done]. exists prepared_by_ctor. cbn.
    rewrite lookup_insert_eq. split; [done|apply prepared_by_ctor_all]. }
  assert (forall cs0 : gmap positive PGconn,
            delete (fresh (dom cs0))
              (<[fresh (dom cs0) := Conn CONNECTION_OK prepared_by_ctor]> cs0)
            = cs0) as Hdel.
  { intros cs0. rewrite delete_insert_eq. apply delete_id.
    apply not_elem_of_dom, is_fresh. }
  set (w1 := World (accepts w)
              (Some (upsert pos data (default [] (blocks w)))) (conns w)).
  exists w1. split.
  { rewrite (db_bind_Ok _ _ _ _ _ (ctor_result conf info w Hinfo Hacc)).
    rewrite (db_bind_Ok _ _ _ _ _
               (saveBlock_spec _ _ _ _ _ (Hsession w _ _) Hpos Hlen)).
    unfold dtor, PQfinish, set_conns, set_blocks. cbn.
    by rewrite Hdel. }
  split; [|done].
  rewrite (db_bind_Ok _ _ _ _ _ (ctor_result conf info w1 Hinfo Hacc)).
  subst w1. cbn [accepts blocks conns default from_option id].
  rewrite (db_bind_Ok _ _ _ _ _
             (loadBlock_spec _ _ _ _ (Hsession w _ _) Hpos)).
  rewrite stored_upsert.
  unfold dtor, PQfinish, set_conns, mbind, M_bind, mret, M_ret.
  cbn [accepts blocks conns conn default from_option id]. rewrite Hdel.
  reflexivity.
Qed.
End BackendMore.

(** ** Concrete sessions *)

Module BackendMoreExamples.
Import Database_PostgreSQL Backend Session BackendExamples BackendMore.

(** A database without the relation, behind an engine that can be
    reached. *)
Definition reachable : world := World (fun _ => true) None ∅.

Definition info_db : string := "host=db.example.org".

Lemma conf_db_info : conf_db !! "postgresql_connection_info" = Some info_db.
Proof. vm_compute. reflexivity. Qed.

Lemma reachable_accepts : accepts reachable (c_str info_db) = true.
Proof. reflexivity. Qed.

Lemma unreachable_refuses : accepts unreachable (c_str info_db) = false.
Proof. reflexivity. Qed.

Definition rows456 : list row := [Row 4 5 6 "xyz"].
Definition pos456 : v3s16 := V3 4 5 6.

Lemma rows456_pk : pk_ok rows456.
Proof. apply NoDup_singleton. Qed.

Lemma rows456_valid : keys_valid rows456.
Proof. apply Forall_singleton. unfold valid_pos, s16_range. cbn. lia. Qed.

Lemma constructor_opens_session_witness :
  conf_db !! "postgresql_connection_info" = Some info_db
  /\ accepts reachable (c_str info_db) = true
  /\ exists db w',
       ctor conf_db reachable = Ok db w'
       /\ conns reachable !! conn db = None
       /\ session w' db (default [] (blocks reachable))
       /\ (forall rows, blocks reachable = Some rows -> blocks w' = Some rows)
       /\ (blocks reachable = None -> blocks w' = Some [])
       /\ (forall h, h <> conn db -> conns w' !! h = conns reachable !! h).
Proof.
  split; [exact conf_db_info|]. split; [exact reachable_accepts|].
  exact (constructor_opens_session conf_db info_db reachable
           conf_db_info reachable_accepts).
Defined.

Lemma constructor_without_setting_witness :
  (∅ : gmap string string) !! "postgresql_connection_info" = None
  /\ ctor ∅ reachable
     = Fail (SettingNotFoundException
               ("postgresql_connection_info must be "
                +:+ "set in world.mt to use the PostgreSQL backend!"))
            reachable.
Proof.
  split; [reflexivity|].
  exact (constructor_without_setting ∅ reachable eq_refl).
Defined.

Lemma constructor_with_unreachable_engine_witness :
  conf_db !! "postgresql_connection_info" = Some info_db
  /\ accepts unreachable (c_str info_db) = false
  /\ exists detail w',
       ctor conf_db unreachable
       = Fail (FileNotGoodException
                 ("Couldn't open PostgreSQL database connection: "
                  +:+ detail)) w'
       /\ blocks w' = blocks unreachable
       /\ conns w'
          = <[fresh (dom (conns unreachable)) := Conn CONNECTION_BAD ∅]>
              (conns unreachable).
Proof.
  split; [exact conf_db_info|]. split; [exact unreachable_refuses|].
  exact (constructor_with_unreachable_engine conf_db info_db unreachable
           conf_db_info unreachable_refuses).
Defined.


Lemma saved_block_outlives_the_backend_witness :
  conf_db !! "postgresql_connection_info" = Some info_db
  /\ accepts reachable (c_str info_db) = true
  /\ valid_pos pos123
  /\ Z.of_nat (String.length bytes012) <= INT_MAX
  /\ exists w1,
       (db ← ctor conf_db; saveBlock db pos123 bytes012;; dtor db) reachable
       = Ok tt w1
       /\ (db ← ctor conf_db; d ← loadBlock db pos123; dtor db;; mret d) w1
          = Ok bytes012 w1
       /\ conns w1 = conns reachable.
Proof.
  split; [exact conf_db_info|]. split; [exact reachable_accepts|].
  split; [exact valid_pos123|]. split; [exact bytes012_fits|].
  exact (saved_block_outlives_the_backend conf_db info_db reachable pos123
           bytes012 conf_db_info reachable_accepts valid_pos123
           bytes012_fits).
Defined.

Lemma deleteBlock_of_absent_key_changes_nothing_witness :
  session (open_with rows456) db1 rows456
  /\ valid_pos pos123
  /\ (stored rows456 pos123 = None ->
        deleteBlock db1 pos123 (open_with rows456)
        = Ok true (open_with rows456))
  /\ (deleteBlock db1 pos123;; deleteBlock db1 pos123) (open_with rows456)
     = deleteBlock db1 pos123 (open_with rows456).
Proof.
  split; [apply open_with_session|]. split; [exact valid_pos123|].
  exact (deleteBlock_of_absent_key_changes_nothing (open_with rows456) db1
           rows456 pos123 (open_with_session _) valid_pos123).
Defined.



Lemma saveBlock_twice_is_saveBlock_once_witness :
  session (open_with rows456) db1 rows456
  /\ valid_pos pos123
  /\ Z.of_nat (String.length bytes012) <= INT_MAX
  /\ (saveBlock db1 pos123 bytes012;; saveBlock db1 pos123 bytes012)
       (open_with rows456)
     = saveBlock db1 pos123 bytes012 (open_with rows456).
Proof.
  split; [apply open_with_session|]. split; [exact valid_pos123|].
  split; [exact bytes012_fits|].
  exact (saveBlock_twice_is_saveBlock_once (open_with rows456) db1 rows456
           pos123 bytes012 (open_with_session _) valid_pos123 bytes012_fits).
Defined.

Lemma listAllLoadableBlocks_appends_witness :
  session (open_with rows456) db1 rows456
  /\ keys_valid rows456
  /\ exists keys,
       listAllLoadableBlocks db1 [] (open_with rows456)
       = Ok keys (open_with rows456)
       /\ length keys = length rows456
       /\ (forall dst, listAllLoadableBlocks db1 dst (open_with rows456)
                       = Ok (dst ++ keys) (open_with rows456))
       /\ (dst ← listAllLoadableBlocks db1 [];
           listAllLoadableBlocks db1 dst) (open_with rows456)
          = Ok (keys ++ keys) (open_with rows456).
Proof.
  split; [apply open_with_session|]. split; [exact rows456_valid|].
  exact (listAllLoadableBlocks_appends (open_with rows456) db1 rows456
           (open_with_session _) rows456_valid).
Defined.

Lemma valid_calls_never_throw_witness :
  let cs := [BeginSave; SaveBlock pos123 bytes012; DeleteBlock pos456;
             EndSave; LoadBlock pos123; ListAllLoadableBlocks] in
  session (open_with rows456) db1 rows456
  /\ pk_ok rows456
  /\ keys_valid rows456
  /\ Forall call_ok cs
  /\ exists w' rows',
       perform_each db1 cs (open_with rows456) = Ok tt w'
       /\ session w' db1 rows'
       /\ pk_ok rows'
       /\ keys_valid rows'
       /\ conns w' = conns (open_with rows456).
Proof.
  intros cs.
  assert (Forall call_ok cs) as Hcs.
  { pose proof valid_pos123. pose proof bytes012_fits.
    assert (valid_pos pos456) by (unfold valid_pos, s16_range; cbn; lia).
    repeat (constructor; [by cbn|]). constructor. }
  split; [apply open_with_session|]. split; [exact rows456_pk|].
  split; [exact rows456_valid|]. split; [exact Hcs|].
  exact (valid_calls_never_throw (open_with rows456) db1 rows456 cs
           (open_with_session _) rows456_pk rows456_valid Hcs).
Defined.
End BackendMoreExamples.

(** ** Calls that cannot succeed *)

Module BackendFailures.
Import Database_PostgreSQL Backend Session BackendExamples.



(** [X25] The [bool] that [saveBlock] and [deleteBlock] return is
    always [true]: a failure is an exception, never [false]. *)
Theorem save_and_delete_never_return_false (w : world) (db : t)
    (pos : v3s16) (data : string) :
  returned (saveBlock db pos data w) <> Some false
  /\ returned (deleteBlock db pos w) <> Some false.
Proof.
  split.
  - unfold saveBlock. unfold mbind at 1, M_bind.
    by destruct (PG_OK_FREE _ _ w) as [[] w1|e w1].
  - unfold deleteBlock. unfold mbind at 1, M_bind.
    by destruct (PG_OK_FREE _ _ w) as [[] w1|e w1].
Qed.



End BackendFailures.
